(** * Image3D: heightmap geometry, content cache protocol and morph animator

    A shallow embedding of [spellbook/src/Geometry/Image3D.js] (voodoo.js).

    Conventions of the embedding.
    - A JavaScript number is an exact rational extended with [+Infinity],
      [-Infinity] and [NaN] ([JSNum]).  Binary rounding and the sign of zero
      are not modelled.
    - A JavaScript array is a list of optional elements ([JSArray]); [None]
      is a hole, which reads as [undefined].  The 2^32-1 bound on array
      lengths is not modelled.
    - A method of the model is a function on an explicit [World]: the
      [Image3D] object itself, its two views, the content cache, the store
      of [Image] objects and the trace of outward effects.  A thrown
      exception keeps the world as it was when it was thrown.
    - Closures are defunctionalised ([Callback], [Notifier], [Listener]). *)

From Stdlib Require Import ZArith QArith Qcanon Lia Ascii.
From stdpp Require Import base option list strings pretty gmap.

Local Open Scope nat_scope.

(* ================================================================= *)
(** ** JavaScript numbers *)

Module Num.

Inductive JSNum : Type :=
| Fin (q : Qc)
| PInf
| NInf
| NaN.

Definition of_Z (z : Z) : JSNum := Fin (Q2Qc (inject_Z z)).
Definition of_nat (n : nat) : JSNum := of_Z (Z.of_nat n).

Definition zero : JSNum := of_Z 0.
Definition one : JSNum := of_Z 1.
Definition half : JSNum := Fin (Q2Qc (1 # 2)).

(** The infinity (or [NaN]) that has the sign of a comparison with 0. *)
Definition inf_of_sign (c : comparison) : JSNum :=
  match c with Gt => PInf | Lt => NInf | Eq => NaN end.

Definition neg (a : JSNum) : JSNum :=
  match a with
  | Fin q => Fin (- q)%Qc
  | PInf => NInf
  | NInf => PInf
  | NaN => NaN
  end.

Definition add (a b : JSNum) : JSNum :=
  match a, b with
  | NaN, _ | _, NaN => NaN
  | Fin x, Fin y => Fin (x + y)%Qc
  | PInf, NInf | NInf, PInf => NaN
  | PInf, _ | _, PInf => PInf
  | NInf, _ | _, NInf => NInf
  end.

Definition sub (a b : JSNum) : JSNum := add a (neg b).

Definition mul (a b : JSNum) : JSNum :=
  match a, b with
  | NaN, _ | _, NaN => NaN
  | Fin x, Fin y => Fin (x * y)%Qc
  | Fin x, PInf | PInf, Fin x => inf_of_sign (x ?= 0)%Qc
  | Fin x, NInf | NInf, Fin x => inf_of_sign (0 ?= x)%Qc
  | PInf, PInf | NInf, NInf => PInf
  | PInf, NInf | NInf, PInf => NInf
  end.

(** Division; a zero divisor counts as [+0]. *)
Definition div (a b : JSNum) : JSNum :=
  match a, b with
  | NaN, _ | _, NaN => NaN
  | Fin x, Fin y =>
      match (y ?= 0)%Qc with
      | Eq => inf_of_sign (x ?= 0)%Qc
      | _ => Fin (x / y)%Qc
      end
  | Fin _, PInf | Fin _, NInf => zero
  | PInf, Fin y => match (y ?= 0)%Qc with Lt => NInf | _ => PInf end
  | NInf, Fin y => match (y ?= 0)%Qc with Lt => PInf | _ => NInf end
  | _, _ => NaN
  end.

(** [a > b] *)
Definition gt (a b : JSNum) : bool :=
  match a, b with
  | Fin x, Fin y => match (x ?= y)%Qc with Gt => true | _ => false end
  | PInf, Fin _ | PInf, NInf | Fin _, NInf => true
  | _, _ => false
  end.

(** [a < b] *)
Definition lt (a b : JSNum) : bool := gt b a.

(** [a === b] on numbers *)
Definition strict_eq (a b : JSNum) : bool :=
  match a, b with
  | Fin x, Fin y => match (x ?= y)%Qc with Eq => true | _ => false end
  | PInf, PInf | NInf, NInf => true
  | _, _ => false
  end.

(** [a >= b] *)
Definition ge (a b : JSNum) : bool := gt a b || strict_eq a b.

(** A number used as an array index names an element only when it is a
    non-negative integer; any other number names an ordinary property. *)
Definition to_index (a : JSNum) : option nat :=
  match a with
  | Fin q =>
      match Qnum q, Qden q with
      | Z0, xH => Some 0
      | Zpos p, xH => Some (Pos.to_nat p)
      | _, _ => None
      end
  | _ => None
  end.

End Num.
Abbreviation JSNum := Num.JSNum.
Abbreviation Fin := Num.Fin.
Abbreviation PInf := Num.PInf.
Abbreviation NInf := Num.NInf.
Abbreviation NaN := Num.NaN.

Declare Scope num_scope.
Delimit Scope num_scope with num.
Infix "+" := Num.add : num_scope.
Infix "-" := Num.sub : num_scope.
Infix "*" := Num.mul : num_scope.
Infix "/" := Num.div : num_scope.
Infix ">?" := Num.gt (at level 70) : num_scope.
Bind Scope num_scope with JSNum.

(* ================================================================= *)
(** ** JavaScript arrays *)

Section JSArrays.
Context {A : Type}.

Definition JSArray : Type := list (option A).

(** An array without holes. *)
Definition arr_of (l : list A) : list (option A) := map Some l.

(** [arr[i] = v]: overwrites in range, extends with holes beyond it. *)
Definition arr_set (i : nat) (v : A) (a : list (option A)) : list (option A) :=
  if i <? length a then <[i := Some v]> a
  else a ++ replicate (i - length a) None ++ [Some v].

(** [arr[i] = undefined] *)
Definition arr_clear (i : nat) (a : list (option A)) : list (option A) :=
  if i <? length a then <[i := None]> a
  else a ++ replicate (i - length a) None ++ [None].

(** [arr[i]], [None] when it reads [undefined]. *)
Definition arr_get (i : nat) (a : list (option A)) : option A :=
  match a !! i with Some (Some v) => Some v | _ => None end.

(** [arr.length = n] *)
Definition arr_set_length (n : nat) (a : list (option A)) : list (option A) :=
  take n a ++ replicate (n - length a) None.

(** [arr.push(v)] *)
Definition arr_push (v : A) (a : list (option A)) : list (option A) :=
  a ++ [Some v].

(** [arr.slice(0)]: arrays are values here, the copy is the array. *)
Definition arr_slice0 (a : list (option A)) : list (option A) := a.

(** [arr[i] = v] where [i] is any number. *)
Definition arr_set_num (i : JSNum) (v : A) (a : list (option A)) : list (option A) :=
  match Num.to_index i with
  | Some k => arr_set k v a
  | None => a
  end.

(** The first [k] elements are set: no holes below [k]. *)
Definition dense_upto (k : nat) (a : list (option A)) : Prop :=
  forall j, j < k -> exists v, a !! j = Some (Some v).

(** An array of exactly [n] elements, none of them a hole. *)
Definition full_array (n : nat) (a : list (option A)) : Prop :=
  length a = n /\ dense_upto n a.

End JSArrays.
Arguments JSArray A : clear implicits.

(** [for (var i = 0; i < n; ++i) body] over a loop state. *)
Definition for_range {S : Type} (n : nat) (body : nat -> S -> S) (s : S) : S :=
  foldl (fun acc i => body i acc) s (seq 0 n).

(* ================================================================= *)
(** ** Failures *)

Inductive Failure : Type :=
| AssertFail (msg : string)
| RangeError
| TypeError
| NotFound (key : string)
| KeyCollision (key : string)
| DoubleRelease (key : string)
| IndexSizeError.

(** Outcome of a computation that touches no shared state. *)
Inductive result (A : Type) : Type :=
| Done (a : A)
| Fail (f : Failure).
Arguments Done {A} a.
Arguments Fail {A} f.

Definition rbind {A B} (r : result A) (k : A -> result B) : result B :=
  match r with Done a => k a | Fail f => Fail f end.

(** [new Array(n)] *)
Definition new_Array {A} (n : Z) : result (JSArray A) :=
  if (0 <=? n)%Z then Done (replicate (Z.to_nat n) None) else Fail RangeError.

(* ================================================================= *)
(** ** Data model *)

(** *** Geometry ([THREE.Vector3], [THREE.Vector2], [THREE.Face3],
    [THREE.Geometry]) *)

Record Vector3 : Type := V3 { v_x : JSNum; v_y : JSNum; v_z : JSNum }.
Record Vector2 : Type := V2 { uv_u : JSNum; uv_v : JSNum }.
Record Face3 : Type := F3 { f_a : nat; f_b : nat; f_c : nat }.

(** The three UV pairs of one face. *)
Definition FaceUvs : Type := (Vector2 * Vector2 * Vector2)%type.

Record MorphTarget : Type := mkMorphTarget {
  mt_name : string;
  mt_vertices : JSArray Vector3
}.

(** The fields of a [THREE.Geometry] that Image3D writes;
    [faceVertexUvs0] is [faceVertexUvs[0]].  Normals are left to THREE. *)
Record Geometry : Type := mkGeometry {
  vertices : JSArray Vector3;
  faces : JSArray Face3;
  faceVertexUvs0 : JSArray FaceUvs;
  morphTargets : list MorphTarget
}.

(** [new THREE.Geometry()] *)
Definition new_Geometry : Geometry := mkGeometry [] [] [] [].

(** *** Closures, defunctionalised *)

(** The [callback] argument of [loadHeightmap_]. *)
Inductive Callback : Type :=
| CbHeightmapsOnLoad (closure : nat) (index : nat)
    (* [onLoad.bind(this, i)] of [loadHeightmaps_]; [closure] names the
       variables [numLoaded], [numToLoad], [callback] of that call *)
| CbRebuildGeometry.
    (* [function() { that.rebuildGeometry_(); }] of [setHeightmap] *)

(** The [callback] argument of [loadHeightmaps_]. *)
Inductive Completion : Type :=
| KSetUpViews.
    (* the function literal of [setUpViews] *)

(** The variables a call of [loadHeightmaps_] closes over. *)
Record LoadClosure : Type := mkLoadClosure {
  numLoaded : nat;
  numToLoad : nat;
  onComplete : Completion
}.

(** An entry of a pending cache value's [notifiers]. *)
Inductive Notifier : Type :=
| NThis (index : nat) (callback : Callback)
    (* the function pushed by [loadHeightmap_] of this object *)
| NForeign (owner : nat).
    (* a function pushed by another Image3D; running it is only traced *)

(** A handler attached to an [Image]. *)
Inductive Listener : Type :=
| LHeightmapLoad (index : nat) (heightmapKey : string) (callback : Callback)
    (* [onLoad.bind(this, index, heightmapKey)] of [loadHeightmap_] *)
| LTextureLoad.
    (* [onLoad.bind(this)] of [setImageSrc] *)

(** *** Host objects *)

(** An [Image] element.  [img_pixels] is what a canvas reads back once the
    image is decoded: RGBA, four bytes per texel. *)
Record ImageObj : Type := mkImageObj {
  img_src : string;
  img_width : nat;
  img_height : nat;
  img_pixels : list Byte.byte;
  img_listeners : list Listener
}.

(** [new Image()] *)
Definition new_Image : ImageObj := mkImageObj EmptyString 0 0 [] [].

(** The HTML element the model is attached to. *)
Record Element : Type := mkElement { tagName : string; el_src : string }.

(** *** Cache payloads *)

(** The object literal [{heightmap, heightmapData, notifiers}]. *)
Record HeightmapEntry : Type := mkHeightmapEntry {
  he_heightmap : nat;
  he_heightmapData : option (list Byte.byte);
  he_notifiers : list Notifier
}.

Inductive Payload : Type :=
| PHeightmap (e : HeightmapEntry)
| PGeometry (g : Geometry).

Record CacheEntry : Type := mkCacheEntry { payload : Payload; refcount : nat }.

(** What [this.heightmaps_[i]] refers to: an [Image], or the cache value
    itself. *)
Inductive HeightmapRef : Type :=
| HImage (id : nat)
| HCacheVal (key : string).

(** What [this.heightmapData_[i]] refers to: pixel data, or the cache value
    itself. *)
Inductive HeightData : Type :=
| DPixels (bytes : list Byte.byte)
| DCacheVal (key : string).

(** *** Views *)

Inductive WhichView : Type := VMain | VStencil.

Record Texture : Type := mkTexture { tex_image : nat; sourceFile : string }.
Record Material : Type := mkMaterial { mat_transparent : bool }.
Record Mesh : Type := mkMesh {
  mesh_geometry : Payload;
  morphTargetInfluences : JSArray JSNum
}.

(** The fields of an [Image3DView_]. *)
Record View : Type := mkView {
  texture_ : option Texture;
  mesh_ : option Mesh;
  vgeometry_ : option Payload;
  vgeometryKey_ : option string;
  material_ : option Material;
  vloaded : bool
}.
Definition set_texture_ (v : option Texture) (x : View) : View :=
  mkView v (mesh_ x) (vgeometry_ x) (vgeometryKey_ x) (material_ x) (vloaded
    x).
Definition set_mesh_ (v : option Mesh) (x : View) : View :=
  mkView (texture_ x) v (vgeometry_ x) (vgeometryKey_ x) (material_ x)
    (vloaded x).
Definition set_vgeometry_ (v : option Payload) (x : View) : View :=
  mkView (texture_ x) (mesh_ x) v (vgeometryKey_ x) (material_ x) (vloaded
    x).
Definition set_vgeometryKey_ (v : option string) (x : View) : View :=
  mkView (texture_ x) (mesh_ x) (vgeometry_ x) v (material_ x) (vloaded x).
Definition set_material_ (v : option Material) (x : View) : View :=
  mkView (texture_ x) (mesh_ x) (vgeometry_ x) (vgeometryKey_ x) v (vloaded
    x).
Definition set_vloaded (v : bool) (x : View) : View :=
  mkView (texture_ x) (mesh_ x) (vgeometry_ x) (vgeometryKey_ x) (material_
    x) v.

(** [load] leaves a view without texture and mesh. *)
Definition new_View : View := mkView None None None None None false.

(** *** Effects visible outside the model *)

Inductive Effect : Type :=
| EDispatch (event : string)
| ESceneAdd (v : WhichView)
| ESceneRemove (v : WhichView)
| EDirty (v : WhichView)
| EDisposeGeometry
| EDisposeMaterial (v : WhichView)
| EDisposeTexture (v : WhichView)
| EDisposeCached (key : string)
| EStartDecode (image : nat) (src : string)
| ENotifyForeign (owner : nat).

(** *** The model object *)

Record Image3D : Type := mkImage3D {
  element_ : Element;
  imageSrc_ : option string;
  heightSources_ : JSArray string;
  heightmapKeys_ : JSArray string;
  maxHeight_ : JSNum;
  geometryStyle_ : string;
  transparent_ : bool;
  morphing_ : bool;
  morphStartTime_ : JSNum;
  morphDuration_ : JSNum;
  morphElapsed_ : JSNum;
  startMorphTargets_ : JSArray JSNum;
  currentMorphTargets_ : JSArray JSNum;
  endMorphTargets_ : JSArray JSNum;
  heightmapWidth_ : option nat;
  heightmapHeight_ : option nat;
  heightmaps_ : JSArray HeightmapRef;
  heightmapData_ : JSArray HeightData;
  closures : list LoadClosure;
  geometry_ : option Payload;
  geometryKey_ : string;
  image_ : option nat;
  loaded : bool
}.
Definition set_element_ (v : Element) (m : Image3D) : Image3D :=
  mkImage3D v (imageSrc_ m) (heightSources_ m) (heightmapKeys_ m)
    (maxHeight_ m) (geometryStyle_ m) (transparent_ m) (morphing_ m)
    (morphStartTime_ m) (morphDuration_ m) (morphElapsed_ m)
    (startMorphTargets_ m) (currentMorphTargets_ m) (endMorphTargets_ m)
    (heightmapWidth_ m) (heightmapHeight_ m) (heightmaps_ m) (heightmapData_
    m) (closures m) (geometry_ m) (geometryKey_ m) (image_ m) (loaded m).
Definition set_imageSrc_ (v : option string) (m : Image3D) : Image3D :=
  mkImage3D (element_ m) v (heightSources_ m) (heightmapKeys_ m) (maxHeight_
    m) (geometryStyle_ m) (transparent_ m) (morphing_ m) (morphStartTime_ m)
    (morphDuration_ m) (morphElapsed_ m) (startMorphTargets_ m)
    (currentMorphTargets_ m) (endMorphTargets_ m) (heightmapWidth_ m)
    (heightmapHeight_ m) (heightmaps_ m) (heightmapData_ m) (closures m)
    (geometry_ m) (geometryKey_ m) (image_ m) (loaded m).
Definition set_heightSources_ (v : JSArray string) (m : Image3D) : Image3D :=
  mkImage3D (element_ m) (imageSrc_ m) v (heightmapKeys_ m) (maxHeight_ m)
    (geometryStyle_ m) (transparent_ m) (morphing_ m) (morphStartTime_ m)
    (morphDuration_ m) (morphElapsed_ m) (startMorphTargets_ m)
    (currentMorphTargets_ m) (endMorphTargets_ m) (heightmapWidth_ m)
    (heightmapHeight_ m) (heightmaps_ m) (heightmapData_ m) (closures m)
    (geometry_ m) (geometryKey_ m) (image_ m) (loaded m).
Definition set_heightmapKeys_ (v : JSArray string) (m : Image3D) : Image3D :=
  mkImage3D (element_ m) (imageSrc_ m) (heightSources_ m) v (maxHeight_ m)
    (geometryStyle_ m) (transparent_ m) (morphing_ m) (morphStartTime_ m)
    (morphDuration_ m) (morphElapsed_ m) (startMorphTargets_ m)
    (currentMorphTargets_ m) (endMorphTargets_ m) (heightmapWidth_ m)
    (heightmapHeight_ m) (heightmaps_ m) (heightmapData_ m) (closures m)
    (geometry_ m) (geometryKey_ m) (image_ m) (loaded m).
Definition set_maxHeight_ (v : JSNum) (m : Image3D) : Image3D :=
  mkImage3D (element_ m) (imageSrc_ m) (heightSources_ m) (heightmapKeys_ m)
    v (geometryStyle_ m) (transparent_ m) (morphing_ m) (morphStartTime_ m)
    (morphDuration_ m) (morphElapsed_ m) (startMorphTargets_ m)
    (currentMorphTargets_ m) (endMorphTargets_ m) (heightmapWidth_ m)
    (heightmapHeight_ m) (heightmaps_ m) (heightmapData_ m) (closures m)
    (geometry_ m) (geometryKey_ m) (image_ m) (loaded m).
Definition set_geometryStyle_ (v : string) (m : Image3D) : Image3D :=
  mkImage3D (element_ m) (imageSrc_ m) (heightSources_ m) (heightmapKeys_ m)
    (maxHeight_ m) v (transparent_ m) (morphing_ m) (morphStartTime_ m)
    (morphDuration_ m) (morphElapsed_ m) (startMorphTargets_ m)
    (currentMorphTargets_ m) (endMorphTargets_ m) (heightmapWidth_ m)
    (heightmapHeight_ m) (heightmaps_ m) (heightmapData_ m) (closures m)
    (geometry_ m) (geometryKey_ m) (image_ m) (loaded m).
Definition set_transparent_ (v : bool) (m : Image3D) : Image3D :=
  mkImage3D (element_ m) (imageSrc_ m) (heightSources_ m) (heightmapKeys_ m)
    (maxHeight_ m) (geometryStyle_ m) v (morphing_ m) (morphStartTime_ m)
    (morphDuration_ m) (morphElapsed_ m) (startMorphTargets_ m)
    (currentMorphTargets_ m) (endMorphTargets_ m) (heightmapWidth_ m)
    (heightmapHeight_ m) (heightmaps_ m) (heightmapData_ m) (closures m)
    (geometry_ m) (geometryKey_ m) (image_ m) (loaded m).
Definition set_morphing_ (v : bool) (m : Image3D) : Image3D :=
  mkImage3D (element_ m) (imageSrc_ m) (heightSources_ m) (heightmapKeys_ m)
    (maxHeight_ m) (geometryStyle_ m) (transparent_ m) v (morphStartTime_ m)
    (morphDuration_ m) (morphElapsed_ m) (startMorphTargets_ m)
    (currentMorphTargets_ m) (endMorphTargets_ m) (heightmapWidth_ m)
    (heightmapHeight_ m) (heightmaps_ m) (heightmapData_ m) (closures m)
    (geometry_ m) (geometryKey_ m) (image_ m) (loaded m).
Definition set_morphStartTime_ (v : JSNum) (m : Image3D) : Image3D :=
  mkImage3D (element_ m) (imageSrc_ m) (heightSources_ m) (heightmapKeys_ m)
    (maxHeight_ m) (geometryStyle_ m) (transparent_ m) (morphing_ m) v
    (morphDuration_ m) (morphElapsed_ m) (startMorphTargets_ m)
    (currentMorphTargets_ m) (endMorphTargets_ m) (heightmapWidth_ m)
    (heightmapHeight_ m) (heightmaps_ m) (heightmapData_ m) (closures m)
    (geometry_ m) (geometryKey_ m) (image_ m) (loaded m).
Definition set_morphDuration_ (v : JSNum) (m : Image3D) : Image3D :=
  mkImage3D (element_ m) (imageSrc_ m) (heightSources_ m) (heightmapKeys_ m)
    (maxHeight_ m) (geometryStyle_ m) (transparent_ m) (morphing_ m)
    (morphStartTime_ m) v (morphElapsed_ m) (startMorphTargets_ m)
    (currentMorphTargets_ m) (endMorphTargets_ m) (heightmapWidth_ m)
    (heightmapHeight_ m) (heightmaps_ m) (heightmapData_ m) (closures m)
    (geometry_ m) (geometryKey_ m) (image_ m) (loaded m).
Definition set_morphElapsed_ (v : JSNum) (m : Image3D) : Image3D :=
  mkImage3D (element_ m) (imageSrc_ m) (heightSources_ m) (heightmapKeys_ m)
    (maxHeight_ m) (geometryStyle_ m) (transparent_ m) (morphing_ m)
    (morphStartTime_ m) (morphDuration_ m) v (startMorphTargets_ m)
    (currentMorphTargets_ m) (endMorphTargets_ m) (heightmapWidth_ m)
    (heightmapHeight_ m) (heightmaps_ m) (heightmapData_ m) (closures m)
    (geometry_ m) (geometryKey_ m) (image_ m) (loaded m).
Definition set_startMorphTargets_ (v : JSArray JSNum) (m : Image3D) : Image3D :=
  mkImage3D (element_ m) (imageSrc_ m) (heightSources_ m) (heightmapKeys_ m)
    (maxHeight_ m) (geometryStyle_ m) (transparent_ m) (morphing_ m)
    (morphStartTime_ m) (morphDuration_ m) (morphElapsed_ m) v
    (currentMorphTargets_ m) (endMorphTargets_ m) (heightmapWidth_ m)
    (heightmapHeight_ m) (heightmaps_ m) (heightmapData_ m) (closures m)
    (geometry_ m) (geometryKey_ m) (image_ m) (loaded m).
Definition set_currentMorphTargets_ (v : JSArray JSNum) (m : Image3D) : Image3D :=
  mkImage3D (element_ m) (imageSrc_ m) (heightSources_ m) (heightmapKeys_ m)
    (maxHeight_ m) (geometryStyle_ m) (transparent_ m) (morphing_ m)
    (morphStartTime_ m) (morphDuration_ m) (morphElapsed_ m)
    (startMorphTargets_ m) v (endMorphTargets_ m) (heightmapWidth_ m)
    (heightmapHeight_ m) (heightmaps_ m) (heightmapData_ m) (closures m)
    (geometry_ m) (geometryKey_ m) (image_ m) (loaded m).
Definition set_endMorphTargets_ (v : JSArray JSNum) (m : Image3D) : Image3D :=
  mkImage3D (element_ m) (imageSrc_ m) (heightSources_ m) (heightmapKeys_ m)
    (maxHeight_ m) (geometryStyle_ m) (transparent_ m) (morphing_ m)
    (morphStartTime_ m) (morphDuration_ m) (morphElapsed_ m)
    (startMorphTargets_ m) (currentMorphTargets_ m) v (heightmapWidth_ m)
    (heightmapHeight_ m) (heightmaps_ m) (heightmapData_ m) (closures m)
    (geometry_ m) (geometryKey_ m) (image_ m) (loaded m).
Definition set_heightmapWidth_ (v : option nat) (m : Image3D) : Image3D :=
  mkImage3D (element_ m) (imageSrc_ m) (heightSources_ m) (heightmapKeys_ m)
    (maxHeight_ m) (geometryStyle_ m) (transparent_ m) (morphing_ m)
    (morphStartTime_ m) (morphDuration_ m) (morphElapsed_ m)
    (startMorphTargets_ m) (currentMorphTargets_ m) (endMorphTargets_ m) v
    (heightmapHeight_ m) (heightmaps_ m) (heightmapData_ m) (closures m)
    (geometry_ m) (geometryKey_ m) (image_ m) (loaded m).
Definition set_heightmapHeight_ (v : option nat) (m : Image3D) : Image3D :=
  mkImage3D (element_ m) (imageSrc_ m) (heightSources_ m) (heightmapKeys_ m)
    (maxHeight_ m) (geometryStyle_ m) (transparent_ m) (morphing_ m)
    (morphStartTime_ m) (morphDuration_ m) (morphElapsed_ m)
    (startMorphTargets_ m) (currentMorphTargets_ m) (endMorphTargets_ m)
    (heightmapWidth_ m) v (heightmaps_ m) (heightmapData_ m) (closures m)
    (geometry_ m) (geometryKey_ m) (image_ m) (loaded m).
Definition set_heightmaps_ (v : JSArray HeightmapRef) (m : Image3D) : Image3D :=
  mkImage3D (element_ m) (imageSrc_ m) (heightSources_ m) (heightmapKeys_ m)
    (maxHeight_ m) (geometryStyle_ m) (transparent_ m) (morphing_ m)
    (morphStartTime_ m) (morphDuration_ m) (morphElapsed_ m)
    (startMorphTargets_ m) (currentMorphTargets_ m) (endMorphTargets_ m)
    (heightmapWidth_ m) (heightmapHeight_ m) v (heightmapData_ m) (closures
    m) (geometry_ m) (geometryKey_ m) (image_ m) (loaded m).
Definition set_heightmapData_ (v : JSArray HeightData) (m : Image3D) : Image3D :=
  mkImage3D (element_ m) (imageSrc_ m) (heightSources_ m) (heightmapKeys_ m)
    (maxHeight_ m) (geometryStyle_ m) (transparent_ m) (morphing_ m)
    (morphStartTime_ m) (morphDuration_ m) (morphElapsed_ m)
    (startMorphTargets_ m) (currentMorphTargets_ m) (endMorphTargets_ m)
    (heightmapWidth_ m) (heightmapHeight_ m) (heightmaps_ m) v (closures m)
    (geometry_ m) (geometryKey_ m) (image_ m) (loaded m).
Definition set_closures (v : list LoadClosure) (m : Image3D) : Image3D :=
  mkImage3D (element_ m) (imageSrc_ m) (heightSources_ m) (heightmapKeys_ m)
    (maxHeight_ m) (geometryStyle_ m) (transparent_ m) (morphing_ m)
    (morphStartTime_ m) (morphDuration_ m) (morphElapsed_ m)
    (startMorphTargets_ m) (currentMorphTargets_ m) (endMorphTargets_ m)
    (heightmapWidth_ m) (heightmapHeight_ m) (heightmaps_ m) (heightmapData_
    m) v (geometry_ m) (geometryKey_ m) (image_ m) (loaded m).
Definition set_geometry_ (v : option Payload) (m : Image3D) : Image3D :=
  mkImage3D (element_ m) (imageSrc_ m) (heightSources_ m) (heightmapKeys_ m)
    (maxHeight_ m) (geometryStyle_ m) (transparent_ m) (morphing_ m)
    (morphStartTime_ m) (morphDuration_ m) (morphElapsed_ m)
    (startMorphTargets_ m) (currentMorphTargets_ m) (endMorphTargets_ m)
    (heightmapWidth_ m) (heightmapHeight_ m) (heightmaps_ m) (heightmapData_
    m) (closures m) v (geometryKey_ m) (image_ m) (loaded m).
Definition set_geometryKey_ (v : string) (m : Image3D) : Image3D :=
  mkImage3D (element_ m) (imageSrc_ m) (heightSources_ m) (heightmapKeys_ m)
    (maxHeight_ m) (geometryStyle_ m) (transparent_ m) (morphing_ m)
    (morphStartTime_ m) (morphDuration_ m) (morphElapsed_ m)
    (startMorphTargets_ m) (currentMorphTargets_ m) (endMorphTargets_ m)
    (heightmapWidth_ m) (heightmapHeight_ m) (heightmaps_ m) (heightmapData_
    m) (closures m) (geometry_ m) v (image_ m) (loaded m).
Definition set_image_ (v : option nat) (m : Image3D) : Image3D :=
  mkImage3D (element_ m) (imageSrc_ m) (heightSources_ m) (heightmapKeys_ m)
    (maxHeight_ m) (geometryStyle_ m) (transparent_ m) (morphing_ m)
    (morphStartTime_ m) (morphDuration_ m) (morphElapsed_ m)
    (startMorphTargets_ m) (currentMorphTargets_ m) (endMorphTargets_ m)
    (heightmapWidth_ m) (heightmapHeight_ m) (heightmaps_ m) (heightmapData_
    m) (closures m) (geometry_ m) (geometryKey_ m) v (loaded m).
Definition set_loaded (v : bool) (m : Image3D) : Image3D :=
  mkImage3D (element_ m) (imageSrc_ m) (heightSources_ m) (heightmapKeys_ m)
    (maxHeight_ m) (geometryStyle_ m) (transparent_ m) (morphing_ m)
    (morphStartTime_ m) (morphDuration_ m) (morphElapsed_ m)
    (startMorphTargets_ m) (currentMorphTargets_ m) (endMorphTargets_ m)
    (heightmapWidth_ m) (heightmapHeight_ m) (heightmaps_ m) (heightmapData_
    m) (closures m) (geometry_ m) (geometryKey_ m) (image_ m) v.

(** *** The world a method runs in *)

Record World : Type := mkWorld {
  this : Image3D;
  view : View;
  stencilView : option View;
  cache : gmap string CacheEntry;
  images : list ImageObj;
  trace : list Effect
}.
Definition set_this (v : Image3D) (w : World) : World :=
  mkWorld v (view w) (stencilView w) (cache w) (images w) (trace w).
Definition set_view (v : View) (w : World) : World :=
  mkWorld (this w) v (stencilView w) (cache w) (images w) (trace w).
Definition set_stencilView (v : option View) (w : World) : World :=
  mkWorld (this w) (view w) v (cache w) (images w) (trace w).
Definition set_cache (v : gmap string CacheEntry) (w : World) : World :=
  mkWorld (this w) (view w) (stencilView w) v (images w) (trace w).
Definition set_images (v : list ImageObj) (w : World) : World :=
  mkWorld (this w) (view w) (stencilView w) (cache w) v (trace w).
Definition set_trace (v : list Effect) (w : World) : World :=
  mkWorld (this w) (view w) (stencilView w) (cache w) (images w) v.

(** The view a selector names, if the model has it. *)
Definition get_view (which : WhichView) (w : World) : option View :=
  match which with
  | VMain => Some (view w)
  | VStencil => stencilView w
  end.

Definition put_view (which : WhichView) (x : View) (w : World) : World :=
  match which with
  | VMain => set_view x w
  | VStencil => set_stencilView (Some x) w
  end.

(* ================================================================= *)
(** ** Methods as state transformers that may throw *)

Inductive Outcome (A : Type) : Type :=
| Ok (a : A) (w : World)
| Throw (f : Failure) (w : World).
Arguments Ok {A} a w.
Arguments Throw {A} f w.

Definition M (A : Type) : Type := World -> Outcome A.

Definition ret {A} (a : A) : M A := fun w => Ok a w.

Definition bind {A B} (c : M A) (k : A -> M B) : M B :=
  fun w => match c w with
           | Ok a w' => k a w'
           | Throw f w' => Throw f w'
           end.

Definition throw {A} (f : Failure) : M A := fun w => Throw f w.
Definition gets {A} (f : World -> A) : M A := fun w => Ok (f w) w.
Definition modify (f : World -> World) : M unit := fun w => Ok tt (f w).

Definition lift {A} (r : result A) : M A :=
  fun w => match r with Done a => Ok a w | Fail f => Throw f w end.

Declare Scope m_scope.
Delimit Scope m_scope with M.
Notation "'let*' x ':=' c1 'in' c2" := (bind c1 (fun x => c2))
  (at level 10, x pattern, c1 at level 100, c2 at level 200) : m_scope.
Notation "c1 ;; c2" := (bind c1 (fun _ => c2))
  (at level 100, c2 at level 200, right associativity) : m_scope.
Notation "'let+' x ':=' c1 'in' c2" := (rbind c1 (fun x => c2))
  (at level 10, x pattern, c1 at level 100, c2 at level 200) : m_scope.
Bind Scope m_scope with M.
Local Open Scope m_scope.

Definition when (b : bool) (c : M unit) : M unit := if b then c else ret tt.

(** [this.f = v] *)
Definition modify_this (f : Image3D -> Image3D) : M unit :=
  modify (fun w => set_this (f (this w)) w).

Definition emit (e : Effect) : M unit :=
  modify (fun w => set_trace (trace w ++ [e]) w).

(** [this.dispatch(new voodoo.Event(name, this))] *)
Definition dispatch (name : string) : M unit := emit (EDispatch name).

(** Runs [c] for every element, left to right. *)
Fixpoint for_each {A} (l : list A) (c : A -> M unit) : M unit :=
  match l with
  | [] => ret tt
  | x :: l' => c x ;; for_each l' c
  end.

(** Modelled from the spec: [log_.assert_], which is not in the sources.  A
    violated precondition is fatal and aborts the current operation. *)
Definition assert_ (cond : bool) (msg : string) : M unit :=
  if cond then ret tt else throw (AssertFail msg).

Definition rassert (cond : bool) (msg : string) : result unit :=
  if cond then Done tt else Fail (AssertFail msg).

(* ================================================================= *)
(** ** Content cache *)

(** Modelled from the spec: the content cache [this.cache], which is not in
    the sources.  [has] tells whether the key is present. *)
Definition cache_has (key : string) (w : World) : bool :=
  bool_decide (is_Some (cache w !! key)).

(** Modelled from the spec: [cache.get], fails with [NotFound] if absent. *)
Definition cache_get (key : string) : M Payload :=
  fun w => match cache w !! key with
           | Some e => Ok (payload e) w
           | None => Throw (NotFound key) w
           end.

(** Modelled from the spec: [cache.set] inserts with refcount 1 and fails
    with [KeyCollision] if the key is already present. *)
Definition cache_set (key : string) (p : Payload) : M unit :=
  fun w => match cache w !! key with
           | Some _ => Throw (KeyCollision key) w
           | None => Ok tt (set_cache (<[key := mkCacheEntry p 1]> (cache w)) w)
           end.

(** Modelled from the spec: [cache.addRef] increments the refcount and fails
    with [NotFound] if absent. *)
Definition cache_addRef (key : string) : M unit :=
  fun w => match cache w !! key with
           | Some e =>
               Ok tt (set_cache
                        (<[key := mkCacheEntry (payload e) (S (refcount e))]> (cache w)) w)
           | None => Throw (NotFound key) w
           end.

(** Modelled from the spec: [cache.release] decrements the refcount; at 0 it
    removes the entry and disposes a payload that owns external resources.
    It fails with [NotFound] if absent; going below zero is fatal. *)
Definition cache_release (key : string) : M unit :=
  fun w => match cache w !! key with
           | None => Throw (NotFound key) w
           | Some e =>
               match refcount e with
               | 0 => Throw (DoubleRelease key) w
               | 1 =>
                   let w' := set_cache (delete key (cache w)) w in
                   match payload e with
                   | PGeometry _ => emit (EDisposeCached key) w'
                   | PHeightmap _ => Ok tt w'
                   end
               | S n => Ok tt (set_cache (<[key := mkCacheEntry (payload e) n]> (cache w)) w)
               end
           end.

(** An in-place update of a cached heightmap value (the value is a shared
    object). *)
Definition cache_update_heightmap (key : string)
    (f : HeightmapEntry -> HeightmapEntry) (w : World) : World :=
  match cache w !! key with
  | Some (mkCacheEntry (PHeightmap e) n) =>
      set_cache (<[key := mkCacheEntry (PHeightmap (f e)) n]> (cache w)) w
  | _ => w
  end.

(* ================================================================= *)
(** ** Geometry builder *)

(** [data[i]] as a summand: a missing element reads [undefined], which the
    sum turns into [NaN].  A cache value has no indexed elements. *)
Definition data_at (data : HeightData) (i : nat) : JSNum :=
  match data with
  | DPixels bytes =>
      match bytes !! i with
      | Some b => Num.of_Z (Z.of_N (Byte.to_N b))
      | None => NaN
      end
  | DCacheVal _ => NaN
  end.

(** [getDepth_]; its assertion on [data] has been made by every caller. *)
Definition getDepth_ (m : Image3D) (data : HeightData) (i : nat) : JSNum :=
  let r := data_at data i in
  let g := data_at data (i + 1) in
  let b := data_at data (i + 2) in
  let avg := ((r + g + b) / Num.of_Z 3)%num in
  (avg / Num.of_Z 255 * maxHeight_ m)%num.

(** The [verticesOwner] argument: the geometry itself or a morph target. *)
Inductive VerticesOwner : Type :=
| OwnGeometry
| OwnTarget (t : MorphTarget).

(** [verticesOwner.vertices = vs] *)
Definition set_owner_vertices (vs : JSArray Vector3)
    (g : Geometry) (o : VerticesOwner) : Geometry * VerticesOwner :=
  match o with
  | OwnGeometry =>
      (mkGeometry vs (faces g) (faceVertexUvs0 g) (morphTargets g), OwnGeometry)
  | OwnTarget t => (g, OwnTarget (mkMorphTarget (mt_name t) vs))
  end.

Definition set_faces (fs : JSArray Face3) (uvs : JSArray FaceUvs)
    (g : Geometry) : Geometry :=
  mkGeometry (vertices g) fs uvs (morphTargets g).

Definition set_vertices (vs : JSArray Vector3) (g : Geometry) : Geometry :=
  mkGeometry vs (faces g) (faceVertexUvs0 g) (morphTargets g).

(** *** Smooth style *)

(** The vertex loop of [createSmoothGeometry_]; the state is
    [(vertices, pixelIndex, vertexIndex)]. *)
Definition smooth_vertex_loop (m : Image3D) (data : HeightData)
    (width height : nat) (invWidthMinusOne invHeightMinusOne : JSNum)
    (vertices0 : JSArray Vector3) : JSArray Vector3 * nat * nat :=
  for_range height (fun y st =>
    for_range width (fun x '(vertices, pixelIndex, vertexIndex) =>
      let depth := getDepth_ m data pixelIndex in
      (arr_set vertexIndex
         (V3 (Num.of_nat x * invWidthMinusOne)
             (Num.of_nat y * invHeightMinusOne)
             depth) vertices,
       pixelIndex + 4, vertexIndex + 1)) st)
    (vertices0, 0, 0).

(** Loop state of the index loop: the two arrays, [faceIdx], [uvIdx], [yi]
    and [yi2]. *)
Record SmoothFaces : Type := mkSmoothFaces {
  sf_faces : JSArray Face3;
  sf_uvs : JSArray FaceUvs;
  sf_faceIdx : nat;
  sf_uvIdx : nat;
  sf_yi : nat;
  sf_yi2 : nat
}.

Definition smooth_face_cell (invWidthMinusOne invHeightMinusOne : JSNum)
    (y x : nat) (s : SmoothFaces) : SmoothFaces :=
  let x2 := x + 1 in
  let yi := sf_yi s in
  let yi2 := sf_yi2 s in
  let faceIdx := sf_faceIdx s in
  let uvIdx := sf_uvIdx s in
  let u1 := (Num.of_nat x * invWidthMinusOne)%num in
  let u2 := (Num.of_nat x2 * invWidthMinusOne)%num in
  let v1 := (Num.of_nat y * invHeightMinusOne)%num in
  let v2 := (Num.of_nat (y + 1) * invHeightMinusOne)%num in
  mkSmoothFaces
    (arr_set (faceIdx + 1) (F3 (yi + x) (yi2 + x2) (yi2 + x))
       (arr_set faceIdx (F3 (yi + x) (yi + x2) (yi2 + x2)) (sf_faces s)))
    (arr_set (uvIdx + 1) (V2 u1 v1, V2 u2 v2, V2 u1 v2)
       (arr_set uvIdx (V2 u1 v1, V2 u2 v1, V2 u2 v2) (sf_uvs s)))
    (faceIdx + 2) (uvIdx + 2) yi yi2.

Definition smooth_face_loop (width height : nat)
    (invWidthMinusOne invHeightMinusOne : JSNum)
    (faces0 : JSArray Face3) (uvs0 : JSArray FaceUvs) : SmoothFaces :=
  for_range (height - 1) (fun y s =>
    let s' := for_range (width - 1)
                (smooth_face_cell invWidthMinusOne invHeightMinusOne y) s in
    mkSmoothFaces (sf_faces s') (sf_uvs s') (sf_faceIdx s') (sf_uvIdx s')
      (sf_yi s' + width) (sf_yi2 s' + width))
    (mkSmoothFaces faces0 uvs0 0 0 0 width).

(** [createSmoothGeometry_].  With an undefined width or height the vertex
    count is [NaN] and [new Array] throws. *)
Definition createSmoothGeometry_ (m : Image3D) (geometry : Geometry)
    (verticesOwner : VerticesOwner) (data : option HeightData)
    (createFaces : bool) : result (Geometry * VerticesOwner) :=
  match data with
  | None => Fail (AssertFail "data must be valid.")
  | Some data =>
      match heightmapWidth_ m, heightmapHeight_ m with
      | Some width, Some height =>
          let invWidthMinusOne := (Num.one / Num.of_Z (Z.of_nat width - 1))%num in
          let invHeightMinusOne := (Num.one / Num.of_Z (Z.of_nat height - 1))%num in
          let numVertices := (Z.of_nat width * Z.of_nat height)%Z in
          let+ vertices0 := new_Array numVertices in
          let '(vertices, _, _) :=
            smooth_vertex_loop m data width height
              invWidthMinusOne invHeightMinusOne vertices0 in
          let '(geometry, verticesOwner) :=
            set_owner_vertices vertices geometry verticesOwner in
          if createFaces then
            let numFaces :=
              ((Z.of_nat width - 1) * (Z.of_nat height - 1) * 2)%Z in
            let+ faces0 := new_Array numFaces in
            let+ uvs0 := new_Array numFaces in
            let s := smooth_face_loop width height
                       invWidthMinusOne invHeightMinusOne faces0 uvs0 in
            Done (set_faces (sf_faces s) (sf_uvs s) geometry, verticesOwner)
          else Done (geometry, verticesOwner)
      | _, _ => Fail RangeError
      end
  end.

(** *** Block style *)

(** [this.image_.width] and [this.image_.height]; [None] when [this.image_]
    is not an object. *)
Definition texture_size (m : Image3D) (imgs : list ImageObj) : option (nat * nat) :=
  match image_ m with
  | Some id =>
      match imgs !! id with
      | Some img => Some (img_width img, img_height img)
      | None => None
      end
  | None => None
  end.

(** The precalculated [depths] table.  Each [line] is filled in index order,
    so it has no holes and is built here by appending; the state carries the
    running pixel index [i]. *)
Definition block_depths (m : Image3D) (data : HeightData)
    (width height : nat) : list (list JSNum) :=
  fst (for_range height (fun y '(depths, i) =>
         let '(line, i') :=
           for_range width (fun x '(line, i) =>
             (line ++ [getDepth_ m data i], i + 4)) ([], i) in
         (depths ++ [line], i'))
       ([], 0)).

(** [depths[y][x]] *)
Definition depth_read (depths : list (list JSNum)) (y x : nat) : JSNum :=
  match depths !! y with
  | Some line => match line !! x with Some d => d | None => NaN end
  | None => NaN
  end.

(** Loop state of the column loop. *)
Record BlockState : Type := mkBlockState {
  bs_vertices : JSArray Vector3;
  bs_faces : JSArray Face3;
  bs_uvs : JSArray FaceUvs;
  bs_v : nat;
  bs_faceIdx : nat;
  bs_uvIdx : nat;
  bs_vertexIdx : nat
}.

(** [vertices[vertexIdx++] = a; vertices[vertexIdx++] = b] *)
Definition block_push_vertices (vs : list Vector3) (s : BlockState) : BlockState :=
  foldl (fun s p =>
           mkBlockState (arr_set (bs_vertexIdx s) p (bs_vertices s))
             (bs_faces s) (bs_uvs s) (bs_v s) (bs_faceIdx s) (bs_uvIdx s)
             (bs_vertexIdx s + 1)) s vs.

(** Two faces and their UVs: [geometryFaces[faceIdx++] = ...] twice and
    [geometryFaceVertexUvs[uvIdx++] = ...] twice. *)
Definition block_push_faces (f1 f2 : Face3) (t1 t2 : FaceUvs)
    (s : BlockState) : BlockState :=
  mkBlockState (bs_vertices s)
    (arr_set (bs_faceIdx s + 1) f2 (arr_set (bs_faceIdx s) f1 (bs_faces s)))
    (arr_set (bs_uvIdx s + 1) t2 (arr_set (bs_uvIdx s) t1 (bs_uvs s)))
    (bs_v s) (bs_faceIdx s + 2) (bs_uvIdx s + 2) (bs_vertexIdx s).

(** [v += n] *)
Definition block_add_v (n : nat) (s : BlockState) : BlockState :=
  mkBlockState (bs_vertices s) (bs_faces s) (bs_uvs s) (bs_v s + n)
    (bs_faceIdx s) (bs_uvIdx s) (bs_vertexIdx s).

(** One side of a column: emitted only when [depth > neighbour]. *)
Definition block_side (createFaces : bool) (depth neighbour : JSNum)
    (p1 p2 : Vector3) (mk_faces : nat -> Face3 * Face3) (t1 t2 : FaceUvs)
    (s : BlockState) : BlockState :=
  if (depth >? neighbour)%num then
    let s := block_push_vertices [p1; p2] s in
    if createFaces then
      let '(f1, f2) := mk_faces (bs_v s) in
      block_add_v 2 (block_push_faces f1 f2 t1 t2 s)
    else s
  else s.

(** The body of the column loop for texel [(x, y)]. *)
Definition block_column (createFaces : bool) (depths : list (list JSNum))
    (width height : nat) (invWidth invHeight : JSNum)
    (widthRatio heightRatio invTextureWidth invTextureHeight : JSNum)
    (y x : nat) (s : BlockState) : BlockState :=
  let depth := depth_read depths y x in
  let depthLeft := if 0 <? x then depth_read depths y (x - 1) else Num.zero in
  let depthTop := if 0 <? y then depth_read depths (y - 1) x else Num.zero in
  let depthRight :=
    if x <? width - 1 then depth_read depths y (x + 1) else Num.zero in
  let depthBottom :=
    if y <? height - 1 then depth_read depths (y + 1) x else Num.zero in
  let x1 := (Num.of_nat x * invWidth)%num in
  let x2 := (Num.of_nat (x + 1) * invWidth)%num in
  let y1 := (Num.of_nat y * invHeight)%num in
  let y2 := (Num.of_nat (y + 1) * invHeight)%num in
  let xr := (Num.of_nat x * widthRatio)%num in
  let yr := (Num.of_nat y * heightRatio)%num in
  let u1 := ((xr + Num.half) * invTextureWidth)%num in
  let u2 := ((xr + widthRatio - Num.half) * invTextureWidth)%num in
  let v1 := ((yr + Num.half) * invTextureHeight)%num in
  let v2 := ((yr + heightRatio - Num.half) * invTextureHeight)%num in
  (* Front *)
  let j := bs_v s in
  let s := block_push_vertices
             [V3 x1 y1 depth; V3 x2 y1 depth; V3 x2 y2 depth; V3 x1 y2 depth] s in
  let s :=
    if createFaces then
      block_push_faces (F3 j (j + 1) (j + 2)) (F3 j (j + 2) (j + 3))
        (V2 u1 v1, V2 u2 v1, V2 u2 v2) (V2 u1 v1, V2 u2 v2, V2 u1 v2)
        (block_add_v 4 s)
    else s in
  (* Left *)
  let s := block_side createFaces depth depthLeft
             (V3 x1 y1 depthLeft) (V3 x1 y2 depthLeft)
             (fun v => (F3 j (j + 3) (v + 1), F3 j (v + 1) v))
             (V2 u1 v1, V2 u1 v2, V2 u1 v2) (V2 u1 v1, V2 u1 v2, V2 u1 v1) s in
  (* Right *)
  let s := block_side createFaces depth depthRight
             (V3 x2 y1 depthRight) (V3 x2 y2 depthRight)
             (fun v => (F3 (j + 2) (j + 1) (v + 0), F3 (j + 2) (v + 0) (v + 1)))
             (V2 u2 v2, V2 u2 v1, V2 u2 v1) (V2 u2 v2, V2 u2 v1, V2 u2 v2) s in
  (* Top *)
  let s := block_side createFaces depth depthTop
             (V3 x1 y1 depthTop) (V3 x2 y1 depthTop)
             (fun v => (F3 (j + 1) j v, F3 (j + 1) v (v + 1)))
             (V2 u2 v1, V2 u1 v1, V2 u1 v1) (V2 u2 v1, V2 u1 v1, V2 u2 v1) s in
  (* Bottom *)
  block_side createFaces depth depthBottom
    (V3 x1 y2 depthBottom) (V3 x2 y2 depthBottom)
    (fun v => (F3 (j + 3) (j + 2) (v + 1), F3 (j + 3) (v + 1) v))
    (V2 u1 v2, V2 u2 v2, V2 u2 v2) (V2 u1 v2, V2 u2 v2, V2 u1 v2) s.

(** [createBlockGeometry_].  The vertex array is always stored in
    [geometry.vertices], whatever [verticesOwner] is. *)
Definition createBlockGeometry_ (m : Image3D) (imgs : list ImageObj)
    (geometry : Geometry) (verticesOwner : VerticesOwner)
    (data : option HeightData) (createFaces : bool)
    : result (Geometry * VerticesOwner) :=
  match data with
  | None => Fail (AssertFail "data must be valid.")
  | Some data =>
      match texture_size m imgs with
      | None => Fail TypeError
      | Some (textureImageWidth, textureImageHeight) =>
          match heightmapWidth_ m, heightmapHeight_ m with
          | Some width, Some height =>
              let invWidth := (Num.one / Num.of_nat width)%num in
              let invHeight := (Num.one / Num.of_nat height)%num in
              let widthRatio :=
                (Num.of_nat textureImageWidth / Num.of_nat width)%num in
              let heightRatio :=
                (Num.of_nat textureImageHeight / Num.of_nat height)%num in
              let invTextureWidth := (Num.one / Num.of_nat textureImageWidth)%num in
              let invTextureHeight := (Num.one / Num.of_nat textureImageHeight)%num in
              let depths := block_depths m data width height in
              let+ geometry :=
                if createFaces then
                  let numFaces := (Z.of_nat width * Z.of_nat height * 10)%Z in
                  let+ faces0 := new_Array numFaces in
                  let+ uvs0 := new_Array numFaces in
                  Done (set_faces faces0 uvs0 geometry)
                else Done geometry in
              let numVertices := (Z.of_nat width * Z.of_nat height * 12)%Z in
              let+ vertices0 := new_Array numVertices in
              let s :=
                for_range height (fun y s =>
                  for_range width
                    (block_column createFaces depths width height
                       invWidth invHeight widthRatio heightRatio
                       invTextureWidth invTextureHeight y) s)
                  (mkBlockState vertices0 (faces geometry)
                     (faceVertexUvs0 geometry) 0 0 0 0) in
              let vertices := arr_set_length (bs_vertexIdx s) (bs_vertices s) in
              let geometry := set_vertices vertices geometry in
              if createFaces then
                Done (set_faces (arr_set_length (bs_faceIdx s) (bs_faces s))
                        (arr_set_length (bs_uvIdx s) (bs_uvs s)) geometry,
                      verticesOwner)
              else Done (geometry, verticesOwner)
          | _, _ => Fail RangeError
          end
      end
  end.

(** *** Float style *)

(** The vertex loop of [createFloatGeometry_]; the state is
    [(vertices, i, vertexIdx)]. *)
Definition float_vertex_loop (m : Image3D) (data : HeightData)
    (width height : nat) (invWidth invHeight : JSNum)
    (vertices0 : JSArray Vector3) : JSArray Vector3 * nat * nat :=
  for_range height (fun y st =>
    for_range width (fun x '(vertices, i, vertexIdx) =>
      let depth := getDepth_ m data i in
      let x1 := (Num.of_nat x * invWidth)%num in
      let x2 := (Num.of_nat (x + 1) * invWidth)%num in
      let y1 := (Num.of_nat y * invHeight)%num in
      let y2 := (Num.of_nat (y + 1) * invHeight)%num in
      (arr_set (vertexIdx + 3) (V3 x1 y2 depth)
         (arr_set (vertexIdx + 2) (V3 x2 y2 depth)
            (arr_set (vertexIdx + 1) (V3 x2 y1 depth)
               (arr_set vertexIdx (V3 x1 y1 depth) vertices))),
       i + 4, vertexIdx + 4)) st)
    (vertices0, 0, 0).

(** The face loop of [createFloatGeometry_]; the state is
    [(faces, uvs, i, faceIdx, uvIdx)]. *)
Definition float_face_loop (width height : nat)
    (widthRatio heightRatio invTextureWidth invTextureHeight : JSNum)
    (faces0 : JSArray Face3) (uvs0 : JSArray FaceUvs)
    : JSArray Face3 * JSArray FaceUvs * nat * nat * nat :=
  for_range height (fun y st =>
    for_range width (fun x '(faces, uvs, i, faceIdx, uvIdx) =>
      let xr := (Num.of_nat x * widthRatio)%num in
      let yr := (Num.of_nat y * heightRatio)%num in
      let u1 := ((xr + Num.half) * invTextureWidth)%num in
      let u2 := ((xr + widthRatio - Num.half) * invTextureWidth)%num in
      let v1 := ((yr + Num.half) * invTextureHeight)%num in
      let v2 := ((yr + heightRatio - Num.half) * invTextureHeight)%num in
      (arr_set (faceIdx + 1) (F3 i (i + 2) (i + 3))
         (arr_set faceIdx (F3 i (i + 1) (i + 2)) faces),
       arr_set (uvIdx + 1) (V2 u1 v1, V2 u2 v2, V2 u1 v2)
         (arr_set uvIdx (V2 u1 v1, V2 u2 v1, V2 u2 v2) uvs),
       i + 4, faceIdx + 2, uvIdx + 2)) st)
    (faces0, uvs0, 0, 0, 0).

(** [createFloatGeometry_] *)
Definition createFloatGeometry_ (m : Image3D) (imgs : list ImageObj)
    (geometry : Geometry) (verticesOwner : VerticesOwner)
    (data : option HeightData) (createFaces : bool)
    : result (Geometry * VerticesOwner) :=
  match data with
  | None => Fail (AssertFail "data must be valid.")
  | Some data =>
      match texture_size m imgs with
      | None => Fail TypeError
      | Some (textureImageWidth, textureImageHeight) =>
          match heightmapWidth_ m, heightmapHeight_ m with
          | Some width, Some height =>
              let invWidth := (Num.one / Num.of_nat width)%num in
              let invHeight := (Num.one / Num.of_nat height)%num in
              let widthRatio :=
                (Num.of_nat textureImageWidth / Num.of_nat width)%num in
              let heightRatio :=
                (Num.of_nat textureImageHeight / Num.of_nat height)%num in
              let invTextureWidth := (Num.one / Num.of_nat textureImageWidth)%num in
              let invTextureHeight := (Num.one / Num.of_nat textureImageHeight)%num in
              let numVertices := (Z.of_nat width * Z.of_nat height * 4)%Z in
              let+ vertices0 := new_Array numVertices in
              let '(vertices, _, _) :=
                float_vertex_loop m data width height invWidth invHeight vertices0 in
              let '(geometry, verticesOwner) :=
                set_owner_vertices vertices geometry verticesOwner in
              if createFaces then
                let numFaces := (Z.of_nat width * Z.of_nat height * 2)%Z in
                let+ faces0 := new_Array numFaces in
                let+ uvs0 := new_Array numFaces in
                let '(faces, uvs, _, _, _) :=
                  float_face_loop width height widthRatio heightRatio
                    invTextureWidth invTextureHeight faces0 uvs0 in
                Done (set_faces faces uvs geometry, verticesOwner)
              else Done (geometry, verticesOwner)
          | _, _ => Fail RangeError
          end
      end
  end.

(** *** Dispatch on the style *)

(** [Image3D.GeometryStyle] *)
Definition GeometryStyle_Smooth : string := "smooth".
Definition GeometryStyle_Block : string := "block".
Definition GeometryStyle_Float : string := "float".

(** [createHeightmapGeometry_]; the [switch] has no default case. *)
Definition createHeightmapGeometry_ (m : Image3D) (imgs : list ImageObj)
    (data : option HeightData) (geometry : Geometry)
    (verticesOwner : VerticesOwner) (createFaces : bool)
    : result (Geometry * VerticesOwner) :=
  let+ _ := rassert (bool_decide (is_Some data)) "data must be valid." in
  if String.eqb (geometryStyle_ m) GeometryStyle_Smooth then
    createSmoothGeometry_ m geometry verticesOwner data createFaces
  else if String.eqb (geometryStyle_ m) GeometryStyle_Block then
    createBlockGeometry_ m imgs geometry verticesOwner data createFaces
  else if String.eqb (geometryStyle_ m) GeometryStyle_Float then
    createFloatGeometry_ m imgs geometry verticesOwner data createFaces
  else Done (geometry, verticesOwner).

(** [computeNormals_] hands the geometry to THREE, which computes normals
    and leaves vertices, faces, UVs and morph-target vertices as they are. *)
Definition computeNormals_ (geometry : Geometry) : Geometry := geometry.

(* ================================================================= *)
(** ** The views *)

Definition modify_view (which : WhichView) (f : View -> View) : M unit :=
  modify (fun w => match get_view which w with
                   | Some x => put_view which (f x) w
                   | None => w
                   end).

(** Reads a field of the view. *)
Definition view_field {A} (which : WhichView) (f : View -> A) : M A :=
  fun w => match get_view which w with
           | Some x => Ok (f x) w
           | None => Throw TypeError w
           end.

(** [Image3DView_.createGeometry_].  The new [THREE.Geometry] shares the
    arrays of the model's geometry, so as a value it is that geometry; a
    cache value that is no geometry has none of the fields copied. *)
Definition view_createGeometry_ (which : WhichView) : M Payload :=
  let* modelGeometry := gets (fun w => geometry_ (this w)) in
  match modelGeometry with
  | None => throw (AssertFail "modelGeometry must be valid.")
  | Some modelGeometry =>
      let* geometryKey := gets (fun w => geometryKey_ (this w)) in
      let* present := gets (cache_has geometryKey) in
      if present then
        modify_view which (set_vgeometryKey_ (Some geometryKey)) ;;
        cache_addRef geometryKey ;;
        cache_get geometryKey
      else
        let geometry :=
          match modelGeometry with
          | PGeometry g => PGeometry g
          | PHeightmap _ => PGeometry new_Geometry
          end in
        cache_set geometryKey geometry ;;
        modify_view which (set_vgeometryKey_ (Some geometryKey)) ;;
        ret geometry
  end.

(** [Image3DView_.createMesh_] (with [createMaterial_]) *)
Definition view_createMesh_ (which : WhichView) : M unit :=
  let* texture := view_field which texture_ in
  match texture with
  | None => ret tt
  | Some _ =>
      let* geometry := view_createGeometry_ which in
      modify_view which (set_vgeometry_ (Some geometry)) ;;
      let* transparent := gets (fun w => transparent_ (this w)) in
      modify_view which (set_material_ (Some (mkMaterial transparent))) ;;
      let* influences := gets (fun w => currentMorphTargets_ (this w)) in
      modify_view which (set_mesh_ (Some (mkMesh geometry influences))) ;;
      emit (ESceneAdd which) ;;
      modify_view which (set_vloaded true)
  end.

(** [Image3DView_.destroyMesh_] *)
Definition view_destroyMesh_ (which : WhichView) : M unit :=
  let* mesh := view_field which mesh_ in
  when (bool_decide (is_Some mesh))
    (emit (ESceneRemove which) ;;
     modify_view which (set_mesh_ None)) ;;
  let* geometry := view_field which vgeometry_ in
  when (bool_decide (is_Some geometry))
    (let* key := view_field which vgeometryKey_ in
     cache_release (default "null" key) ;;
     modify_view which (set_vgeometryKey_ None) ;;
     emit EDisposeGeometry ;;
     modify_view which (set_vgeometry_ None)) ;;
  let* material := view_field which material_ in
  when (bool_decide (is_Some material))
    (emit (EDisposeMaterial which) ;;
     modify_view which (set_material_ None)).

(** [Image3DView_.rebuildMesh_] *)
Definition view_rebuildMesh_ (which : WhichView) : M unit :=
  let* mesh := view_field which mesh_ in
  when (bool_decide (is_Some mesh)) (view_destroyMesh_ which) ;;
  view_createMesh_ which.

(** [Image3DView_.setMorphTargetInfluences_] *)
Definition view_setMorphTargetInfluences_ (which : WhichView)
    (influences : JSArray JSNum) : M unit :=
  let* mesh := view_field which mesh_ in
  match mesh with
  | Some mesh =>
      modify_view which (set_mesh_ (Some (mkMesh (mesh_geometry mesh) influences))) ;;
      emit (EDirty which)
  | None => ret tt
  end.

(** [Image3DView_.setImage_] *)
Definition view_setImage_ (which : WhichView) (image : option nat)
    (imageSrc : option string) : M unit :=
  match image with
  | None => throw (AssertFail "image must be valid.")
  | Some image =>
      assert_ (bool_decide (imageSrc ≠ None ∧ imageSrc ≠ Some EmptyString))
        "imageSrc must be valid." ;;
      modify_view which (set_texture_ (Some (mkTexture image (default EmptyString imageSrc)))) ;;
      view_rebuildMesh_ which
  end.

(** [Image3DView_.setTransparent_]: the mesh's material is [material_]. *)
Definition view_setTransparent_ (which : WhichView) (transparent : bool) : M unit :=
  let* mesh := view_field which mesh_ in
  when (bool_decide (is_Some mesh))
    (modify_view which (set_material_ (Some (mkMaterial transparent)))).

(** [this.view.f(...); if (this.stencilView) this.stencilView.f(...);] *)
Definition on_views (f : WhichView -> M unit) : M unit :=
  f VMain ;;
  let* stencil := gets stencilView in
  when (bool_decide (is_Some stencil)) (f VStencil).

(* ================================================================= *)
(** ** The model *)

(** [s.toLowerCase()] on ASCII letters. *)
Definition lower_ascii (c : Ascii.ascii) : Ascii.ascii :=
  let n := Ascii.nat_of_ascii c in
  if (65 <=? n) && (n <=? 90) then Ascii.ascii_of_nat (n + 32) else c.

Fixpoint toLowerCase (s : string) : string :=
  match s with
  | EmptyString => EmptyString
  | String c s' => String (lower_ascii c) (toLowerCase s')
  end.

(** A string spliced into a larger one: [null] and [undefined] print as
    their names. *)
Definition str_or (name : string) (o : option string) : string := default name o.

(** [[0, 0, 0, 0]] and [[1, 0, 0, 0]] *)
Definition zeros4 : JSArray JSNum := arr_of (replicate 4 Num.zero).
Definition initial_targets : JSArray JSNum :=
  arr_of [Num.one; Num.zero; Num.zero; Num.zero].

(** The options object of the constructor. *)
Record Options : Type := mkOptions {
  opt_element : Element;
  opt_imageSrc : option string;
  opt_heightmap : option string;
  opt_heightmap2 : option string;
  opt_heightmap3 : option string;
  opt_heightmap4 : option string;
  opt_maxHeight : option JSNum;
  opt_geometryStyle : option string;
  opt_transparent : option bool
}.

Section Model.

(** [getAbsoluteUrl_] is defined elsewhere in the library, and the
    conversion of a number to a string belongs to the language. *)
Variable getAbsoluteUrl_ : string -> string.
Variable numToString : JSNum -> string.

(** *** Construction *)

(** [initialize]: the fields of a new model, from its options.  The fields
    the constructor leaves undefined start as [None], as empty arrays
    ([heightmaps_], [heightmapData_], set up by [loadHeightmaps_]) and as the
    empty string ([geometryKey_]). *)
Definition initialize (options : Options) : result Image3D :=
  let imageSrc :=
    match opt_imageSrc options with
    | Some src => if String.eqb src EmptyString then getAbsoluteUrl_ (el_src (opt_element options))
                  else getAbsoluteUrl_ src
    | None => getAbsoluteUrl_ (el_src (opt_element options))
    end in
  let source (o : option string) : string :=
    match o with
    | Some src => if String.eqb src EmptyString then EmptyString else getAbsoluteUrl_ src
    | None => EmptyString
    end in
  let heightSources :=
    arr_of [source (opt_heightmap options); source (opt_heightmap2 options);
            source (opt_heightmap3 options); source (opt_heightmap4 options)] in
  let+ _ := rassert (bool_decide (opt_heightmap options ≠ None ∧
                                  opt_heightmap options ≠ Some EmptyString))
              "heightmap must be valid." in
  let+ maxHeight :=
    match opt_maxHeight options with
    | Some maxHeight =>
        let+ _ := rassert (Num.ge maxHeight Num.zero) "maxHeight must be >= 0." in
        Done maxHeight
    | None => Done (Num.of_Z 200)
    end in
  let geometryStyle :=
    match opt_geometryStyle options with
    | Some style => if String.eqb style EmptyString then GeometryStyle_Smooth else style
    | None => GeometryStyle_Smooth
    end in
  Done (mkImage3D (opt_element options) (Some imageSrc) heightSources
          (arr_of [EmptyString; EmptyString; EmptyString; EmptyString]) maxHeight geometryStyle
          (default true (opt_transparent options))
          false Num.zero Num.zero Num.zero
          initial_targets initial_targets initial_targets
          None None [] [] [] None EmptyString None false).

(** *** Geometry of the model *)

(** The key [createGeometry_] builds. *)
Definition geometry_key (m : Image3D) : string :=
  "imageSrc: " ++ str_or "null" (imageSrc_ m) ++ ", " ++
  "heightSrc1: " ++ str_or "undefined" (arr_get 0 (heightSources_ m)) ++ ", " ++
  "heightSrc2: " ++ str_or "undefined" (arr_get 1 (heightSources_ m)) ++ ", " ++
  "heightSrc3: " ++ str_or "undefined" (arr_get 2 (heightSources_ m)) ++ ", " ++
  "heightSrc4: " ++ str_or "undefined" (arr_get 3 (heightSources_ m)) ++ ", " ++
  "maxHeight: " ++ numToString (maxHeight_ m) ++ ", " ++
  "geometryStyle: " ++ geometryStyle_ m ++
  " (geometry)".

(** The number of [i < 4] with [this.heightmaps_[i]] set. *)
Definition numValidHeightmaps (m : Image3D) : nat :=
  length (filter (fun i => is_Some (arr_get i (heightmaps_ m))) (seq 0 4)).

(** One round of the morph-target loop of [createGeometry_]. *)
Definition add_morph_target (m : Image3D) (imgs : list ImageObj)
    (i : nat) (geometry : Geometry) : result Geometry :=
  let morphTarget := mkMorphTarget ("target" ++ pretty i) [] in
  let+ (geometry, morphTarget) :=
    if bool_decide (arr_get i (heightmaps_ m) = None) || (i =? 0) then
      Done (geometry, mkMorphTarget (mt_name morphTarget) (vertices geometry))
    else
      let+ (geometry, owner) :=
        createHeightmapGeometry_ m imgs (arr_get i (heightmapData_ m))
          geometry (OwnTarget morphTarget) false in
      match owner with
      | OwnTarget t => Done (geometry, t)
      | OwnGeometry => Done (geometry, morphTarget)
      end in
  Done (mkGeometry (vertices geometry) (faces geometry)
          (faceVertexUvs0 geometry) (morphTargets geometry ++ [morphTarget])).

(** The part of [createGeometry_] that builds a new geometry. *)
Definition build_geometry (m : Image3D) (imgs : list ImageObj) : result Geometry :=
  let geometry := new_Geometry in
  let+ (geometry, _) :=
    createHeightmapGeometry_ m imgs (arr_get 0 (heightmapData_ m))
      geometry OwnGeometry true in
  let+ _ :=
    rassert ((numValidHeightmaps m <=? 1) ||
             negb (String.eqb (geometryStyle_ m) GeometryStyle_Block))
      "Block geometry does not support multiple heightmaps." in
  let+ geometry :=
    foldl (fun r i => let+ g := r in add_morph_target m imgs i g)
      (Done geometry) (seq 0 4) in
  Done (computeNormals_ geometry).

(** [createGeometry_] *)
Definition createGeometry_ : M unit :=
  let* key := gets (fun w => geometry_key (this w)) in
  modify_this (set_geometryKey_ key) ;;
  let* present := gets (cache_has key) in
  if present then
    cache_addRef key ;;
    let* geometry := cache_get key in
    modify_this (set_geometry_ (Some geometry))
  else
    let* m := gets this in
    let* imgs := gets images in
    let* geometry := lift (build_geometry m imgs) in
    modify_this (set_geometry_ (Some (PGeometry geometry))) ;;
    cache_set key (PGeometry geometry).

(** [destroyGeometry_] *)
Definition destroyGeometry_ : M unit :=
  let* geometry := gets (fun w => geometry_ (this w)) in
  when (bool_decide (is_Some geometry))
    (let* key := gets (fun w => geometryKey_ (this w)) in
     cache_release key ;;
     modify_this (set_geometryKey_ EmptyString) ;;
     emit EDisposeGeometry ;;
     modify_this (set_geometry_ None)).

(** [rebuildGeometry_] *)
Definition rebuildGeometry_ : M unit :=
  let* image := gets (fun w => image_ (this w)) in
  match image with
  | None => ret tt
  | Some _ =>
      destroyGeometry_ ;;
      createGeometry_ ;;
      on_views view_rebuildMesh_
  end.

(** *** Loading heightmaps *)

(** [freeHeightmap_] *)
Definition freeHeightmap_ (index : nat) : M unit :=
  assert_ (index <? 4) "index must be between 0 and 3." ;;
  let* key := gets (fun w => str_or "undefined" (arr_get index (heightmapKeys_ (this w)))) in
  when (negb (String.eqb key EmptyString))
    (cache_release key ;;
     modify_this (fun m => set_heightmapKeys_ (arr_set index EmptyString (heightmapKeys_ m)) m)).

(** [heightmap.width] and [heightmap.height] of what
    [this.heightmaps_[index]] refers to: undefined on a cache value, a
    [TypeError] when the slot itself is undefined. *)
Definition heightmap_size (index : nat) : M (option nat * option nat) :=
  let* ref := gets (fun w => arr_get index (heightmaps_ (this w))) in
  match ref with
  | None => throw TypeError
  | Some (HCacheVal _) => ret (None, None)
  | Some (HImage id) =>
      let* img := gets (fun w => images w !! id) in
      match img with
      | Some img => ret (Some (img_width img), Some (img_height img))
      | None => throw TypeError
      end
  end.

(** [setUpViews]'s callback: [src = imageSrc_; imageSrc_ = null;
    setImageSrc(src)], given [setImageSrc]. *)
Definition run_completion (setImageSrc : string -> M unit) (k : Completion) : M unit :=
  match k with
  | KSetUpViews =>
      let* src := gets (fun w => imageSrc_ (this w)) in
      modify_this (set_imageSrc_ None) ;;
      match src with
      | Some src => setImageSrc src
      | None => throw (AssertFail "imageSrc must be valid.")
      end
  end.

(** [setImageSrc] *)
Definition setImageSrc (imageSrc : string) : M unit :=
  assert_ (negb (String.eqb imageSrc EmptyString)) "imageSrc must be valid." ;;
  let imageSrc := getAbsoluteUrl_ imageSrc in
  let* current := gets (fun w => imageSrc_ (this w)) in
  if bool_decide (current = Some imageSrc) then ret tt
  else
    let initialized := bool_decide (is_Some current) in
    modify_this (set_imageSrc_ (Some imageSrc)) ;;
    let* element := gets (fun w => element_ (this w)) in
    when (String.eqb (toLowerCase (tagName element)) "img")
      (modify_this (set_element_ (mkElement (tagName element) imageSrc))) ;;
    when initialized (dispatch "changeImageSrc") ;;
    let* id := gets (fun w => length (images w)) in
    modify (fun w => set_images (images w ++ [mkImageObj imageSrc 0 0 [] [LTextureLoad]]) w) ;;
    modify_this (set_image_ (Some id)) ;;
    emit (EStartDecode id imageSrc).

(** [onLoad] of [loadHeightmaps_], bound to [index]; [closure] holds its
    [numLoaded], [numToLoad] and [callback]. *)
Definition loadHeightmaps_onLoad (closure index : nat) : M unit :=
  let* (width, height) := heightmap_size index in
  let* env := gets (fun w => closures (this w) !! closure) in
  match env with
  | None => throw TypeError
  | Some env =>
      (if numLoaded env =? 0 then
         modify_this (fun m => set_heightmapHeight_ height (set_heightmapWidth_ width m))
       else
         let* m := gets this in
         assert_ (bool_decide (heightmapWidth_ m = width) &&
                  bool_decide (heightmapHeight_ m = height))
           "All heightmaps must be the same size.") ;;
      let env := mkLoadClosure (numLoaded env + 1) (numToLoad env) (onComplete env) in
      modify_this (fun m => set_closures (<[closure := env]> (closures m)) m) ;;
      when (numLoaded env =? numToLoad env)
        (run_completion setImageSrc (onComplete env))
  end.

(** Calling a [callback] handed to [loadHeightmap_]. *)
Definition run_callback (callback : Callback) : M unit :=
  match callback with
  | CbHeightmapsOnLoad closure index => loadHeightmaps_onLoad closure index
  | CbRebuildGeometry => rebuildGeometry_
  end.

(** Calling a notifier with the decoded data. *)
Definition run_notifier (data : list Byte.byte) (n : Notifier) : M unit :=
  match n with
  | NThis index callback =>
      modify_this (fun m =>
        set_heightmapData_ (arr_set index (DPixels data) (heightmapData_ m)) m) ;;
      run_callback callback
  | NForeign owner => emit (ENotifyForeign owner)
  end.

(** [onLoad] of [loadHeightmap_], bound to [index] and [heightmapKey]: the
    handler of the image's load event.  The canvas reads the pixels of the
    image [this.heightmaps_[index]] refers to at that time. *)
Definition loadHeightmap_onLoad (index : nat) (heightmapKey : string)
    (callback : Callback) : M unit :=
  let* ref := gets (fun w => arr_get index (heightmaps_ (this w))) in
  match ref with
  | Some (HImage id) =>
      let* img := gets (fun w => images w !! id) in
      match img with
      | None => throw TypeError
      | Some img =>
          (* [getImageData] of an empty rectangle throws *)
          (if (0 <? img_width img) && (0 <? img_height img) then ret tt
           else throw IndexSizeError) ;;
          let heightmapData := img_pixels img in
          modify_this (fun m =>
            set_heightmapData_ (arr_set index (DPixels heightmapData) (heightmapData_ m)) m) ;;
          modify_this (fun m =>
            set_heightmapKeys_ (arr_set index heightmapKey (heightmapKeys_ m)) m) ;;
          let* present := gets (cache_has heightmapKey) in
          let* notifiers :=
            if present then
              let* cacheVal := cache_get heightmapKey in
              cache_addRef heightmapKey ;;
              match cacheVal with
              | PHeightmap e => ret (Some (he_notifiers e))
              | PGeometry _ => ret None
              end
            else ret (Some []) in
          cache_set heightmapKey
            (PHeightmap (mkHeightmapEntry id (Some heightmapData) [])) ;;
          match notifiers with
          | None => throw TypeError
          | Some notifiers => for_each notifiers (run_notifier heightmapData)
          end ;;
          run_callback callback
      end
  | _ => throw TypeError
  end.

(** [loadHeightmap_] *)
Definition loadHeightmap_ (heightmapSrc : string) (index : nat)
    (callback : Callback) : M unit :=
  assert_ (index <? 4) "index must be between 0 and 3." ;;
  if String.eqb heightmapSrc EmptyString then ret tt
  else
    freeHeightmap_ index ;;
    let heightmapKey := heightmapSrc in
    let* present := gets (cache_has heightmapKey) in
    if present then
      (* Case 1: Heightmap exists in cache. *)
      cache_addRef heightmapKey ;;
      let* cacheVal := cache_get heightmapKey in
      match cacheVal with
      | PHeightmap (mkHeightmapEntry heightmap None _) =>
          (* Heightmap has not finished loading. *)
          modify_this (fun m =>
            set_heightmaps_ (arr_set index (HImage heightmap) (heightmaps_ m)) m) ;;
          modify (cache_update_heightmap heightmapKey (fun e =>
            mkHeightmapEntry (he_heightmap e) (he_heightmapData e)
              (he_notifiers e ++ [NThis index callback])))
      | PHeightmap (mkHeightmapEntry _ (Some _) _) =>
          (* Heightmap is fully loaded. *)
          modify_this (fun m =>
            set_heightmaps_ (arr_set index (HCacheVal heightmapKey) (heightmaps_ m)) m) ;;
          modify_this (fun m =>
            set_heightmapData_ (arr_set index (DCacheVal heightmapKey) (heightmapData_ m)) m) ;;
          run_callback callback
      | PGeometry _ =>
          (* [heightmapData] and [heightmap] are undefined, and so is
             [notifiers], whose [push] throws. *)
          modify_this (fun m =>
            set_heightmaps_ (arr_clear index (heightmaps_ m)) m) ;;
          throw TypeError
      end
    else
      (* Case 2: Heightmap does not exist in cache yet. *)
      let* heightmap := gets (fun w => length (images w)) in
      modify (fun w =>
        set_images (images w ++
          [mkImageObj EmptyString 0 0 [] [LHeightmapLoad index heightmapKey callback]]) w) ;;
      cache_set heightmapKey (PHeightmap (mkHeightmapEntry heightmap None [])) ;;
      modify_this (fun m =>
        set_heightmaps_ (arr_set index (HImage heightmap) (heightmaps_ m)) m) ;;
      modify (fun w =>
        set_images (alter (fun img =>
          mkImageObj heightmapSrc (img_width img) (img_height img)
            (img_pixels img) (img_listeners img)) heightmap (images w)) w) ;;
      emit (EStartDecode heightmap heightmapSrc).

(** [loadHeightmaps_] *)
Definition loadHeightmaps_ (callback : Completion) : M unit :=
  modify_this (fun m => set_heightmapHeight_ (Some 0) (set_heightmapWidth_ (Some 0) m)) ;;
  modify_this (fun m => set_heightmapData_ [] (set_heightmaps_ [] m)) ;;
  let* sources := gets (fun w => heightSources_ (this w)) in
  let numToLoad :=
    length (filter (fun i => arr_get i sources ≠ Some EmptyString) (seq 0 4)) in
  let* closure := gets (fun w => length (closures (this w))) in
  modify_this (fun m =>
    set_closures (closures m ++ [mkLoadClosure 0 numToLoad callback]) m) ;;
  for_each (seq 0 4) (fun i =>
    loadHeightmap_ (str_or EmptyString (arr_get i sources)) i (CbHeightmapsOnLoad closure i)).

(** [setUpViews] *)
Definition setUpViews : M unit := loadHeightmaps_ KSetUpViews.

(** *** Morphing *)

(** [this.view.setMorphTargetInfluences_(influences)], and the same on the
    stencil view if there is one. *)
Definition push_targets (influences : JSArray JSNum) : M unit :=
  on_views (fun which => view_setMorphTargetInfluences_ which influences).

(** [morph]; [now] is the value of [new Date()] in milliseconds. *)
Definition morph (now : Z) (index seconds : JSNum) : M unit :=
  assert_ (Num.ge index Num.zero && Num.lt index (Num.of_Z 4))
    "index must be between 0 and 4." ;;
  let morphTargetInfluences :=
    arr_set_num (index - Num.one)%num Num.one zeros4 in
  if (seconds >? Num.zero)%num then
    (* Animate over time *)
    modify_this (fun m => set_startMorphTargets_ (arr_slice0 (currentMorphTargets_ m)) m) ;;
    modify_this (set_endMorphTargets_ (arr_slice0 morphTargetInfluences)) ;;
    modify_this (set_morphDuration_ (seconds * Num.of_Z 1000)%num) ;;
    modify_this (set_morphStartTime_ (Num.of_Z now)) ;;
    modify_this (set_morphElapsed_ Num.zero) ;;
    modify_this (set_morphing_ true) ;;
    dispatch "morphBegin"
  else
    (* Animate immediately *)
    modify_this (set_startMorphTargets_ (arr_slice0 morphTargetInfluences)) ;;
    modify_this (set_endMorphTargets_ (arr_slice0 morphTargetInfluences)) ;;
    modify_this (set_currentMorphTargets_ (arr_slice0 morphTargetInfluences)) ;;
    modify_this (set_morphing_ false) ;;
    modify_this (set_morphDuration_ Num.zero) ;;
    modify_this (set_morphElapsed_ Num.zero) ;;
    push_targets morphTargetInfluences.

(** [setMorphing] *)
Definition setMorphing (now : Z) (morphing : bool) : M unit :=
  let* m := gets this in
  if negb morphing && morphing_ m then
    modify_this (set_morphing_ false) ;;
    modify_this (set_morphElapsed_ (Num.of_Z now - morphStartTime_ m)%num)
  else if morphing && negb (morphing_ m) then
    modify_this (set_morphing_ true) ;;
    modify_this (set_morphStartTime_ (Num.of_Z now - morphElapsed_ m)%num)
  else ret tt.

(** An element of a weight array as an operand; [undefined] gives [NaN]. *)
Definition weight (i : nat) (a : JSArray JSNum) : JSNum :=
  default NaN (arr_get i a).

(** The interpolation loop of [update].  It writes into the array of the
    current weights in place; a mesh may hold that very array, and [update]
    hands the array to every mesh right after the loop, so at the end of
    the tick the meshes carry the same weights whether the array is shared
    or not. *)
Definition lerp_targets (time : JSNum) (m : Image3D) : Image3D :=
  let invTime := (Num.one - time)%num in
  for_range (length (endMorphTargets_ m)) (fun i m =>
    set_currentMorphTargets_
      (arr_set i (weight i (startMorphTargets_ m) * invTime +
                  weight i (endMorphTargets_ m) * time)%num
         (currentMorphTargets_ m)) m) m.

(** The morph step of [update]. *)
Definition update_morph (now : Z) : M unit :=
  let* m := gets this in
  if morphing_ m then
    let duration := (Num.of_Z now - morphStartTime_ m)%num in
    let time := (duration / morphDuration_ m)%num in
    if (time >? Num.one)%num then
      (* Finish animations *)
      modify_this (set_morphing_ false) ;;
      modify_this (set_morphDuration_ Num.zero) ;;
      modify_this (set_morphElapsed_ Num.zero) ;;
      push_targets (endMorphTargets_ m) ;;
      modify_this (set_currentMorphTargets_ (arr_slice0 (endMorphTargets_ m))) ;;
      modify_this (fun m => set_startMorphTargets_ (arr_slice0 (currentMorphTargets_ m)) m) ;;
      dispatch "morphEnd"
    else
      modify_this (lerp_targets time) ;;
      let* current := gets (fun w => currentMorphTargets_ (this w)) in
      push_targets current
  else ret tt.

(** The step of [update] that follows a change of the element's [src]. *)
Definition sync_image : M unit :=
  let* m := gets this in
  when (String.eqb (toLowerCase (tagName (element_ m))) "img" &&
        negb (bool_decide (Some (el_src (element_ m)) = imageSrc_ m)))
    (setImageSrc (el_src (element_ m))).

(** [update]; the base class's [update] does not touch these fields. *)
Definition update (now : Z) : M unit :=
  let* m := gets this in
  if negb (loaded m) then ret tt
  else
    sync_image ;;
    update_morph now.

(** *** Setters *)

(** [setGeometryStyle] *)
Definition setGeometryStyle (geometryStyle : string) : M unit :=
  assert_ (String.eqb geometryStyle "smooth" ||
           String.eqb geometryStyle "block" ||
           String.eqb geometryStyle "float")
    "geometryStyle must be valid." ;;
  let* current := gets (fun w => geometryStyle_ (this w)) in
  when (negb (String.eqb current geometryStyle))
    (modify_this (set_geometryStyle_ geometryStyle) ;;
     dispatch "changeGeometryStyle" ;;
     rebuildGeometry_).

(** [setHeightmap]; [opt_index] is the heightmap number, from 1. *)
Definition setHeightmap (heightmap : string) (opt_index : option positive) : M unit :=
  assert_ (negb (String.eqb heightmap EmptyString)) "heightmap must be valid." ;;
  let heightmap := getAbsoluteUrl_ heightmap in
  let index :=
    match opt_index with
    | None => 0
    | Some opt_index => Pos.to_nat opt_index - 1
    end in
  let* current := gets (fun w => arr_get index (heightSources_ (this w))) in
  if bool_decide (current = Some heightmap) then ret tt
  else
    modify_this (fun m => set_heightSources_ (arr_set index heightmap (heightSources_ m)) m) ;;
    (if index =? 0 then dispatch "changeHeightmap"
     else dispatch ("changeHeightmap" ++ numToString (Num.of_nat (index + 1)))) ;;
    loadHeightmap_ heightmap index CbRebuildGeometry.

(** [setMaxHeight] *)
Definition setMaxHeight (maxHeight : JSNum) : M unit :=
  assert_ (Num.ge maxHeight Num.zero) "maxHeight must be >= 0." ;;
  let* current := gets (fun w => maxHeight_ (this w)) in
  when (negb (Num.strict_eq current maxHeight))
    (modify_this (set_maxHeight_ maxHeight) ;;
     dispatch "changeMaxHeight" ;;
     rebuildGeometry_).

(** [setTransparent] *)
Definition setTransparent (transparent : bool) : M unit :=
  let* current := gets (fun w => transparent_ (this w)) in
  when (negb (Bool.eqb current transparent))
    (modify_this (set_transparent_ transparent) ;;
     dispatch "changeTransparent" ;;
     on_views (fun which => view_setTransparent_ which transparent)).

(** *** Events from the host *)

(** The handler of a texture image's load event ([onLoad] of
    [setImageSrc]). *)
Definition setImageSrc_onLoad : M unit :=
  rebuildGeometry_ ;;
  on_views (fun which =>
    let* m := gets this in
    view_setImage_ which (image_ m) (imageSrc_ m)).

Definition run_listener (l : Listener) : M unit :=
  match l with
  | LHeightmapLoad index heightmapKey callback =>
      loadHeightmap_onLoad index heightmapKey callback
  | LTextureLoad => setImageSrc_onLoad
  end.

(** The host has decoded image [id]: it sets the size and the pixels and
    calls the load handlers. *)
Definition image_loaded (id width height : nat) (pixels : list Byte.byte) : M unit :=
  let* img := gets (fun w => images w !! id) in
  match img with
  | None => ret tt
  | Some img =>
      modify (fun w =>
        set_images (<[id := mkImageObj (img_src img) width height pixels
                            (img_listeners img)]> (images w)) w) ;;
      for_each (img_listeners img) run_listener
  end.

End Model.

(** *** Tearing down *)

(** [Image3DView_.unload] *)
Definition view_unload (which : WhichView) : M unit :=
  view_destroyMesh_ which ;;
  let* texture := view_field which texture_ in
  when (bool_decide (is_Some texture))
    (emit (EDisposeTexture which) ;;
     modify_view which (set_texture_ None)).

(** [tearDownViews]; the part of the base class is not in the sources. *)
Definition tearDownViews : M unit := destroyGeometry_.

(** [cleanUp]; the part of the base class is not in the sources. *)
Definition cleanUp : M unit :=
  freeHeightmap_ 0 ;; freeHeightmap_ 1 ;; freeHeightmap_ 2 ;; freeHeightmap_ 3.

(** *** The model as its callers see it *)

(** A call of a public method of the model, or an event of the host. *)
Inductive Call : Type :=
| CallSetUpViews
| CallTearDownViews
| CallCleanUp
| CallUpdate (now : Z)
| CallMorph (now : Z) (index seconds : JSNum)
| CallSetMorphing (now : Z) (morphing : bool)
| CallSetImageSrc (imageSrc : string)
| CallSetHeightmap (heightmap : string) (opt_index : option positive)
| CallSetMaxHeight (maxHeight : JSNum)
| CallSetGeometryStyle (geometryStyle : string)
| CallSetTransparent (transparent : bool)
| CallImageLoaded (id width height : nat) (pixels : list Byte.byte).

Definition invoke (getAbsoluteUrl_ : string -> string)
    (numToString : JSNum -> string) (c : Call) : M unit :=
  match c with
  | CallSetUpViews => setUpViews getAbsoluteUrl_ numToString
  | CallTearDownViews => tearDownViews
  | CallCleanUp => cleanUp
  | CallUpdate now => update getAbsoluteUrl_ now
  | CallMorph now index seconds => morph now index seconds
  | CallSetMorphing now morphing => setMorphing now morphing
  | CallSetImageSrc imageSrc => setImageSrc getAbsoluteUrl_ imageSrc
  | CallSetHeightmap heightmap opt_index =>
      setHeightmap getAbsoluteUrl_ numToString heightmap opt_index
  | CallSetMaxHeight maxHeight => setMaxHeight numToString maxHeight
  | CallSetGeometryStyle geometryStyle => setGeometryStyle numToString geometryStyle
  | CallSetTransparent transparent => setTransparent transparent
  | CallImageLoaded id width height pixels =>
      image_loaded getAbsoluteUrl_ numToString id width height pixels
  end.

(* ================================================================= *)
(** ** Predicates of the properties *)

(** Every populated alternate slot has its data: the state in which the
    load of all heightmaps has completed. *)
Definition targets_ready (m : Image3D) : bool :=
  forallb (fun i =>
             implb (bool_decide (is_Some (arr_get i (heightmaps_ m))))
                   (bool_decide (is_Some (arr_get i (heightmapData_ m)))))
          [1; 2; 3].

(** The weights have been pushed: every mesh there is carries them. *)
Definition pushed (w : World) (influences : JSArray JSNum) : Prop :=
  forall which x mesh,
    get_view which w = Some x -> mesh_ x = Some mesh ->
    morphTargetInfluences mesh = influences.

(** A stretch of the trace that only marks views dirty. *)
Definition only_dirty (es : list Effect) : Prop :=
  Forall (fun e => exists which, e = EDirty which) es.

(** The one-hot vector of a 0-based position. *)
Definition one_hot (k : nat) : JSArray JSNum :=
  arr_of (map (fun i => if i =? k then Num.one else Num.zero) (seq 0 4)).

(** [m'] has the animator fields of [m]. *)
Definition same_animator (m m' : Image3D) : Prop :=
  morphing_ m' = morphing_ m
  /\ morphStartTime_ m' = morphStartTime_ m
  /\ morphDuration_ m' = morphDuration_ m
  /\ morphElapsed_ m' = morphElapsed_ m
  /\ startMorphTargets_ m' = startMorphTargets_ m
  /\ currentMorphTargets_ m' = currentMorphTargets_ m
  /\ endMorphTargets_ m' = endMorphTargets_ m.

(** The element's [src] is the model's [imageSrc_], or the element is not an
    image: [update] has no image to follow. *)
Definition element_synced (m : Image3D) : bool :=
  negb (String.eqb (toLowerCase (tagName (element_ m))) "img" &&
        negb (bool_decide (Some (el_src (element_ m)) = imageSrc_ m))).

(** What an immediate [morph(index, 0)] at time [now] leaves behind: the
    animator idle with all three weight vectors equal to [weights], pushed
    to the views. *)
Definition immediate_morph (now : Z) (w : World) (index : Z)
    (weights : JSArray JSNum) : Prop :=
  exists w' es,
    morph now (Num.of_Z index) Num.zero w = Ok tt w'
    /\ startMorphTargets_ (this w') = weights
    /\ endMorphTargets_ (this w') = weights
    /\ currentMorphTargets_ (this w') = weights
    /\ morphing_ (this w') = false
    /\ pushed w' weights
    /\ trace w' = trace w ++ es
    /\ only_dirty es.

(** The world an outcome leaves, returned or thrown. *)
Definition world_after {A} (o : Outcome A) : World :=
  match o with
  | Ok _ w => w
  | Throw _ w => w
  end.

(** The string has no comma in it. *)
Fixpoint no_comma (s : string) : bool :=
  match s with
  | EmptyString => true
  | String c s' => negb (Ascii.eqb c ","%char) && no_comma s'
  end.

(** The image source and the four heightmap sources as [createGeometry_]
    prints them into the key. *)
Definition printed_sources (m : Image3D) : list string :=
  [str_or "null" (imageSrc_ m);
   str_or "undefined" (arr_get 0 (heightSources_ m));
   str_or "undefined" (arr_get 1 (heightSources_ m));
   str_or "undefined" (arr_get 2 (heightSources_ m));
   str_or "undefined" (arr_get 3 (heightSources_ m))].

(** The world after a series of calls; a call that throws leaves the world
    as it was when it threw, and the next call finds it so. *)
Definition run_calls (getAbsoluteUrl_ : string -> string)
    (numToString : JSNum -> string) (calls : list Call) (w : World) : World :=
  foldl (fun w c => world_after (invoke getAbsoluteUrl_ numToString c w)) w calls.

(** The computation leaves the selected part of the world as it was,
    whether it returns or throws. *)
Definition keeps {A X} (sel : World -> X) (c : M A) : Prop :=
  forall w, sel (world_after (c w)) = sel w.

(** The selector reads the model object only. *)
Definition reads_this {X} (sel : World -> X) : Prop :=
  forall w w', this w' = this w -> sel w' = sel w.

(** The fields no load step and no rebuild writes: the settings given by the
    caller and the state of the animator. *)
Definition settings (w : World) :=
  (heightSources_ (this w), maxHeight_ (this w), geometryStyle_ (this w),
   transparent_ (this w), loaded (this w)).

Definition animator (w : World) :=
  (morphing_ (this w), morphStartTime_ (this w), morphDuration_ (this w),
   morphElapsed_ (this w), startMorphTargets_ (this w),
   currentMorphTargets_ (this w), endMorphTargets_ (this w)).

Definition settings_animator (w : World) := (settings w, animator w).

(** The three weight vectors, and the maximum height. *)
Definition weights (w : World) :=
  (startMorphTargets_ (this w), currentMorphTargets_ (this w),
   endMorphTargets_ (this w)).

Definition max_height (w : World) : JSNum := maxHeight_ (this w).

(** The calls that drive the animator, and the setters of a setting. *)
Definition drives_animator (c : Call) : bool :=
  match c with
  | CallUpdate _ | CallMorph _ _ _ | CallSetMorphing _ _ => true
  | _ => false
  end.

Definition sets_setting (c : Call) : bool :=
  match c with
  | CallSetHeightmap _ _ | CallSetMaxHeight _ | CallSetGeometryStyle _
  | CallSetTransparent _ => true
  | _ => false
  end.

(** The three weight vectors have four elements each and no hole. *)
Definition weights_shape (m : Image3D) : Prop :=
  full_array 4 (startMorphTargets_ m)
  /\ full_array 4 (currentMorphTargets_ m)
  /\ full_array 4 (endMorphTargets_ m).

(** What pushing [influences] does to a view: the mesh, if there is one,
    carries them afterwards; nothing else of the view changes. *)
Definition push_view (influences : JSArray JSNum) (x : View) : View :=
  match mesh_ x with
  | Some mesh => set_mesh_ (Some (mkMesh (mesh_geometry mesh) influences)) x
  | None => x
  end.

(** The weights have been pushed from [w] to [w']: both views are the views
    of [w] with the weights on their meshes. *)
Definition pushed_to_views (w w' : World) (influences : JSArray JSNum) : Prop :=
  view w' = push_view influences (view w)
  /\ stencilView w' = push_view influences <$> stencilView w.

(** The dirty marks of a push: one for each view that has a mesh, the main
    view first. *)
Definition dirty_marks (w : World) : list Effect :=
  match mesh_ (view w) with Some _ => [EDirty VMain] | None => [] end
  ++ match stencilView w with
     | Some x => match mesh_ x with Some _ => [EDirty VStencil] | None => [] end
     | None => []
     end.

(* ================================================================= *)
(** ** Reference shapes of the three styles *)

(** An array allocated with [cap] slots whose first slots hold [l], in
    order, the rest being holes. *)
Definition pre_filled {A} (cap : nat) (l : list A) : JSArray A :=
  arr_of l ++ replicate (cap - length l) None.

(** [1.0 / (n - 1)] and [1.0 / n] *)
Definition inv_minus_one (n : nat) : JSNum :=
  (Num.one / Num.of_Z (Z.of_nat n - 1))%num.
Definition inv_of (n : nat) : JSNum := (Num.one / Num.of_nat n)%num.

(** The vertex of texel [k] (row by row) of a width-[W] grid in smooth
    style. *)
Definition smooth_vertex (m : Image3D) (data : HeightData) (W H k : nat) : Vector3 :=
  V3 (Num.of_nat (k mod W) * inv_minus_one W)%num
     (Num.of_nat (k / W) * inv_minus_one H)%num
     (getDepth_ m data (4 * k)).

(** The two triangles of grid cell [c] (row by row, [W - 1] cells a row). *)
Definition smooth_cell_faces (W c : nat) : list Face3 :=
  let x := c mod (W - 1) in
  let y := c / (W - 1) in
  [F3 (y * W + x) (y * W + (x + 1)) ((y + 1) * W + (x + 1));
   F3 (y * W + x) ((y + 1) * W + (x + 1)) ((y + 1) * W + x)].



(** Every index of the face is below [n]. *)
Definition face_below (n : nat) (f : Face3) : Prop :=
  f_a f < n /\ f_b f < n /\ f_c f < n.

(** The data a morph target is built from: the primary data for index 0 and
    for a slot without heightmap, the slot's own data otherwise. *)
Definition target_data (m : Image3D) (i : nat) : option HeightData :=
  if bool_decide (arr_get i (heightmaps_ m) = None) || (i =? 0)
  then arr_get 0 (heightmapData_ m)
  else arr_get i (heightmapData_ m).

(** The state of the column loop of block style in which the three arrays,
    allocated with [capV] and [capF] slots, hold [lv], [lf] and [lu] so
    far. *)
Definition block_state_of (capV capF : nat) (lv : list Vector3)
    (lf : list Face3) (lu : list FaceUvs) : BlockState :=
  mkBlockState (pre_filled capV lv) (pre_filled capF lf) (pre_filled capF lu)
    (length lv) (length lf) (length lu) (length lv).

(** What the column loop keeps: the arrays are filled from the front, the
    UV array follows the face array, there are [base] more vertices than
    faces, between [lo] and [hi] faces, at least [j] vertices, and every face
    names vertices written so far. *)
Definition block_shape (capV capF j base lo hi : nat) (s : BlockState) : Prop :=
  exists lv lf lu,
    s = block_state_of capV capF lv lf lu
    /\ length lu = length lf
    /\ length lv = length lf + base
    /\ lo <= length lf /\ length lf <= hi
    /\ j <= length lv
    /\ Forall (face_below (length lv)) lf.

(** *** Block style, texel by texel *)

(** The four sides of a column, in the order the code visits them. *)
Inductive BlockSide : Type := SideLeft | SideRight | SideTop | SideBottom.

Definition block_sides : list BlockSide :=
  [SideLeft; SideRight; SideTop; SideBottom].

(** The depth of texel [(x, y)] of a width-[W] heightmap. *)
Definition texel_depth (m : Image3D) (data : HeightData) (W : nat)
    (y x : nat) : JSNum :=
  getDepth_ m data (4 * (y * W + x)).

(** The depth the column of texel [(x, y)] is compared with on a side: the
    depth of the texel next to it in that direction, and 0 where the image
    ends. *)
Definition neighbour_depth (m : Image3D) (data : HeightData) (W H : nat)
    (s : BlockSide) (y x : nat) : JSNum :=
  match s with
  | SideLeft => if 0 <? x then texel_depth m data W y (x - 1) else Num.zero
  | SideRight => if x <? W - 1 then texel_depth m data W y (x + 1) else Num.zero
  | SideTop => if 0 <? y then texel_depth m data W (y - 1) x else Num.zero
  | SideBottom => if y <? H - 1 then texel_depth m data W (y + 1) x else Num.zero
  end.

(** The side has a quad: the neighbour is strictly lower. *)
Definition side_emitted (m : Image3D) (data : HeightData) (W H : nat)
    (y x : nat) (s : BlockSide) : bool :=
  Num.gt (texel_depth m data W y x) (neighbour_depth m data W H s y x).

(** The sides of texel [(x, y)] that have a quad, in the order of the code. *)
Definition emitted_sides (m : Image3D) (data : HeightData) (W H : nat)
    (y x : nat) : list BlockSide :=
  List.filter (side_emitted m data W H y x) block_sides.

(** The two vertices a side quad adds: the ends of that edge of the texel,
    at the depth of the neighbour. *)
Definition side_corners (m : Image3D) (data : HeightData) (W H : nat)
    (y x : nat) (s : BlockSide) : list Vector3 :=
  let x1 := (Num.of_nat x * inv_of W)%num in
  let x2 := (Num.of_nat (x + 1) * inv_of W)%num in
  let y1 := (Num.of_nat y * inv_of H)%num in
  let y2 := (Num.of_nat (y + 1) * inv_of H)%num in
  let d := neighbour_depth m data W H s y x in
  match s with
  | SideLeft => [V3 x1 y1 d; V3 x1 y2 d]
  | SideRight => [V3 x2 y1 d; V3 x2 y2 d]
  | SideTop => [V3 x1 y1 d; V3 x2 y1 d]
  | SideBottom => [V3 x1 y2 d; V3 x2 y2 d]
  end.

(** The two triangles of a side quad; [j] is the index of the first front
    vertex of the column and [v] the index of the first vertex of the side. *)
Definition side_faces (j v : nat) (s : BlockSide) : list Face3 :=
  match s with
  | SideLeft => [F3 j (j + 3) (v + 1); F3 j (v + 1) v]
  | SideRight => [F3 (j + 2) (j + 1) (v + 0); F3 (j + 2) (v + 0) (v + 1)]
  | SideTop => [F3 (j + 1) j v; F3 (j + 1) v (v + 1)]
  | SideBottom => [F3 (j + 3) (j + 2) (v + 1); F3 (j + 3) (v + 1) v]
  end.

(** The faces of a run of side quads whose vertices start at index [v]. *)
Fixpoint sides_faces (j v : nat) (ss : list BlockSide) : list Face3 :=
  match ss with
  | [] => []
  | s :: ss' => side_faces j v s ++ sides_faces j (v + 2) ss'
  end.

(** The vertices of the column of texel [k] (row by row): the four corners
    of the front at the texel's depth, then the corners of its side quads. *)
Definition block_texel_vertices (m : Image3D) (data : HeightData) (W H : nat)
    (k : nat) : list Vector3 :=
  let x := k mod W in
  let y := k / W in
  let depth := texel_depth m data W y x in
  let x1 := (Num.of_nat x * inv_of W)%num in
  let x2 := (Num.of_nat (x + 1) * inv_of W)%num in
  let y1 := (Num.of_nat y * inv_of H)%num in
  let y2 := (Num.of_nat (y + 1) * inv_of H)%num in
  [V3 x1 y1 depth; V3 x2 y1 depth; V3 x2 y2 depth; V3 x1 y2 depth]
  ++ flat_map (side_corners m data W H y x) (emitted_sides m data W H y x).

(** The index of the first vertex of the column of texel [k]. *)
Definition block_offset (m : Image3D) (data : HeightData) (W H : nat)
    (k : nat) : nat :=
  length (flat_map (block_texel_vertices m data W H) (seq 0 k)).

(** The faces of the column of texel [k]: the two triangles of the front,
    then two for every side quad. *)
Definition block_texel_faces (m : Image3D) (data : HeightData) (W H : nat)
    (k : nat) : list Face3 :=
  let j := block_offset m data W H k in
  [F3 j (j + 1) (j + 2); F3 j (j + 2) (j + 3)]
  ++ sides_faces j (j + 4) (emitted_sides m data W H (k / W) (k mod W)).

(** The number of side quads of the whole heightmap. *)
Definition side_quads (m : Image3D) (data : HeightData) (W H : nat) : nat :=
  length (flat_map (fun k => emitted_sides m data W H (k / W) (k mod W))
            (seq 0 (W * H))).

(* ================================================================= *)
(** ** Concrete instances *)

(** A stand-in for the printing of numbers: integers in decimal, other
    rationals as a quotient. *)
Definition print_num (n : JSNum) : string :=
  match n with
  | Fin q =>
      match Qden q with
      | xH => pretty (Qnum q)
      | d => pretty (Qnum q) ++ "/" ++ pretty (Zpos d)
      end
  | PInf => "Infinity"
  | NInf => "-Infinity"
  | NaN => "NaN"
  end.

(** URLs that are absolute already. *)
Definition absolute (url : string) : string := url.

(** A world with one model, its main view and an empty cache. *)
Definition world_of (m : Image3D) : World := mkWorld m new_View None ∅ [] [].

Definition example_options : Options :=
  mkOptions (mkElement "IMG" "http://h/t.png") None (Some "http://h/a.png")
    None None None None None None.

(** The model [initialize] makes from [example_options]. *)
Definition example_model : Image3D :=
  match initialize absolute example_options with
  | Done m => m
  | Fail _ =>
      mkImage3D (mkElement EmptyString EmptyString) None [] [] Num.zero EmptyString false false
        Num.zero Num.zero Num.zero [] [] [] None None [] [] [] None EmptyString None false
  end.

(** Four texels: black, white, mid grey and red. *)
Definition example_pixels : list Byte.byte :=
  [Byte.x00; Byte.x00; Byte.x00; Byte.xff;
   Byte.xff; Byte.xff; Byte.xff; Byte.xff;
   Byte.x80; Byte.x80; Byte.x80; Byte.xff;
   Byte.xff; Byte.x00; Byte.x00; Byte.xff].

(** [example_model] once a 2x2 primary heightmap is in place. *)
Definition example_loaded : Image3D :=
  set_heightmapData_ (arr_of [DPixels example_pixels])
    (set_heightmaps_ (arr_of [HImage 0])
       (set_heightmapHeight_ (Some 2)
          (set_heightmapWidth_ (Some 2) example_model))).

(** A flat 2x2 heightmap: four white texels. *)
Definition white_pixels : list Byte.byte := replicate 16 Byte.xff.

(** The texture image, 4x4 and loaded, is image 0. *)
Definition example_images : list ImageObj :=
  [mkImageObj "http://h/t.png" 4 4 [] [LTextureLoad]].

(** [example_model] in block style over the flat heightmap. *)
Definition white_block_model : Image3D :=
  set_image_ (Some 0)
    (set_geometryStyle_ GeometryStyle_Block
       (set_heightmapData_ (arr_of [DPixels white_pixels]) example_loaded)).

(** [example_model], loaded, in the middle of [morph(2, 2)] started at
    time 1000. *)
Definition morphing_world : World :=
  match morph 1000 (Num.of_Z 2) (Num.of_Z 2)
          (world_of (set_loaded true example_model)) with
  | Ok _ w => w
  | Throw _ w => w
  end.

(** [example_loaded] with another texture image. *)
Definition other_texture_model : Image3D :=
  set_imageSrc_ (Some "http://h/u.png") example_loaded.

(** Nine texels for a 3x3 heightmap. *)
Definition grey_pixels : list Byte.byte := replicate 36 Byte.x80.

(** Two heightmaps of different sizes, 2x2 and 3x3, both decoded and held
    fully loaded in the cache by another model. *)
Definition cached_images : list ImageObj :=
  [mkImageObj "http://h/a.png" 2 2 example_pixels [];
   mkImageObj "http://h/b.png" 3 3 grey_pixels []].

Definition cached_heightmaps : gmap string CacheEntry :=
  <["http://h/a.png" :=
      mkCacheEntry (PHeightmap (mkHeightmapEntry 0 (Some example_pixels) [])) 1]>
  (<["http://h/b.png" :=
      mkCacheEntry (PHeightmap (mkHeightmapEntry 1 (Some grey_pixels) [])) 1]> ∅).

Definition two_heightmaps_options : Options :=
  mkOptions (mkElement "IMG" "http://h/t.png") None (Some "http://h/a.png")
    (Some "http://h/b.png") None None None None None.

(** A new model that asks for both heightmaps, in a world that has them
    cached. *)
Definition cached_world : World :=
  match initialize absolute two_heightmaps_options with
  | Done m => mkWorld m new_View None cached_heightmaps cached_images []
  | Fail _ => world_of example_model
  end.

(** [example_model] after [setUpViews]: the primary heightmap is being
    decoded and its cache entry is pending. *)
Definition pending_world : World :=
  world_after (setUpViews absolute print_num (world_of example_model)).

(** [pending_world] at the moment the host has decoded image 0 and is about
    to call its load handler. *)
Definition decoded_world : World :=
  set_images
    (<[0 := mkImageObj "http://h/a.png" 2 2 example_pixels
              [LHeightmapLoad 0 "http://h/a.png" (CbHeightmapsOnLoad 0 0)]]>
       (images pending_world))
    pending_world.


(** [example_loaded] in float style, with the texture image in place. *)
Definition float_model : Image3D :=
  set_image_ (Some 0) (set_geometryStyle_ GeometryStyle_Float example_loaded).

(** [white_block_model] with a second heightmap in slot 1. *)
Definition two_block_model : Image3D :=
  set_heightmapData_ (arr_of [DPixels white_pixels; DPixels example_pixels])
    (set_heightmaps_ (arr_of [HImage 1; HImage 2]) white_block_model).

(** A view with a texture and a mesh. *)
Definition meshed_view : View :=
  mkView (Some (mkTexture 0 "http://h/t.png"))
    (Some (mkMesh (PGeometry new_Geometry) initial_targets))
    (Some (PGeometry new_Geometry)) (Some "key") (Some (mkMaterial true)) true.

(** [morphing_world] with a mesh on the main view and on a stencil view. *)
Definition morphing_mesh_world : World :=
  set_stencilView (Some meshed_view) (set_view meshed_view morphing_world).

(** A series of calls on a new model. *)
Definition example_calls : list Call :=
  [CallSetUpViews; CallMorph 1000 (Num.of_Z 2) (Num.of_Z 2); CallUpdate 2000;
   CallSetMaxHeight (Num.of_Z 50); CallSetMorphing 2500 false;
   CallSetHeightmap "b.png" (Some 2%positive); CallUpdate 9000;
   CallSetMaxHeight (Num.of_Z (-1)); CallMorph 9500 (Num.of_Z 4) Num.zero;
   CallTearDownViews; CallCleanUp].

(** An options object that names a geometry style of its own. *)
Definition odd_style_options : Options :=
  mkOptions (mkElement "IMG" "http://h/t.png") None (Some "http://h/a.png")
    None None None None (Some "wire") None.

(* ================================================================= *)
(** ** Loops and arrays *)

(** The invariant rule of a counted loop. *)
Lemma for_range_ind {St : Type} (P : nat -> St -> Prop) (n : nat)
    (body : nat -> St -> St) (s0 : St) :
  P 0 s0 ->
  (forall i s, i < n -> P i s -> P (i + 1) (body i s)) ->
  P n (for_range n body s0).
Proof.
  unfold for_range. intros H0 Hstep.
  induction n as [|n IH].
  - exact H0.
  - rewrite seq_S, foldl_app. simpl.
    replace (S n) with (n + 1) by lia.
    apply Hstep; [lia|]. apply IH. intros i s Hi. apply Hstep. lia.
Qed.

Section ArrayFacts.
Context {A : Type}.
Implicit Types (a : list (option A)) (v : A).

Lemma length_new_Array (n : Z) a :
  new_Array n = Done a -> (0 <= n)%Z /\ length a = Z.to_nat n.
Proof.
  unfold new_Array. destruct (0 <=? n)%Z eqn:E; [|discriminate].
  intros [= <-]. split; [lia|]. apply length_replicate.
Qed.

Lemma new_Array_nonneg (n : Z) :
  (0 <= n)%Z -> new_Array (A := A) n = Done (replicate (Z.to_nat n) None).
Proof. unfold new_Array. intros H. destruct (Z.leb_spec 0 n); [done|lia]. Qed.

Lemma length_arr_set i v a : i < length a -> length (arr_set i v a) = length a.
Proof.
  unfold arr_set. intros H. destruct (Nat.ltb_spec i (length a)); [|lia].
  apply length_insert.
Qed.

Lemma lookup_arr_set_eq i v a : i < length a -> arr_set i v a !! i = Some (Some v).
Proof.
  unfold arr_set. intros H. destruct (Nat.ltb_spec i (length a)); [|lia].
  by apply list_lookup_insert_eq.
Qed.

Lemma lookup_arr_set_ne i j v a : i < length a -> i <> j -> arr_set i v a !! j = a !! j.
Proof.
  unfold arr_set. intros H Hne. destruct (Nat.ltb_spec i (length a)); [|lia].
  by apply list_lookup_insert_ne.
Qed.

Lemma dense_upto_0 a : dense_upto 0 a.
Proof. intros j Hj. lia. Qed.

Lemma dense_upto_set i v a :
  i < length a -> dense_upto i a -> dense_upto (i + 1) (arr_set i v a).
Proof.
  intros Hi Hd j Hj. destruct (decide (i = j)) as [<-|Hne].
  - exists v. by apply lookup_arr_set_eq.
  - rewrite lookup_arr_set_ne by done. apply Hd. lia.
Qed.


(** An array that is dense up to its length is a list of elements. *)
Lemma dense_upto_length a :
  dense_upto (length a) a -> exists l, a = arr_of l /\ length l = length a.
Proof.
  induction a as [|o a IH]; intros Hd.
  - by exists [].
  - destruct (Hd 0) as [v Hv]; [simpl; lia|]. simpl in Hv. injection Hv as ->.
    destruct IH as (l & -> & Hl).
    + intros j Hj. apply (Hd (S j)). simpl. lia.
    + exists (v :: l). split; [done|]. simpl. unfold arr_of in Hl.
      rewrite length_map in Hl. unfold arr_of. rewrite length_map. lia.
Qed.

End ArrayFacts.

(* ================================================================= *)
(** ** Smooth topology *)

Section SmoothFacts.
Variables (m : Image3D) (data : HeightData) (W H : nat) (iw ih : JSNum).

(** The vertex loop writes every one of the [W * H] slots once. *)
Lemma smooth_vertex_loop_spec (vs0 : JSArray Vector3) :
  length vs0 = W * H ->
  exists vs pix, smooth_vertex_loop m data W H iw ih vs0 = (vs, pix, W * H)
    /\ length vs = W * H /\ dense_upto (W * H) vs.
Proof.
  intros Hlen. unfold smooth_vertex_loop.
  pose (P := fun (y : nat) (st : JSArray Vector3 * nat * nat) =>
    let '(vs, pix, vi) := st in
    length vs = W * H /\ vi = y * W /\ dense_upto vi vs).
  match goal with |- context [for_range H ?b ?s] =>
    assert (HP : P H (for_range H b s)) end.
  { apply for_range_ind.
    - simpl. repeat split; [done|]. apply dense_upto_0.
    - intros y [[vs pix] vi] Hy (Hl & -> & Hd).
      pose (Q := fun (x : nat) (st : JSArray Vector3 * nat * nat) =>
        let '(vs, pix, vi) := st in
        length vs = W * H /\ vi = y * W + x /\ dense_upto vi vs).
      match goal with |- P _ (for_range W ?b ?s) =>
        assert (HQ : Q W (for_range W b s)) end.
      { apply for_range_ind.
        - simpl. repeat split; [done|lia|done].
        - intros x [[vs' pix'] vi'] Hx (Hl' & -> & Hd').
          assert (y * W + x < length vs') by (rewrite Hl'; nia).
          simpl. repeat split.
          + by rewrite length_arr_set.
          + lia.
          + replace (y * W + x + 1) with ((y * W + x) + 1) by lia.
            by apply dense_upto_set. }
      destruct (for_range W _ _) as [[vs' pix'] vi'].
      destruct HQ as (Hl' & -> & Hd'). simpl. repeat split; [done|lia|].
      by replace ((y + 1) * W) with (y * W + W) by lia. }
  destruct (for_range H _ _) as [[vs pix] vi].
  destruct HP as (Hl & -> & Hd).
  exists vs, pix. repeat split; [f_equal; lia|done|].
  by replace (W * H) with (H * W) by lia.
Qed.

(** The index loop writes [2 * (W - 1) * (H - 1)] faces and as many UV
    triples. *)
Lemma smooth_face_loop_spec (fs0 : JSArray Face3) (uvs0 : JSArray FaceUvs) :
  length fs0 = 2 * (W - 1) * (H - 1) ->
  length uvs0 = 2 * (W - 1) * (H - 1) ->
  let s := smooth_face_loop W H iw ih fs0 uvs0 in
  length (sf_faces s) = 2 * (W - 1) * (H - 1)
  /\ length (sf_uvs s) = 2 * (W - 1) * (H - 1)
  /\ sf_faceIdx s = 2 * (W - 1) * (H - 1)
  /\ dense_upto (2 * (W - 1) * (H - 1)) (sf_faces s)
  /\ dense_upto (2 * (W - 1) * (H - 1)) (sf_uvs s).
Proof.
  intros Hf Hu. unfold smooth_face_loop.
  pose (N := 2 * (W - 1) * (H - 1)).
  pose (I := fun (k : nat) (s : SmoothFaces) =>
    length (sf_faces s) = N /\ length (sf_uvs s) = N
    /\ sf_faceIdx s = k /\ sf_uvIdx s = k
    /\ dense_upto k (sf_faces s) /\ dense_upto k (sf_uvs s)).
  match goal with |- context [for_range (H - 1) ?b ?s] =>
    assert (HP : I (2 * ((H - 1) * (W - 1))) (for_range (H - 1) b s)) end.
  { apply (for_range_ind (fun y s => I (2 * (y * (W - 1))) s)).
    - repeat split; simpl; try done; apply dense_upto_0.
    - intros y s Hy HI.
      match goal with |- context [for_range (W - 1) ?b s] =>
        assert (HQ : I (2 * (y * (W - 1) + (W - 1))) (for_range (W - 1) b s)) end.
      { apply (for_range_ind (fun x s => I (2 * (y * (W - 1) + x)) s)).
        - by rewrite Nat.add_0_r.
        - intros x s' Hx (Hl1 & Hl2 & Hi1 & Hi2 & Hd1 & Hd2).
          unfold smooth_face_cell. rewrite Hi1, Hi2.
          set (k := 2 * (y * (W - 1) + x)) in *.
          assert (k + 1 < N) by (unfold k, N; nia).
          replace (2 * (y * (W - 1) + (x + 1))) with (k + 1 + 1) by (unfold k; lia).
          repeat split; simpl.
          + rewrite !length_arr_set; [done|lia|rewrite length_arr_set; lia].
          + rewrite !length_arr_set; [done|lia|rewrite length_arr_set; lia].
          + lia.
          + lia.
          + apply dense_upto_set; [rewrite length_arr_set; lia|].
            apply dense_upto_set; [lia|done].
          + apply dense_upto_set; [rewrite length_arr_set; lia|].
            apply dense_upto_set; [lia|done]. }
      destruct HQ as (Hl1 & Hl2 & Hi1 & Hi2 & Hd1 & Hd2).
      replace (2 * ((y + 1) * (W - 1))) with (2 * (y * (W - 1) + (W - 1))) by lia.
      repeat split; simpl; done. }
  destruct HP as (Hl1 & Hl2 & Hi1 & Hi2 & Hd1 & Hd2).
  replace (2 * ((H - 1) * (W - 1))) with N in * by (unfold N; lia).
  simpl. repeat split; done.
Qed.

End SmoothFacts.

Section SmoothGeometry.
Variables (m : Image3D) (imgs : list ImageObj) (W H : nat).
Hypothesis Hstyle : geometryStyle_ m = GeometryStyle_Smooth.
Hypothesis Hwidth : heightmapWidth_ m = Some W.
Hypothesis Hheight : heightmapHeight_ m = Some H.
Hypothesis HW : 1 <= W.
Hypothesis HH : 1 <= H.

Lemma createHeightmapGeometry_smooth (d : HeightData) (g : Geometry)
    (o : VerticesOwner) (cf : bool) :
  createHeightmapGeometry_ m imgs (Some d) g o cf
  = createSmoothGeometry_ m g o (Some d) cf.
Proof. unfold createHeightmapGeometry_. rewrite Hstyle. reflexivity. Qed.

(** Primary build: vertices, faces and UVs. *)
Lemma createSmoothGeometry_primary (g : Geometry) (d : HeightData) :
  exists g', createSmoothGeometry_ m g OwnGeometry (Some d) true = Done (g', OwnGeometry)
    /\ full_array (W * H) (vertices g')
    /\ full_array (2 * (W - 1) * (H - 1)) (faces g')
    /\ full_array (2 * (W - 1) * (H - 1)) (faceVertexUvs0 g')
    /\ morphTargets g' = morphTargets g.
Proof.
  unfold createSmoothGeometry_. rewrite Hwidth, Hheight.
  rewrite new_Array_nonneg by lia. cbn [rbind].
  destruct (smooth_vertex_loop_spec m d W H
              (Num.one / Num.of_Z (Z.of_nat W - 1))%num
              (Num.one / Num.of_Z (Z.of_nat H - 1))%num
              (replicate (Z.to_nat (Z.of_nat W * Z.of_nat H)) None))
    as (vs & pix & -> & Hl & Hd).
  { rewrite length_replicate. lia. }
  cbn [set_owner_vertices]. rewrite !new_Array_nonneg by nia. cbn [rbind].
  match goal with |- context [smooth_face_loop W H ?iw ?ih ?f0 ?u0] =>
    destruct (smooth_face_loop_spec W H iw ih f0 u0)
      as (Hf & Hu & _ & Hdf & Hdu) end.
  { rewrite length_replicate. nia. }
  { rewrite length_replicate. nia. }
  eexists. split; [reflexivity|]. simpl. repeat split; done.
Qed.

(** Vertex-only build into a morph target. *)
Lemma createSmoothGeometry_target (g : Geometry) (t : MorphTarget) (d : HeightData) :
  exists vs, createSmoothGeometry_ m g (OwnTarget t) (Some d) false
             = Done (g, OwnTarget (mkMorphTarget (mt_name t) vs))
    /\ full_array (W * H) vs.
Proof.
  unfold createSmoothGeometry_. rewrite Hwidth, Hheight.
  rewrite new_Array_nonneg by lia. cbn [rbind].
  destruct (smooth_vertex_loop_spec m d W H
              (Num.one / Num.of_Z (Z.of_nat W - 1))%num
              (Num.one / Num.of_Z (Z.of_nat H - 1))%num
              (replicate (Z.to_nat (Z.of_nat W * Z.of_nat H)) None))
    as (vs & pix & -> & Hl & Hd).
  { rewrite length_replicate. lia. }
  simpl. exists vs. split; [done|]. by split.
Qed.

(** One round of the morph-target loop. *)
Lemma add_morph_target_smooth (i : nat) (g : Geometry) :
  full_array (W * H) (vertices g) ->
  (i = 0 \/ arr_get i (heightmaps_ m) = None \/ is_Some (arr_get i (heightmapData_ m))) ->
  exists t, add_morph_target m imgs i g
            = Done (mkGeometry (vertices g) (faces g) (faceVertexUvs0 g)
                      (morphTargets g ++ [t]))
    /\ full_array (W * H) (mt_vertices t).
Proof.
  intros Hv Hi. unfold add_morph_target.
  destruct (bool_decide (arr_get i (heightmaps_ m) = None) || (i =? 0)) eqn:E.
  - simpl. eexists. split; [reflexivity|]. done.
  - apply orb_false_iff in E as [E1 E2].
    apply bool_decide_eq_false in E1. apply Nat.eqb_neq in E2.
    destruct Hi as [?|[?|[d Hd]]]; [done|done|].
    rewrite Hd, createHeightmapGeometry_smooth.
    destruct (createSmoothGeometry_target g (mkMorphTarget ("target" ++ pretty i) []) d)
      as (vs & -> & Hvs).
    cbn [rbind mt_name]. eexists. split; [reflexivity|]. done.
Qed.

(** [build_geometry] in smooth style: the counts of the claim. *)
Lemma build_geometry_smooth :
  is_Some (arr_get 0 (heightmapData_ m)) ->
  targets_ready m = true ->
  exists g, build_geometry m imgs = Done g
    /\ full_array (W * H) (vertices g)
    /\ full_array (2 * (W - 1) * (H - 1)) (faces g)
    /\ length (morphTargets g) = 4
    /\ Forall (fun t => full_array (W * H) (mt_vertices t)) (morphTargets g).
Proof.
  intros [d0 Hd0] Hready. unfold build_geometry.
  rewrite Hd0, createHeightmapGeometry_smooth.
  destruct (createSmoothGeometry_primary new_Geometry d0)
    as (g0 & -> & Hv & Hf & _ & Hmt).
  cbn [rbind]. rewrite Hstyle.
  change (negb (String.eqb GeometryStyle_Smooth GeometryStyle_Block)) with true.
  rewrite orb_true_r. cbn [rassert rbind seq foldl].
  unfold targets_ready in Hready. simpl in Hready.
  rewrite !andb_true_iff in Hready. destruct Hready as (R1 & R2 & R3 & _).
  assert (Hslot : forall i, i = 1 \/ i = 2 \/ i = 3 ->
    i = 0 \/ arr_get i (heightmaps_ m) = None \/ is_Some (arr_get i (heightmapData_ m))).
  { intros i Hi. right.
    assert (Hb : implb (bool_decide (is_Some (arr_get i (heightmaps_ m))))
                   (bool_decide (is_Some (arr_get i (heightmapData_ m)))) = true)
      by (destruct Hi as [->|[->| ->]]; done).
    destruct (arr_get i (heightmaps_ m)) eqn:Eh; [|by left].
    right. rewrite bool_decide_eq_true_2 in Hb by done. simpl in Hb.
    by apply bool_decide_eq_true in Hb. }
  destruct (add_morph_target_smooth 0 g0 Hv) as (t0 & E0 & Ht0); [by left|].
  rewrite E0. cbn [rbind].
  match goal with |- context [add_morph_target m imgs 1 ?g] =>
    destruct (add_morph_target_smooth 1 g Hv) as (t1 & E1 & Ht1);
      [apply Hslot; tauto|]; rewrite E1; cbn [rbind] end.
  match goal with |- context [add_morph_target m imgs 2 ?g] =>
    destruct (add_morph_target_smooth 2 g Hv) as (t2 & E2 & Ht2);
      [apply Hslot; tauto|]; rewrite E2; cbn [rbind] end.
  match goal with |- context [add_morph_target m imgs 3 ?g] =>
    destruct (add_morph_target_smooth 3 g Hv) as (t3 & E3 & Ht3);
      [apply Hslot; tauto|]; rewrite E3; cbn [rbind] end.
  eexists. split; [reflexivity|]. unfold computeNormals_. cbn.
  rewrite Hmt. cbn. split; [done|]. split; [done|]. split; [done|].
  repeat (apply List.Forall_cons; [assumption|]). apply List.Forall_nil.
Qed.

End SmoothGeometry.

(** C1.  For a W x H heightmap with W, H >= 2, building the geometry in
    smooth style succeeds and gives exactly [W * H] vertices and exactly
    [2 * (W - 1) * (H - 1)] faces, none of them a hole; each of the four
    morph targets appended afterwards, reused or rebuilt from another
    slot's data, has exactly [W * H] vertices. *)
Theorem smooth_topology (numToString : JSNum -> string) (w : World)
    (W H : nat) (d0 : HeightData) :
  geometryStyle_ (this w) = GeometryStyle_Smooth ->
  heightmapWidth_ (this w) = Some W ->
  heightmapHeight_ (this w) = Some H ->
  2 <= W -> 2 <= H ->
  arr_get 0 (heightmapData_ (this w)) = Some d0 ->
  targets_ready (this w) = true ->
  cache_has (geometry_key numToString (this w)) w = false ->
  exists w' g,
    createGeometry_ numToString w = Ok tt w'
    /\ geometry_ (this w') = Some (PGeometry g)
    /\ full_array (W * H) (vertices g)
    /\ full_array (2 * (W - 1) * (H - 1)) (faces g)
    /\ length (morphTargets g) = 4
    /\ Forall (fun t => full_array (W * H) (mt_vertices t)) (morphTargets g).
Proof.
  intros Hstyle Hw Hh HW HH Hd0 Hready Hmiss.
  set (key := geometry_key numToString (this w)) in *.
  destruct (build_geometry_smooth (set_geometryKey_ key (this w)) (images w) W H
              Hstyle Hw Hh)
    as (g & Hbuild & Hv & Hf & Hn & Hmt); [lia|lia|by eexists|done|].
  unfold cache_has in Hmiss. apply bool_decide_eq_false in Hmiss.
  assert (Hnone : cache w !! key = None).
  { destruct (cache w !! key) eqn:E; [|done]. exfalso. apply Hmiss. by eexists. }
  eexists _, g. split.
  - unfold createGeometry_, bind, gets, modify_this, modify, lift, cache_set,
      cache_has.
    cbn -[build_geometry geometry_key]. fold key.
    rewrite bool_decide_eq_false_2 by (rewrite Hnone; by intros [? ?]).
    unfold set_this at 1 2. cbn [this images].
    rewrite Hbuild. unfold set_this at 1. cbn [cache]. rewrite Hnone. reflexivity.
  - split; [reflexivity|]. split; [exact Hv|]. split; [exact Hf|].
    split; [exact Hn|exact Hmt].
Qed.

Lemma smooth_topology_witness :
  exists w' g,
    createGeometry_ print_num (world_of example_loaded) = Ok tt w'
    /\ geometry_ (this w') = Some (PGeometry g)
    /\ full_array (2 * 2) (vertices g)
    /\ full_array (2 * (2 - 1) * (2 - 1)) (faces g)
    /\ length (morphTargets g) = 4
    /\ Forall (fun t => full_array (2 * 2) (mt_vertices t)) (morphTargets g).
Proof.
  apply (smooth_topology print_num (world_of example_loaded) 2 2
           (DPixels example_pixels)); try reflexivity; lia.
Defined.

(* ================================================================= *)
(** ** Block culling *)

Lemma Num_gt_irrefl (a : JSNum) : Num.gt a a = false.
Proof.
  destruct a as [q| | |]; try reflexivity. simpl.
  by rewrite (proj1 (Qceq_alt q q) eq_refl).
Qed.

Section BlockFacts.
Variables (m : Image3D) (data : HeightData) (W H : nat).

(** The table of depths holds the depth of texel [(x, y)] at [[y][x]]. *)
Lemma block_depths_spec (y x : nat) :
  y < H -> x < W ->
  depth_read (block_depths m data W H) y x = getDepth_ m data (4 * (y * W + x)).
Proof.
  intros Hy Hx. unfold block_depths.
  pose (P := fun (k : nat) (st : list (list JSNum) * nat) =>
    st.2 = 4 * (k * W) /\ length st.1 = k /\
    forall y' x', y' < k -> x' < W ->
      depth_read st.1 y' x' = getDepth_ m data (4 * (y' * W + x'))).
  match goal with |- context [for_range H ?b ?s] =>
    assert (HP : P H (for_range H b s)) end.
  { apply for_range_ind.
    - repeat split; simpl; first [lia | intros; lia].
    - intros k [depths i] Hk (Hi & Hl & Hread). simpl in Hi, Hl, Hread. subst i.
      pose (Q := fun (j : nat) (st : list JSNum * nat) =>
        st.2 = 4 * (k * W + j) /\ length st.1 = j /\
        forall x', x' < j -> st.1 !! x' = Some (getDepth_ m data (4 * (k * W + x')))).
      match goal with |- context [for_range W ?b ?s] =>
        assert (HQ : Q W (for_range W b s)) end.
      { apply for_range_ind.
        - repeat split; simpl; first [lia | intros; lia].
        - intros j [line i] Hj (Hi & Hl' & Hline). simpl in Hi, Hl', Hline. subst i.
          repeat split; simpl.
          + lia.
          + rewrite length_app. simpl. lia.
          + intros x' Hx'. destruct (decide (x' = j)) as [->|Hne].
            * rewrite lookup_app_r by lia. rewrite Hl', Nat.sub_diag. done.
            * rewrite lookup_app_l by lia. apply Hline. lia. }
      destruct (for_range W _ _) as [line i]. destruct HQ as (Hi & Hl' & Hline).
      simpl in Hi, Hl', Hline. subst i. repeat split; simpl.
      + lia.
      + rewrite length_app. simpl. lia.
      + intros y' x' Hy' Hx'. unfold depth_read.
        destruct (decide (y' = k)) as [->|Hne].
        * rewrite lookup_app_r by lia. rewrite Hl, Nat.sub_diag. simpl.
          by rewrite Hline.
        * rewrite lookup_app_l by lia. apply Hread; lia. }
  destruct HP as (_ & _ & Hread). by apply Hread.
Qed.

End BlockFacts.

(** A side whose neighbour is not strictly lower adds nothing. *)
Lemma block_side_culled (cf : bool) (depth neighbour : JSNum) (p1 p2 : Vector3)
    (mk : nat -> Face3 * Face3) (t1 t2 : FaceUvs) (s : BlockState) :
  Num.gt depth neighbour = false ->
  block_side cf depth neighbour p1 p2 mk t1 t2 s = s.
Proof. unfold block_side. by intros ->. Qed.

(** A side whose neighbour is strictly lower adds two faces. *)
Lemma block_side_emitted (depth neighbour : JSNum) (p1 p2 : Vector3)
    (mk : nat -> Face3 * Face3) (t1 t2 : FaceUvs) (s : BlockState) :
  Num.gt depth neighbour = true ->
  bs_faceIdx (block_side true depth neighbour p1 p2 mk t1 t2 s) = bs_faceIdx s + 2.
Proof.
  unfold block_side. intros ->. cbn. by destruct (mk (bs_v s)).
Qed.

(** The number of faces one column adds: two for the front and two for
    every side with a strictly lower neighbour. *)
Lemma block_column_faceIdx (depths : list (list JSNum)) (W H : nat)
    (iw ih wr hr itw ith : JSNum) (y x : nat) (s : BlockState) :
  let depth := depth_read depths y x in
  let lower (inside : bool) (y' x' : nat) : nat :=
    Nat.b2n (Num.gt depth (if inside then depth_read depths y' x' else Num.zero)) in
  bs_faceIdx (block_column true depths W H iw ih wr hr itw ith y x s)
  = bs_faceIdx s + 2
    + 2 * (lower (0 <? x) y (x - 1) + lower (x <? W - 1) y (x + 1)
           + lower (0 <? y) (y - 1) x + lower (y <? H - 1) (y + 1) x).
Proof.
  intros depth lower. unfold block_column. fold depth.
  set (dL := if 0 <? x then _ else _). set (dR := if x <? W - 1 then _ else _).
  set (dT := if 0 <? y then _ else _). set (dB := if y <? H - 1 then _ else _).
  assert (Hside : forall nb p1 p2 mk t1 t2 s',
    bs_faceIdx (block_side true depth nb p1 p2 mk t1 t2 s')
    = bs_faceIdx s' + 2 * Nat.b2n (Num.gt depth nb)).
  { intros. destruct (Num.gt depth nb) eqn:E.
    - rewrite block_side_emitted by done. simpl. lia.
    - rewrite block_side_culled by done. simpl. lia. }
  rewrite !Hside. cbn [block_push_vertices block_push_faces block_add_v foldl
                        bs_faceIdx].
  unfold lower. fold dL dR dT dB. lia.
Qed.

Section BlockFlat.
Variables (m : Image3D) (data : HeightData) (W H : nat) (d : JSNum).
Variables (iw ih wr hr itw ith : JSNum).
Hypothesis HW : 1 <= W.
Hypothesis HH : 1 <= H.
Hypothesis Hflat : forall i, i < W * H -> getDepth_ m data (4 * i) = d.

Let depths := block_depths m data W H.
Let k := Nat.b2n (Num.gt d Num.zero).

Lemma flat_depth_read (y x : nat) : y < H -> x < W -> depth_read depths y x = d.
Proof.
  intros Hy Hx. unfold depths. rewrite block_depths_spec by done.
  apply Hflat. nia.
Qed.

(** In a flat heightmap a column gets a side only on the border of the
    image, and only when the common depth is above 0. *)
Lemma flat_column_faceIdx (y x : nat) (s : BlockState) :
  y < H -> x < W ->
  bs_faceIdx (block_column true depths W H iw ih wr hr itw ith y x s)
  = bs_faceIdx s + 2
    + 2 * k * (Nat.b2n (negb (0 <? x)) + Nat.b2n (negb (x <? W - 1))
               + Nat.b2n (negb (0 <? y)) + Nat.b2n (negb (y <? H - 1))).
Proof.
  intros Hy Hx. rewrite block_column_faceIdx. cbv zeta.
  rewrite (flat_depth_read y x) by done.
  assert (Hin : forall (b : bool) y' x', (b = true -> y' < H /\ x' < W) ->
    Nat.b2n (Num.gt d (if b then depth_read depths y' x' else Num.zero))
    = k * Nat.b2n (negb b)).
  { intros [|] y' x' Hb; simpl.
    - destruct Hb as [? ?]; [done|]. rewrite flat_depth_read by done.
      rewrite Num_gt_irrefl. simpl. lia.
    - unfold k. lia. }
  rewrite !Hin; [lia| | | |].
  - intros E%Nat.ltb_lt. lia.
  - intros E%Nat.ltb_lt. lia.
  - intros E%Nat.ltb_lt. lia.
  - intros E%Nat.ltb_lt. lia.
Qed.

(** The face counter after the whole column loop. *)
Lemma flat_loop_faceIdx (s0 : BlockState) :
  bs_faceIdx
    (for_range H (fun y s =>
       for_range W (block_column true depths W H iw ih wr hr itw ith y) s) s0)
  = bs_faceIdx s0 + 2 * W * H + k * 4 * (W + H).
Proof.
  pose (P := fun (y : nat) (s : BlockState) =>
    bs_faceIdx s = bs_faceIdx s0 + 2 * W * y
      + k * (4 * y + 2 * W * Nat.b2n (0 <? y) + 2 * W * Nat.b2n (H <=? y))).
  match goal with |- bs_faceIdx (for_range H ?b ?s) = _ =>
    assert (HP : P H (for_range H b s)) end.
  { apply for_range_ind.
    - unfold P. simpl. destruct (Nat.leb_spec H 0); [lia|]. simpl. lia.
    - intros y s Hy HPy. unfold P in HPy.
      pose (Q := fun (x : nat) (s' : BlockState) =>
        bs_faceIdx s' = bs_faceIdx s + 2 * x
          + k * (2 * Nat.b2n (0 <? x) + 2 * Nat.b2n (W <=? x)
                 + 2 * x * Nat.b2n (negb (0 <? y))
                 + 2 * x * Nat.b2n (negb (y <? H - 1)))).
      match goal with |- P _ (for_range W ?b ?s) =>
        assert (HQ : Q W (for_range W b s)) end.
      { apply for_range_ind.
        - unfold Q. simpl. destruct (Nat.leb_spec W 0); [lia|]. simpl. lia.
        - intros x s' Hx HQx. unfold Q in *.
          rewrite flat_column_faceIdx by done. rewrite HQx.
          destruct (Nat.ltb_spec 0 x), (Nat.ltb_spec 0 (x + 1)),
            (Nat.leb_spec W x), (Nat.leb_spec W (x + 1)),
            (Nat.ltb_spec x (W - 1)), (Nat.ltb_spec 0 y),
            (Nat.ltb_spec y (H - 1)); simpl; try lia. }
      unfold P, Q in *. rewrite HQ, HPy.
      destruct (Nat.ltb_spec 0 y), (Nat.ltb_spec 0 (y + 1)),
        (Nat.leb_spec H y), (Nat.leb_spec H (y + 1)),
        (Nat.ltb_spec y (H - 1)), (Nat.ltb_spec 0 W), (Nat.leb_spec W W);
        simpl; try lia. }
  unfold P in HP. rewrite HP.
  destruct (Nat.ltb_spec 0 H), (Nat.leb_spec H H); simpl; try lia.
Qed.

End BlockFlat.

Lemma length_arr_set_length {A} (n : nat) (a : JSArray A) :
  length (arr_set_length n a) = n.
Proof.
  unfold arr_set_length. rewrite length_app, length_take, length_replicate. lia.
Qed.

(** Closes an equation between concrete numbers. *)
Ltac num_eq :=
  vm_compute;
  repeat match goal with
         | |- Fin _ = Fin _ => f_equal; apply Qc_is_canon; reflexivity
         | |- _ => reflexivity
         end.

(** C2, counterexample.  A flat 2x2 heightmap of white texels (depth 200)
    gives 24 faces in block style, not [2 * 2 * 2]: every column stands on
    the border of the image and gets side quads there. *)
Lemma block_culling_counterexample :
  (forall i, i < 2 * 2 ->
     getDepth_ white_block_model (DPixels white_pixels) (4 * i) = Num.of_Z 200)
  /\ exists g,
       createBlockGeometry_ white_block_model example_images new_Geometry
         OwnGeometry (Some (DPixels white_pixels)) true = Done (g, OwnGeometry)
       /\ length (faces g) = 24
       /\ length (faces g) <> 2 * 2 * 2.
Proof.
  split.
  - intros i Hi. do 4 (destruct i as [|i]; [num_eq|]). lia.
  - eexists. split; [vm_compute; reflexivity|]. split; [reflexivity|].
    vm_compute. discriminate.
Qed.

(* ================================================================= *)
(** ** Arithmetic of the numbers *)

Lemma Qc_compare_Q2Qc (a b : Q) : (Q2Qc a ?= Q2Qc b)%Qc = (a ?= b)%Q.
Proof.
  unfold Qccompare, Q2Qc. simpl.
  by rewrite (Qcompare_comp _ _ (Qred_correct a) _ _ (Qred_correct b)).
Qed.


Lemma Num_of_Z_sub (a b : Z) : Num.sub (Num.of_Z a) (Num.of_Z b) = Num.of_Z (a - b).
Proof.
  unfold Num.of_Z, Num.sub. simpl. f_equal. apply Qc_is_canon. simpl.
  rewrite !Qred_correct. unfold Z.sub. rewrite inject_Z_plus, inject_Z_opp.
  reflexivity.
Qed.

Lemma Num_sub_zero (a : JSNum) : Num.sub a Num.zero = a.
Proof.
  destruct a as [q| | |]; try reflexivity.
  unfold Num.sub, Num.zero, Num.of_Z. simpl. f_equal.
  change (Q2Qc (inject_Z 0)) with 0%Qc. ring.
Qed.

(** A positive number over zero is [+Infinity]; zero over zero is [NaN]. *)
Lemma Num_div_zero (z : Z) :
  Num.div (Num.of_Z z) Num.zero
  = match z with Z0 => NaN | Zpos _ => PInf | Zneg _ => NInf end.
Proof.
  unfold Num.div, Num.of_Z, Num.zero, Num.of_Z.
  rewrite !Qc_compare_Q2Qc. change (inject_Z 0 ?= inject_Z 0)%Q with Eq.
  unfold Num.inf_of_sign. by destruct z.
Qed.

(** [PInf > 1], and [NaN] is above nothing. *)
Lemma Num_gt_PInf_one : Num.gt PInf Num.one = true.
Proof. reflexivity. Qed.

Lemma Num_gt_NaN (a : JSNum) : Num.gt NaN a = false.
Proof. reflexivity. Qed.

(** Interpolation half way is the arithmetic mean. *)
Lemma lerp_half (s e : JSNum) :
  Num.add (Num.mul s (Num.sub Num.one Num.half)) (Num.mul e Num.half)
  = Num.div (Num.add s e) (Num.of_Z 2).
Proof.
  assert (Hh : Num.sub Num.one Num.half = Num.half) by num_eq.
  rewrite Hh.
  destruct s as [x| | |], e as [y| | |]; try reflexivity.
  unfold Num.div, Num.add, Num.mul, Num.half, Num.of_Z.
  change ((Q2Qc (inject_Z 2) ?= 0)%Qc) with Gt.
  f_equal. apply Qc_is_canon. destruct x as [x Hx], y as [y Hy].
  unfold Qcdiv, Qcmult, Qcplus, Qcinv, Q2Qc. cbn [Qcanon.this].
  rewrite !Qred_correct. change (inject_Z 2) with 2%Q. field.
Qed.

(** The running time of a resumed morph: the time before the pause plus
    the time since the resumption. *)
Lemma resume_elapsed (start : JSNum) (p r now : Z) :
  Num.sub (Num.of_Z now) (Num.sub (Num.of_Z r) (Num.sub (Num.of_Z p) start))
  = Num.add (Num.sub (Num.of_Z p) start) (Num.sub (Num.of_Z now) (Num.of_Z r)).
Proof.
  destruct start as [s| | |]; try reflexivity.
  unfold Num.sub, Num.of_Z. simpl. f_equal. ring.
Qed.

(* ================================================================= *)
(** ** Morph animator *)

(** Pushing a weight vector reaches every mesh and changes nothing else but
    the dirty marks. *)
Lemma push_influences (influences : JSArray JSNum) (w : World) :
  exists w' es,
    push_targets influences w = Ok tt w'
    /\ this w' = this w
    /\ cache w' = cache w
    /\ images w' = images w
    /\ trace w' = trace w ++ es
    /\ only_dirty es
    /\ pushed w' influences.
Proof.
  unfold push_targets. destruct w as [m [tex me vg vk mat vl] sv c imgs tr].
  assert (Hd : forall which, exists which', EDirty which = EDirty which')
    by (intros; by eexists).
  destruct me as [mesh|], sv as [[stex [smesh|] svg svk smat svl]|];
    (eexists _, _; split; [reflexivity|]; cbn;
     split; [reflexivity|]; split; [reflexivity|]; split; [reflexivity|];
     split; [first [ rewrite <- app_assoc; reflexivity
                   | reflexivity
                   | symmetry; apply app_nil_r ]|];
     split;
     [ unfold only_dirty; repeat apply List.Forall_cons; try apply List.Forall_nil;
       apply Hd
     | intros [|] x mesh' Hx Hm; cbn in *; simplify_eq; cbn in *; simplify_eq;
       reflexivity ]).
Qed.

(** The interpolation loop over four components. *)
Lemma lerp_targets_4 (time : JSNum) (m : Image3D) (s0 s1 s2 s3 e0 e1 e2 e3 : JSNum) :
  startMorphTargets_ m = arr_of [s0; s1; s2; s3] ->
  endMorphTargets_ m = arr_of [e0; e1; e2; e3] ->
  length (currentMorphTargets_ m) = 4 ->
  let mix s e := (s * (Num.one - time) + e * time)%num in
  lerp_targets time m
  = set_currentMorphTargets_
      (arr_of [mix s0 e0; mix s1 e1; mix s2 e2; mix s3 e3]) m.
Proof.
  intros Hs He Hc mix. unfold lerp_targets. rewrite He.
  destruct m; cbn in *. subst.
  destruct currentMorphTargets_0 as [|c0 [|c1 [|c2 [|c3 [|]]]]]; try discriminate.
  reflexivity.
Qed.

(** The morph step of a tick, in a world that is morphing. *)
Lemma update_morph_tick (now : Z) (w : World) (s0 s1 s2 s3 e0 e1 e2 e3 : JSNum) :
  morphing_ (this w) = true ->
  startMorphTargets_ (this w) = arr_of [s0; s1; s2; s3] ->
  endMorphTargets_ (this w) = arr_of [e0; e1; e2; e3] ->
  length (currentMorphTargets_ (this w)) = 4 ->
  let t := ((Num.of_Z now - morphStartTime_ (this w)) / morphDuration_ (this w))%num in
  let mix s e := (s * (Num.one - t) + e * t)%num in
  exists w' es,
    update_morph now w = Ok tt w'
    /\ only_dirty es
    /\ endMorphTargets_ (this w') = endMorphTargets_ (this w)
    /\ if Num.gt t Num.one then
         currentMorphTargets_ (this w') = endMorphTargets_ (this w)
         /\ startMorphTargets_ (this w') = endMorphTargets_ (this w)
         /\ morphing_ (this w') = false
         /\ pushed w' (endMorphTargets_ (this w))
         /\ trace w' = trace w ++ es ++ [EDispatch "morphEnd"]
       else
         currentMorphTargets_ (this w')
           = arr_of [mix s0 e0; mix s1 e1; mix s2 e2; mix s3 e3]
         /\ startMorphTargets_ (this w') = startMorphTargets_ (this w)
         /\ morphing_ (this w') = true
         /\ pushed w' (currentMorphTargets_ (this w'))
         /\ trace w' = trace w ++ es.
Proof.
  intros Hm Hs He Hc t mix.
  unfold update_morph, bind, gets. rewrite Hm. fold t.
  destruct (Num.gt t Num.one) eqn:Ht.
  - unfold modify_this, modify, dispatch, emit, arr_slice0. cbn -[push_targets].
    match goal with |- context [push_targets ?i ?w1] =>
      destruct (push_influences i w1) as (w2 & es & -> & Hthis & _ & _ & Htr & Hd & Hp)
    end.
    eexists _, es. split; [reflexivity|]. split; [done|]. cbn.
    rewrite Hthis. cbn. repeat split.
    + intros which x mesh Hx Hmesh. apply (Hp which x mesh); [|done].
      destruct which; exact Hx.
    + rewrite Htr. cbn. by rewrite app_assoc.
  - unfold modify_this, modify. cbn -[push_targets lerp_targets].
    rewrite (lerp_targets_4 t (this w) s0 s1 s2 s3 e0 e1 e2 e3) by done.
    match goal with |- context [push_targets ?i ?w1] =>
      destruct (push_influences i w1) as (w2 & es & -> & Hthis & _ & _ & Htr & Hd & Hp)
    end.
    eexists _, es. split; [reflexivity|]. split; [done|].
    rewrite Hthis. cbn. repeat split; done.
Qed.

(** [setImageSrc] leaves the animator and the views alone. *)
Lemma setImageSrc_frame (getAbsoluteUrl_ : string -> string) (imageSrc : string)
    (w w1 : World) :
  setImageSrc getAbsoluteUrl_ imageSrc w = Ok tt w1 ->
  same_animator (this w) (this w1)
  /\ loaded (this w1) = loaded (this w)
  /\ view w1 = view w
  /\ stencilView w1 = stencilView w.
Proof.
  unfold setImageSrc, bind, assert_, gets, modify_this, modify, when, dispatch,
    emit, ret, throw.
  destruct (negb (String.eqb imageSrc EmptyString)); [|discriminate].
  destruct (bool_decide (imageSrc_ (this w) = Some (getAbsoluteUrl_ imageSrc))).
  { intros [= <-]. by repeat split. }
  cbn.
  destruct (String.eqb (toLowerCase (tagName (element_ (this w)))) "img");
    destruct (bool_decide (is_Some (imageSrc_ (this w))));
    intros [= <-]; by repeat split.
Qed.

Lemma sync_image_frame (getAbsoluteUrl_ : string -> string) (w w1 : World) :
  sync_image getAbsoluteUrl_ w = Ok tt w1 ->
  same_animator (this w) (this w1)
  /\ loaded (this w1) = loaded (this w)
  /\ view w1 = view w
  /\ stencilView w1 = stencilView w.
Proof.
  unfold sync_image, bind, gets, when.
  destruct (_ && _).
  - apply setImageSrc_frame.
  - intros [= <-]. by repeat split.
Qed.

(** Pushing a weight vector puts it on every mesh there is, marks those
    views dirty and changes nothing else. *)
Lemma push_influences_exact (influences : JSArray JSNum) (w : World) :
  exists w',
    push_targets influences w = Ok tt w'
    /\ this w' = this w
    /\ cache w' = cache w
    /\ images w' = images w
    /\ pushed_to_views w w' influences
    /\ trace w' = trace w ++ dirty_marks w.
Proof.
  unfold push_targets, pushed_to_views, dirty_marks, push_view.
  destruct w as [m [tex me vg vk mat vl] sv c imgs tr].
  destruct me as [mesh|], sv as [[stex [smesh|] svg svk smat svl]|];
    (eexists; split; [reflexivity|]; cbn;
     repeat split; rewrite <- ?app_assoc, ?app_nil_r; reflexivity).
Qed.

(** The morph step of a tick, in a world that is morphing, with the views
    and the trace it leaves. *)
Lemma update_morph_tick_exact (now : Z) (w : World)
    (s0 s1 s2 s3 e0 e1 e2 e3 : JSNum) :
  morphing_ (this w) = true ->
  startMorphTargets_ (this w) = arr_of [s0; s1; s2; s3] ->
  endMorphTargets_ (this w) = arr_of [e0; e1; e2; e3] ->
  length (currentMorphTargets_ (this w)) = 4 ->
  let t := ((Num.of_Z now - morphStartTime_ (this w)) / morphDuration_ (this w))%num in
  let mix s e := (s * (Num.one - t) + e * t)%num in
  exists w',
    update_morph now w = Ok tt w'
    /\ endMorphTargets_ (this w') = endMorphTargets_ (this w)
    /\ cache w' = cache w
    /\ images w' = images w
    /\ if Num.gt t Num.one then
         currentMorphTargets_ (this w') = endMorphTargets_ (this w)
         /\ startMorphTargets_ (this w') = endMorphTargets_ (this w)
         /\ morphing_ (this w') = false
         /\ pushed_to_views w w' (endMorphTargets_ (this w))
         /\ trace w' = trace w ++ dirty_marks w ++ [EDispatch "morphEnd"]
       else
         currentMorphTargets_ (this w')
           = arr_of [mix s0 e0; mix s1 e1; mix s2 e2; mix s3 e3]
         /\ startMorphTargets_ (this w') = startMorphTargets_ (this w)
         /\ morphing_ (this w') = true
         /\ pushed_to_views w w' (currentMorphTargets_ (this w'))
         /\ trace w' = trace w ++ dirty_marks w.
Proof.
  intros Hm Hs He Hc t mix.
  unfold update_morph, bind, gets. rewrite Hm. fold t.
  destruct (Num.gt t Num.one) eqn:Ht.
  - unfold modify_this, modify, dispatch, emit, arr_slice0. cbn -[push_targets].
    match goal with |- context [push_targets ?i ?w1] =>
      destruct (push_influences_exact i w1)
        as (w2 & -> & Hthis & Hcache & Himgs & [Hv Hsv] & Htr)
    end.
    eexists. split; [reflexivity|]. cbn.
    rewrite Hthis. cbn. destruct w as [m v sv c imgs tr]. cbn in *.
    repeat split; try done. rewrite Htr. by rewrite <- app_assoc.
  - unfold modify_this, modify. cbn -[push_targets lerp_targets].
    rewrite (lerp_targets_4 t (this w) s0 s1 s2 s3 e0 e1 e2 e3) by done.
    match goal with |- context [push_targets ?i ?w1] =>
      destruct (push_influences_exact i w1)
        as (w2 & -> & Hthis & Hcache & Himgs & [Hv Hsv] & Htr)
    end.
    eexists. split; [reflexivity|].
    rewrite Hthis. destruct w as [m v sv c imgs tr]. cbn in *.
    repeat split; done.
Qed.

(** C3.  While morphing, a tick of [update] computes
    [t = (now - morphStartTime_) / morphDuration_].  If [t > 1] the current
    weights become exactly the end vector, which is also copied into the
    start vector, morphing stops, the end vector is pushed to the views and
    [morphEnd] is dispatched.  Otherwise each of the four current weights
    becomes [start[i] * (1 - t) + end[i] * t] and the current weights are
    pushed; at [t = 1/2] this is the mean of start and end.  Pushing puts
    the weights on the mesh of each view that has one, leaves the rest of
    the views as it was and marks exactly those views dirty, before
    [morphEnd]. *)
Theorem update_tick (getAbsoluteUrl_ : string -> string) (now : Z) (w w1 : World)
    (s0 s1 s2 s3 e0 e1 e2 e3 : JSNum) :
  loaded (this w) = true ->
  morphing_ (this w) = true ->
  sync_image getAbsoluteUrl_ w = Ok tt w1 ->
  startMorphTargets_ (this w) = arr_of [s0; s1; s2; s3] ->
  endMorphTargets_ (this w) = arr_of [e0; e1; e2; e3] ->
  length (currentMorphTargets_ (this w)) = 4 ->
  let t := ((Num.of_Z now - morphStartTime_ (this w)) / morphDuration_ (this w))%num in
  let mix s e := (s * (Num.one - t) + e * t)%num in
  let mean s e := ((s + e) / Num.of_Z 2)%num in
  exists w',
    update getAbsoluteUrl_ now w = Ok tt w'
    /\ endMorphTargets_ (this w') = endMorphTargets_ (this w)
    /\ if Num.gt t Num.one then
         currentMorphTargets_ (this w') = endMorphTargets_ (this w)
         /\ startMorphTargets_ (this w') = endMorphTargets_ (this w)
         /\ morphing_ (this w') = false
         /\ pushed_to_views w w' (endMorphTargets_ (this w))
         /\ trace w' = trace w1 ++ dirty_marks w ++ [EDispatch "morphEnd"]
       else
         currentMorphTargets_ (this w')
           = arr_of [mix s0 e0; mix s1 e1; mix s2 e2; mix s3 e3]
         /\ startMorphTargets_ (this w') = startMorphTargets_ (this w)
         /\ morphing_ (this w') = true
         /\ pushed_to_views w w' (currentMorphTargets_ (this w'))
         /\ trace w' = trace w1 ++ dirty_marks w
         /\ (t = Num.half ->
             currentMorphTargets_ (this w')
             = arr_of [mean s0 e0; mean s1 e1; mean s2 e2; mean s3 e3]).
Proof.
  intros Hl Hm Hsync Hs He Hc t mix mean.
  destruct (sync_image_frame _ _ _ Hsync)
    as ((F1 & F2 & F3 & F4 & F5 & F6 & F7) & _ & Fv & Fsv).
  destruct (update_morph_tick_exact now w1 s0 s1 s2 s3 e0 e1 e2 e3)
    as (w' & Hrun & Hend & _ & _ & Hcases);
    [congruence | congruence | congruence | congruence |].
  rewrite F2, F3, F7 in Hcases. fold t in Hcases. rewrite F5 in Hcases.
  assert (Hmarks : dirty_marks w1 = dirty_marks w)
    by (unfold dirty_marks; by rewrite Fv, Fsv).
  assert (Hpush : forall i, pushed_to_views w1 w' i -> pushed_to_views w w' i)
    by (unfold pushed_to_views; intros i; by rewrite Fv, Fsv).
  rewrite Hmarks in Hcases.
  exists w'. split.
  { unfold update, bind, gets. rewrite Hl. cbn -[sync_image update_morph].
    rewrite Hsync. exact Hrun. }
  split; [congruence|].
  destruct (Num.gt t Num.one).
  - destruct Hcases as (C1 & C2 & C3 & C4 & C5). repeat split; try done.
    + apply Hpush. apply C4.
    + apply Hpush. apply C4.
  - destruct Hcases as (C1 & C2 & C3 & C4 & C5).
    repeat split; try done.
    + apply Hpush. apply C4.
    + apply Hpush. apply C4.
    + intros Hhalf. rewrite C1. unfold mix, mean. rewrite Hhalf.
      by rewrite !lerp_half.
Qed.

Lemma update_tick_witness :
  exists w',
    update absolute 2000 morphing_mesh_world = Ok tt w'
    /\ currentMorphTargets_ (this w')
       = arr_of [Num.div (Num.add Num.one Num.zero) (Num.of_Z 2);
                 Num.div (Num.add Num.zero Num.one) (Num.of_Z 2);
                 Num.div (Num.add Num.zero Num.zero) (Num.of_Z 2);
                 Num.div (Num.add Num.zero Num.zero) (Num.of_Z 2)]
    /\ mesh_ (view w')
       = Some (mkMesh (PGeometry new_Geometry) (currentMorphTargets_ (this w')))
    /\ (mesh_ <$> stencilView w')
       = Some (Some (mkMesh (PGeometry new_Geometry)
                       (currentMorphTargets_ (this w'))))
    /\ trace w' = trace morphing_mesh_world ++ [EDirty VMain; EDirty VStencil].
Proof.
  destruct (update_tick absolute 2000 morphing_mesh_world morphing_mesh_world
              Num.one Num.zero Num.zero Num.zero
              Num.zero Num.one Num.zero Num.zero)
    as (w' & Hrun & _ & Hcases);
    [reflexivity | reflexivity | reflexivity | reflexivity | reflexivity
    | reflexivity |].
  assert (Ht : Num.div (Num.sub (Num.of_Z 2000)
                          (morphStartTime_ (this morphing_mesh_world)))
                 (morphDuration_ (this morphing_mesh_world)) = Num.half) by num_eq.
  rewrite Ht in Hcases. change (Num.gt Num.half Num.one) with false in Hcases.
  destruct Hcases as (_ & _ & _ & [Hv Hsv] & Htr & Hmean).
  exists w'. split; [exact Hrun|]. split; [by apply Hmean|].
  rewrite Hv, Hsv. repeat split. exact Htr.
Defined.

Lemma morph_immediate (now : Z) (w : World) (index : Z) :
  Num.ge (Num.of_Z index) Num.zero && Num.lt (Num.of_Z index) (Num.of_Z 4) = true ->
  immediate_morph now w index
    (arr_set_num (Num.sub (Num.of_Z index) Num.one) Num.one zeros4).
Proof.
  intros Hidx. unfold immediate_morph, morph, bind, assert_. rewrite Hidx.
  change (Num.gt Num.zero Num.zero) with false.
  unfold modify_this, modify, arr_slice0. cbn -[push_targets arr_set_num Num.sub].
  match goal with |- context [push_targets ?i ?w1] =>
    destruct (push_influences i w1) as (w2 & es & Hrun & Hthis & _ & _ & Htr & Hd & Hp)
  end.
  exists w2, es. split; [exact Hrun|]. rewrite Hthis. cbn. repeat split; done.
Qed.

(** C7, at the inputs that decide it.  [morph] accepts the indices from 0
    below 4 and writes the 1 at position [index - 1]: indices 1, 2 and 3
    give the one-hot vectors of positions 0, 1 and 2, but index 0, which the
    assertion accepts, gives the all-zero vector, and index 4 is refused. *)
Theorem morph_immediate_by_index (now : Z) (w : World) :
  immediate_morph now w 0 zeros4
  /\ immediate_morph now w 1 (one_hot 0)
  /\ immediate_morph now w 2 (one_hot 1)
  /\ immediate_morph now w 3 (one_hot 2)
  /\ morph now (Num.of_Z 4) Num.zero w
     = Throw (AssertFail "index must be between 0 and 4.") w.
Proof.
  split; [by apply (morph_immediate now w 0)|].
  split; [by apply (morph_immediate now w 1)|].
  split; [by apply (morph_immediate now w 2)|].
  split; [by apply (morph_immediate now w 3)|].
  reflexivity.
Qed.

(** C8.  Pausing a morph records the time run so far and clears the
    morphing flag, with the weights as they were; resuming sets the start
    time back by the recorded time, so that a later tick sees the time run
    before the pause plus the time since the resumption, over the same
    duration: the morph ends after its original duration of running. *)
Theorem pause_resume (p r now : Z) (w : World) :
  morphing_ (this w) = true ->
  exists w1 w2,
    setMorphing p false w = Ok tt w1
    /\ morphing_ (this w1) = false
    /\ morphElapsed_ (this w1) = Num.sub (Num.of_Z p) (morphStartTime_ (this w))
    /\ startMorphTargets_ (this w1) = startMorphTargets_ (this w)
    /\ currentMorphTargets_ (this w1) = currentMorphTargets_ (this w)
    /\ endMorphTargets_ (this w1) = endMorphTargets_ (this w)
    /\ setMorphing r true w1 = Ok tt w2
    /\ morphing_ (this w2) = true
    /\ morphStartTime_ (this w2) = Num.sub (Num.of_Z r) (morphElapsed_ (this w1))
    /\ startMorphTargets_ (this w2) = startMorphTargets_ (this w)
    /\ currentMorphTargets_ (this w2) = currentMorphTargets_ (this w)
    /\ endMorphTargets_ (this w2) = endMorphTargets_ (this w)
    /\ morphDuration_ (this w2) = morphDuration_ (this w)
    /\ Num.sub (Num.of_Z now) (morphStartTime_ (this w2))
       = Num.add (Num.sub (Num.of_Z p) (morphStartTime_ (this w)))
                 (Num.sub (Num.of_Z now) (Num.of_Z r)).
Proof.
  intros Hm. eexists _, _.
  unfold setMorphing at 1. unfold bind, gets, modify_this, modify.
  rewrite Hm. cbn. split; [reflexivity|]. cbn.
  repeat split. apply resume_elapsed.
Qed.

Lemma pause_resume_witness :
  exists w2,
    (let* _ := setMorphing 1500 false in setMorphing 4000 true) morphing_world
    = Ok tt w2
    /\ Num.sub (Num.of_Z 4500) (morphStartTime_ (this w2)) = Num.of_Z 1000.
Proof.
  destruct (pause_resume 1500 4000 4500 morphing_world)
    as (w1 & w2 & R1 & _ & _ & _ & _ & _ & R2 & _ & _ & _ & _ & _ & _ & Ht);
    [reflexivity|].
  exists w2. split.
  - unfold bind. rewrite R1. exact R2.
  - rewrite Ht. num_eq.
Defined.

Lemma sync_image_synced (getAbsoluteUrl_ : string -> string) (w : World) :
  element_synced (this w) = true -> sync_image getAbsoluteUrl_ w = Ok tt w.
Proof.
  unfold element_synced, sync_image, bind, gets, when. intros Hs.
  apply negb_true_iff in Hs. by rewrite Hs.
Qed.

(** C10.  [setMorphing(true)] on an idle animator whose duration is 0 sets
    the morphing flag and dispatches nothing.  The next tick divides the
    elapsed time by that zero duration: after a positive time it finishes
    at once and dispatches [morphEnd], which no [morphBegin] preceded; after
    no time at all (0/0) it writes [NaN] into every current weight. *)
Theorem resume_without_morph (getAbsoluteUrl_ : string -> string) (t0 t1 : Z)
    (w : World) (s0 s1 s2 s3 e0 e1 e2 e3 : JSNum) :
  loaded (this w) = true ->
  element_synced (this w) = true ->
  morphing_ (this w) = false ->
  morphDuration_ (this w) = Num.zero ->
  morphElapsed_ (this w) = Num.zero ->
  startMorphTargets_ (this w) = arr_of [s0; s1; s2; s3] ->
  endMorphTargets_ (this w) = arr_of [e0; e1; e2; e3] ->
  length (currentMorphTargets_ (this w)) = 4 ->
  (t0 < t1)%Z ->
  exists w1,
    setMorphing t0 true w = Ok tt w1
    /\ morphing_ (this w1) = true
    /\ trace w1 = trace w
    /\ (exists w' es,
          update getAbsoluteUrl_ t1 w1 = Ok tt w'
          /\ morphing_ (this w') = false
          /\ only_dirty es
          /\ trace w' = trace w ++ es ++ [EDispatch "morphEnd"])
    /\ (exists w',
          update getAbsoluteUrl_ t0 w1 = Ok tt w'
          /\ currentMorphTargets_ (this w') = arr_of [NaN; NaN; NaN; NaN]).
Proof.
  intros Hl Hsync Hm Hdur Hel Hs He Hc Hlt.
  eexists. split.
  { unfold setMorphing, bind, gets, modify_this, modify. rewrite Hm. reflexivity. }
  set (w1 := set_this _ _).
  assert (Hsync1 : sync_image getAbsoluteUrl_ w1 = Ok tt w1)
    by (apply sync_image_synced; exact Hsync).
  assert (Hstart : morphStartTime_ (this w1) = Num.of_Z t0).
  { change (morphStartTime_ (this w1))
      with (Num.sub (Num.of_Z t0) (morphElapsed_ (this w))).
    rewrite Hel. apply Num_sub_zero. }
  assert (Hupd : forall now, update getAbsoluteUrl_ now w1 = update_morph now w1).
  { intros now. unfold update, bind, gets.
    change (loaded (this w1)) with (loaded (this w)). rewrite Hl.
    cbn -[sync_image update_morph]. by rewrite Hsync1. }
  split; [reflexivity|]. split; [reflexivity|]. split.
  - destruct (update_morph_tick t1 w1 s0 s1 s2 s3 e0 e1 e2 e3)
      as (w' & es & Hrun & Hd & _ & Hcases); try done.
    rewrite Hstart in Hcases.
    change (morphDuration_ (this w1)) with (morphDuration_ (this w)) in Hcases.
    rewrite Hdur, Num_of_Z_sub, Num_div_zero in Hcases.
    destruct (t1 - t0)%Z eqn:E; try lia.
    rewrite Num_gt_PInf_one in Hcases.
    destruct Hcases as (_ & _ & Hoff & _ & Htr).
    exists w', es. rewrite Hupd. by repeat split.
  - destruct (update_morph_tick t0 w1 s0 s1 s2 s3 e0 e1 e2 e3)
      as (w' & es & Hrun & Hd & _ & Hcases); try done.
    rewrite Hstart in Hcases.
    change (morphDuration_ (this w1)) with (morphDuration_ (this w)) in Hcases.
    rewrite Hdur, Num_of_Z_sub, Num_div_zero, Z.sub_diag in Hcases.
    rewrite Num_gt_NaN in Hcases.
    destruct Hcases as (Hcur & _).
    exists w'. rewrite Hupd. split; [exact Hrun|]. rewrite Hcur.
    by destruct s0, s1, s2, s3, e0, e1, e2, e3.
Qed.

Lemma resume_without_morph_witness :
  exists w1,
    setMorphing 1000 true (world_of (set_loaded true example_model)) = Ok tt w1
    /\ (exists w', update absolute 1000 w1 = Ok tt w'
          /\ currentMorphTargets_ (this w') = arr_of [NaN; NaN; NaN; NaN]).
Proof.
  destruct (resume_without_morph absolute 1000 1016
              (world_of (set_loaded true example_model))
              Num.one Num.zero Num.zero Num.zero
              Num.one Num.zero Num.zero Num.zero)
    as (w1 & R1 & _ & _ & _ & Hnan);
    [reflexivity | reflexivity | reflexivity | reflexivity | reflexivity
    | reflexivity | reflexivity | reflexivity | lia |].
  exists w1. split; [exact R1 | exact Hnan].
Defined.

(* ================================================================= *)
(** ** The geometry key *)

Lemma list_ascii_app (s t : string) :
  String.list_ascii_of_string (s ++ t)
  = String.list_ascii_of_string s ++ String.list_ascii_of_string t.
Proof. induction s as [|c s IH]; simpl; [done|]. by rewrite IH. Qed.

Lemma list_ascii_inj (s t : string) :
  String.list_ascii_of_string s = String.list_ascii_of_string t -> s = t.
Proof.
  intros E. rewrite <- (String.string_of_list_ascii_of_string s),
    <- (String.string_of_list_ascii_of_string t). by rewrite E.
Qed.

Lemma no_comma_spec (s : string) :
  no_comma s = true -> ","%char ∉ String.list_ascii_of_string s.
Proof.
  induction s as [|c s IH]; simpl.
  - intros _ Hin. by apply not_elem_of_nil in Hin.
  - intros [Hc Hs]%andb_true_iff Hin. apply elem_of_cons in Hin as [<-|Hin].
    + by rewrite Ascii.eqb_refl in Hc.
    + by apply IH.
Qed.

(** Two lists cut at their first occurrence of [c] agree part by part. *)
Lemma split_at_first {A} (c : A) (s1 s2 r1 r2 : list A) :
  c ∉ s1 -> c ∉ s2 -> s1 ++ c :: r1 = s2 ++ c :: r2 -> s1 = s2 /\ r1 = r2.
Proof.
  revert s2. induction s1 as [|a s1 IH]; intros [|b s2] H1 H2 E; simpl in E.
  - by injection E.
  - injection E as -> _. exfalso. apply H2. by left.
  - injection E as -> _. exfalso. apply H1. by left.
  - injection E as -> E. destruct (IH s2) as [-> ->]; try done.
    + intros Hin. apply H1. by right.
    + intros Hin. apply H2. by right.
Qed.

(** Drops the equal heads of an equation between two lists. *)
Ltac strip_cons H :=
  repeat match type of H with
         | _ :: _ = _ :: _ => injection H as H
         end.

Section KeyFacts.
Variable numToString : JSNum -> string.

(** [createGeometry_] leaves the key of the configuration in
    [geometryKey_], whatever else it does. *)
Lemma createGeometry_key (w : World) :
  geometryKey_ (this (world_after (createGeometry_ numToString w)))
  = geometry_key numToString (this w).
Proof.
  unfold createGeometry_, bind, gets, modify_this, modify, lift, cache_addRef,
    cache_get, cache_set.
  cbn -[geometry_key build_geometry].
  set (key := geometry_key numToString (this w)).
  destruct (cache_has key _) eqn:Ehas.
  - unfold set_this at 1 2. cbn [cache].
    destruct (cache w !! key) as [e|] eqn:E; [|reflexivity].
    cbn [set_cache set_this cache this]. rewrite lookup_insert_eq. reflexivity.
  - destruct (build_geometry _ _); [|reflexivity].
    unfold set_this at 1. cbn [cache].
    destruct (cache w !! key); reflexivity.
Qed.

(** The key cut at the separators. *)
Lemma geometry_key_inj (m1 m2 : Image3D) :
  forallb no_comma (printed_sources m1) = true ->
  forallb no_comma (printed_sources m2) = true ->
  no_comma (numToString (maxHeight_ m1)) = true ->
  no_comma (numToString (maxHeight_ m2)) = true ->
  geometry_key numToString m1 = geometry_key numToString m2 ->
  printed_sources m1 = printed_sources m2
  /\ numToString (maxHeight_ m1) = numToString (maxHeight_ m2)
  /\ geometryStyle_ m1 = geometryStyle_ m2.
Proof.
  unfold printed_sources, geometry_key. cbn [forallb].
  rewrite !andb_true_iff.
  intros (A1 & B1 & C1 & D1 & E1 & _) (A2 & B2 & C2 & D2 & E2 & _) N1 N2 Hkey.
  apply (f_equal String.list_ascii_of_string) in Hkey.
  rewrite !list_ascii_app in Hkey. simpl in Hkey.
  strip_cons Hkey.
  apply no_comma_spec in A1, B1, C1, D1, E1, A2, B2, C2, D2, E2, N1, N2.
  apply split_at_first in Hkey as [Ha Hkey]; [|done|done].
  strip_cons Hkey.
  apply split_at_first in Hkey as [Hb Hkey]; [|done|done].
  strip_cons Hkey.
  apply split_at_first in Hkey as [Hc Hkey]; [|done|done].
  strip_cons Hkey.
  apply split_at_first in Hkey as [Hd Hkey]; [|done|done].
  strip_cons Hkey.
  apply split_at_first in Hkey as [He Hkey]; [|done|done].
  strip_cons Hkey.
  apply split_at_first in Hkey as [Hn Hkey]; [|done|done].
  strip_cons Hkey.
  apply app_inv_tail in Hkey.
  apply list_ascii_inj in Ha, Hb, Hc, Hd, He, Hn, Hkey.
  by rewrite Ha, Hb, Hc, Hd, He.
Qed.

End KeyFacts.

(** C5, counterexample.  Two builds with the same heightmap sources, the
    same [maxHeight] and the same style, which build the same smooth
    geometry, get different keys: the key also holds [imageSrc]. *)
Lemma geometry_key_counterexample :
  heightSources_ other_texture_model = heightSources_ example_loaded
  /\ maxHeight_ other_texture_model = maxHeight_ example_loaded
  /\ geometryStyle_ other_texture_model = geometryStyle_ example_loaded
  /\ geometry_ (this (world_after (createGeometry_ print_num (world_of other_texture_model))))
     = geometry_ (this (world_after (createGeometry_ print_num (world_of example_loaded))))
  /\ geometryKey_ (this (world_after (createGeometry_ print_num (world_of other_texture_model))))
     <> geometryKey_ (this (world_after (createGeometry_ print_num (world_of example_loaded)))).
Proof.
  split; [reflexivity|]. split; [reflexivity|]. split; [reflexivity|].
  split; [vm_compute; reflexivity|]. vm_compute. discriminate.
Qed.

(** C5, amended.  The key [createGeometry_] computes is a function of
    [imageSrc], the four heightmap sources, [maxHeight] and the style: two
    builds that agree on all of these get the same key.  Conversely, when
    the printed sources and the printed [maxHeight] have no comma in them,
    two builds with the same key agree on every printed component. *)
Theorem geometry_key_determined (numToString : JSNum -> string) (w1 w2 : World) :
  let key w := geometryKey_ (this (world_after (createGeometry_ numToString w))) in
  (imageSrc_ (this w1) = imageSrc_ (this w2) ->
   heightSources_ (this w1) = heightSources_ (this w2) ->
   maxHeight_ (this w1) = maxHeight_ (this w2) ->
   geometryStyle_ (this w1) = geometryStyle_ (this w2) ->
   key w1 = key w2)
  /\ (forallb no_comma (printed_sources (this w1)) = true ->
      forallb no_comma (printed_sources (this w2)) = true ->
      no_comma (numToString (maxHeight_ (this w1))) = true ->
      no_comma (numToString (maxHeight_ (this w2))) = true ->
      key w1 = key w2 ->
      printed_sources (this w1) = printed_sources (this w2)
      /\ numToString (maxHeight_ (this w1)) = numToString (maxHeight_ (this w2))
      /\ geometryStyle_ (this w1) = geometryStyle_ (this w2)).
Proof.
  intros key. unfold key. rewrite !createGeometry_key. split.
  - intros Hi Hs Hm Hg. unfold geometry_key. by rewrite Hi, Hs, Hm, Hg.
  - apply geometry_key_inj.
Qed.

Lemma geometry_key_determined_witness :
  geometryKey_ (this (world_after
     (createGeometry_ print_num (world_of example_loaded))))
  = geometryKey_ (this (world_after
     (createGeometry_ print_num (world_of (set_transparent_ false example_loaded)))))
  /\ (printed_sources example_loaded = printed_sources example_loaded
      /\ print_num (maxHeight_ example_loaded) = print_num (maxHeight_ example_loaded)
      /\ geometryStyle_ example_loaded = geometryStyle_ example_loaded).
Proof.
  split.
  - apply (proj1 (geometry_key_determined print_num (world_of example_loaded)
                    (world_of (set_transparent_ false example_loaded))));
      reflexivity.
  - apply (proj2 (geometry_key_determined print_num (world_of example_loaded)
                    (world_of example_loaded))); reflexivity.
Defined.

(* ================================================================= *)
(** ** Setters called with the current value *)

(** C9.  A setter called with the current value changes nothing: the world
    it leaves is the world it was called in, with the same trace of
    dispatched events, the same cache, images, geometry and views.  It
    returns normally whenever the value passes the setter's own assertion.
    For [setImageSrc] and [setHeightmap] the current value is the absolute
    URL that [getAbsoluteUrl_] makes of the argument. *)
Theorem setters_same_value (getAbsoluteUrl_ : string -> string)
    (numToString : JSNum -> string) (w : World)
    (imageSrc heightmap : string) (opt_index : option positive) :
  imageSrc_ (this w) = Some (getAbsoluteUrl_ imageSrc) ->
  arr_get (match opt_index with
           | None => 0
           | Some i => Pos.to_nat i - 1
           end) (heightSources_ (this w)) = Some (getAbsoluteUrl_ heightmap) ->
  let m := this w in
  (world_after (setGeometryStyle numToString (geometryStyle_ m) w) = w
   /\ (geometryStyle_ m = "smooth" \/ geometryStyle_ m = "block"
       \/ geometryStyle_ m = "float" ->
       setGeometryStyle numToString (geometryStyle_ m) w = Ok tt w))
  /\ (world_after (setMaxHeight numToString (maxHeight_ m) w) = w
      /\ (Num.ge (maxHeight_ m) Num.zero = true ->
          setMaxHeight numToString (maxHeight_ m) w = Ok tt w))
  /\ (world_after (setImageSrc getAbsoluteUrl_ imageSrc w) = w
      /\ (imageSrc <> EmptyString -> setImageSrc getAbsoluteUrl_ imageSrc w = Ok tt w))
  /\ setTransparent (transparent_ m) w = Ok tt w
  /\ (world_after (setHeightmap getAbsoluteUrl_ numToString heightmap opt_index w) = w
      /\ (heightmap <> EmptyString ->
          setHeightmap getAbsoluteUrl_ numToString heightmap opt_index w = Ok tt w)).
Proof.
  intros Himg Hsrc m. subst m. repeat apply conj.
  - unfold setGeometryStyle, bind, assert_, gets, when.
    destruct (_ || _); [|reflexivity]. cbn. by rewrite String.eqb_refl.
  - intros Hvalid. unfold setGeometryStyle, bind, assert_, gets, when.
    assert (Hb : String.eqb (geometryStyle_ (this w)) "smooth"
                 || String.eqb (geometryStyle_ (this w)) "block"
                 || String.eqb (geometryStyle_ (this w)) "float" = true).
    { destruct Hvalid as [-> | [-> | ->]]; reflexivity. }
    rewrite Hb. cbn. by rewrite String.eqb_refl.
  - unfold setMaxHeight, bind, assert_, gets, when.
    destruct (Num.ge _ _) eqn:Hge; [|reflexivity]. cbn.
    assert (Hs : Num.strict_eq (maxHeight_ (this w)) (maxHeight_ (this w)) = true).
    { destruct (maxHeight_ (this w)) as [q| | |]; try done. simpl.
      by rewrite (proj1 (Qceq_alt q q) eq_refl). }
    by rewrite Hs.
  - intros Hge. unfold setMaxHeight, bind, assert_, gets, when. rewrite Hge. cbn.
    assert (Hs : Num.strict_eq (maxHeight_ (this w)) (maxHeight_ (this w)) = true).
    { destruct (maxHeight_ (this w)) as [q| | |]; try done. simpl.
      by rewrite (proj1 (Qceq_alt q q) eq_refl). }
    by rewrite Hs.
  - unfold setImageSrc, bind, assert_, gets.
    destruct (negb _); [|reflexivity]. cbn.
    by rewrite bool_decide_eq_true_2.
  - intros Hne. unfold setImageSrc, bind, assert_, gets.
    apply String.eqb_neq in Hne. rewrite Hne. cbn.
    by rewrite bool_decide_eq_true_2.
  - unfold setTransparent, bind, gets, when. cbn.
    by rewrite Bool.eqb_reflx.
  - unfold setHeightmap, bind, assert_, gets.
    destruct (negb _); [|reflexivity]. cbn.
    by rewrite bool_decide_eq_true_2.
  - intros Hne. unfold setHeightmap, bind, assert_, gets.
    apply String.eqb_neq in Hne. rewrite Hne. cbn.
    by rewrite bool_decide_eq_true_2.
Qed.

Lemma setters_same_value_witness :
  setGeometryStyle print_num "smooth" (world_of example_model)
    = Ok tt (world_of example_model)
  /\ setMaxHeight print_num (Num.of_Z 200) (world_of example_model)
    = Ok tt (world_of example_model)
  /\ setImageSrc absolute "http://h/t.png" (world_of example_model)
    = Ok tt (world_of example_model)
  /\ setTransparent true (world_of example_model)
    = Ok tt (world_of example_model)
  /\ setHeightmap absolute print_num "http://h/a.png" (Some 1%positive)
       (world_of example_model)
    = Ok tt (world_of example_model).
Proof.
  destruct (setters_same_value absolute print_num (world_of example_model)
              "http://h/t.png" "http://h/a.png" (Some 1%positive))
    as ((_ & S1) & (_ & S2) & (_ & S3) & S4 & (_ & S5));
    [reflexivity | reflexivity |].
  split; [apply S1; by left|]. split; [apply S2; reflexivity|].
  split; [apply S3; discriminate|]. split; [exact S4|]. apply S5. discriminate.
Defined.

(* ================================================================= *)
(** ** Loading heightmaps through the cache *)

(** C4, on the code.  When the handler of a heightmap's load event runs
    while its key is in the cache, as it is from the moment [loadHeightmap_]
    has inserted the pending entry, it takes a reference and then calls
    [set] on the key that is present: [KeyCollision] is thrown.  The
    entry's payload stays as it was, so a pending entry never becomes
    loaded, and neither the notifiers nor the callback run. *)
Theorem decode_completion_collides (getAbsoluteUrl_ : string -> string)
    (numToString : JSNum -> string) (w : World) (index id : nat)
    (heightmapKey : string) (callback : Callback) (img : ImageObj)
    (e : HeightmapEntry) (n : nat) :
  arr_get index (heightmaps_ (this w)) = Some (HImage id) ->
  images w !! id = Some img ->
  0 < img_width img -> 0 < img_height img ->
  cache w !! heightmapKey = Some (mkCacheEntry (PHeightmap e) n) ->
  exists w',
    loadHeightmap_onLoad getAbsoluteUrl_ numToString index heightmapKey callback w
    = Throw (KeyCollision heightmapKey) w'
    /\ cache w' !! heightmapKey = Some (mkCacheEntry (PHeightmap e) (S n))
    /\ trace w' = trace w
    /\ closures (this w') = closures (this w).
Proof.
  intros Href Himg Hw Hh Hc. destruct w as [m v sv c imgs tr].
  destruct img as [src [|wd] [|ht] px ls]; cbn in *; try lia.
  unfold loadHeightmap_onLoad, bind, gets. cbn. rewrite Href. cbn.
  rewrite Himg. cbn.
  unfold modify_this, modify, cache_has, cache_get, cache_addRef, cache_set, ret.
  cbn. rewrite Hc. rewrite bool_decide_eq_true_2 by by eexists.
  cbn. rewrite Hc. cbn. rewrite Hc. cbn. rewrite lookup_insert_eq.
  eexists. split; [reflexivity|].
  cbn. by rewrite lookup_insert_eq.
Qed.

Lemma decode_completion_collides_witness :
  exists w',
    loadHeightmap_onLoad absolute print_num 0 "http://h/a.png"
      (CbHeightmapsOnLoad 0 0) decoded_world
    = Throw (KeyCollision "http://h/a.png") w'
    /\ cache w' !! "http://h/a.png"
       = Some (mkCacheEntry (PHeightmap (mkHeightmapEntry 0 None [])) 2).
Proof.
  destruct (decode_completion_collides absolute print_num decoded_world 0 0
              "http://h/a.png" (CbHeightmapsOnLoad 0 0)
              (mkImageObj "http://h/a.png" 2 2 example_pixels
                 [LHeightmapLoad 0 "http://h/a.png" (CbHeightmapsOnLoad 0 0)])
              (mkHeightmapEntry 0 None []) 1)
    as (w' & Hrun & Hcache & _);
    [reflexivity | reflexivity | simpl; lia | simpl; lia | reflexivity |].
  exists w'. by split.
Defined.

(** C6, at the input that decides it.  A model asks for two heightmaps of
    different sizes that the cache holds fully loaded.  Each slot then
    refers to the cache value, which has no width or height: the sizes
    compared are both undefined, the assertion passes, and the completion
    callback runs and starts loading the texture. *)
Theorem cached_size_mismatch_passes :
  exists img0 img1 w',
    images cached_world !! 0 = Some img0
    /\ images cached_world !! 1 = Some img1
    /\ img_width img0 <> img_width img1
    /\ loadHeightmaps_ absolute print_num KSetUpViews cached_world = Ok tt w'
    /\ heightmaps_ (this w')
       = arr_of [HCacheVal "http://h/a.png"; HCacheVal "http://h/b.png"]
    /\ heightmapWidth_ (this w') = None
    /\ heightmapHeight_ (this w') = None
    /\ closures (this w') = [mkLoadClosure 2 2 KSetUpViews]
    /\ trace w' = [EStartDecode 2 "http://h/t.png"].
Proof.
  eexists _, _, _. split; [reflexivity|]. split; [reflexivity|].
  split; [simpl; lia|]. split; [vm_compute; reflexivity|].
  repeat split.
Qed.

(* ================================================================= *)
(** ** Arrays filled in index order *)

Section PreFilled.
Context {A : Type}.
Implicit Types (l : list A) (v : A).

Lemma length_arr_of l : length (arr_of l) = length l.
Proof. unfold arr_of. apply length_map. Qed.

Lemma new_Array_pre_filled (n : nat) :
  new_Array (A := A) (Z.of_nat n) = Done (pre_filled n []).
Proof.
  rewrite new_Array_nonneg by lia. unfold pre_filled. simpl.
  by rewrite Nat2Z.id, Nat.sub_0_r.
Qed.

Lemma length_pre_filled (cap : nat) l :
  length l <= cap -> length (pre_filled cap l) = cap.
Proof.
  intros Hl. unfold pre_filled.
  rewrite length_app, length_arr_of, length_replicate. lia.
Qed.

(** Writing at the first hole appends. *)
Lemma arr_set_pre_filled (cap : nat) l v :
  length l < cap ->
  arr_set (length l) v (pre_filled cap l) = pre_filled cap (l ++ [v]).
Proof.
  intros Hl. unfold arr_set. rewrite length_pre_filled by lia.
  destruct (Nat.ltb_spec (length l) cap); [|lia].
  unfold pre_filled, arr_of. rewrite map_app, length_app. simpl.
  replace (cap - length l) with (S (cap - (length l + 1))) by lia. simpl.
  rewrite insert_app_r_alt by (rewrite length_map; lia).
  rewrite length_map, Nat.sub_diag. simpl. by rewrite <- app_assoc.
Qed.

Lemma arr_set_pre_filled_at (cap i : nat) l v :
  i = length l -> length l < cap ->
  arr_set i v (pre_filled cap l) = pre_filled cap (l ++ [v]).
Proof. intros ->. apply arr_set_pre_filled. Qed.

(** Cutting the array at the first hole leaves the elements written. *)
Lemma arr_set_length_pre_filled (cap : nat) l :
  arr_set_length (length l) (pre_filled cap l) = arr_of l.
Proof.
  unfold arr_set_length, pre_filled.
  rewrite take_app_length' by (symmetry; apply length_arr_of).
  rewrite length_app, length_arr_of, length_replicate.
  replace (length l - (length l + (cap - length l))) with 0 by lia.
  simpl. apply app_nil_r.
Qed.

Lemma pre_filled_full l : pre_filled (length l) l = arr_of l.
Proof. unfold pre_filled. rewrite Nat.sub_diag. simpl. apply app_nil_r. Qed.


Lemma full_array_arr_of l : full_array (length l) (arr_of l).
Proof.
  split; [apply length_arr_of|]. intros j Hj.
  destruct (lookup_lt_is_Some_2 l j Hj) as [v Hv]. exists v.
  unfold arr_of. by rewrite list_lookup_fmap, Hv.
Qed.

End PreFilled.

(* ================================================================= *)
(** ** The smooth grid *)

Section SmoothGrid.
Variables (m : Image3D) (data : HeightData) (W H : nat).

Lemma smooth_vertex_at (y x : nat) :
  x < W ->
  smooth_vertex m data W H (y * W + x)
  = V3 (Num.of_nat x * inv_minus_one W)%num (Num.of_nat y * inv_minus_one H)%num
       (getDepth_ m data (4 * (y * W + x))).
Proof.
  intros Hx. unfold smooth_vertex.
  replace (y * W + x) with (x + y * W) by lia.
  rewrite Nat.Div0.mod_add, Nat.div_add by lia.
  rewrite Nat.mod_small, Nat.div_small by lia. reflexivity.
Qed.

(** The vertex loop fills the array with the grid, row by row. *)
Lemma smooth_vertex_loop_exact :
  smooth_vertex_loop m data W H (inv_minus_one W) (inv_minus_one H)
    (pre_filled (W * H) [])
  = (arr_of (map (smooth_vertex m data W H) (seq 0 (W * H))), 4 * (W * H), W * H).
Proof.
  unfold smooth_vertex_loop.
  pose (St := fun k : nat =>
    (pre_filled (W * H) (map (smooth_vertex m data W H) (seq 0 k)), 4 * k, k)).
  match goal with |- for_range H ?b ?s = _ =>
    assert (HP : for_range H b s = St (H * W)) end.
  { apply (for_range_ind (fun y st => st = St (y * W))); [reflexivity|].
    intros y st Hy ->.
    match goal with |- for_range W ?b ?s = _ =>
      assert (HQ : for_range W b s = St (y * W + W)) end.
    { apply (for_range_ind (fun x st => st = St (y * W + x))).
      - by rewrite Nat.add_0_r.
      - intros x st Hx ->. unfold St.
        set (L := map _ (seq 0 (y * W + x))).
        assert (HL : length L = y * W + x)
          by (unfold L; by rewrite length_map, length_seq).
        rewrite arr_set_pre_filled_at by (rewrite ?HL; nia).
        replace (y * W + (x + 1)) with (S (y * W + x)) by lia.
        rewrite seq_S, map_app. simpl. rewrite smooth_vertex_at by done.
        repeat f_equal; lia. }
    rewrite HQ. f_equal. lia. }
  rewrite HP. unfold St. replace (H * W) with (W * H) by lia.
  set (L := map _ (seq 0 (W * H))).
  replace (pre_filled (W * H) L) with (arr_of L); [reflexivity|].
  rewrite <- (pre_filled_full L). f_equal. unfold L.
  by rewrite length_map, length_seq.
Qed.

Lemma smooth_cell_faces_at (y x : nat) :
  x < W - 1 ->
  smooth_cell_faces W (y * (W - 1) + x)
  = [F3 (y * W + x) (y * W + (x + 1)) ((y + 1) * W + (x + 1));
     F3 (y * W + x) ((y + 1) * W + (x + 1)) ((y + 1) * W + x)].
Proof.
  intros Hx. unfold smooth_cell_faces.
  replace (y * (W - 1) + x) with (x + y * (W - 1)) by lia.
  rewrite Nat.Div0.mod_add, Nat.div_add by lia.
  rewrite Nat.mod_small, Nat.div_small by lia. reflexivity.
Qed.

(** The index loop writes the two triangles of every cell, row by row. *)
Lemma smooth_face_loop_exact (iw ih : JSNum) :
  let N := 2 * ((W - 1) * (H - 1)) in
  let s := smooth_face_loop W H iw ih (pre_filled N []) (pre_filled N []) in
  sf_faces s = arr_of (flat_map (smooth_cell_faces W) (seq 0 ((W - 1) * (H - 1))))
  /\ exists uvs, sf_uvs s = arr_of uvs /\ length uvs = N.
Proof.
  intros N s. unfold s, smooth_face_loop.
  pose (I := fun (y c : nat) (s : SmoothFaces) =>
    sf_faces s = pre_filled N (flat_map (smooth_cell_faces W) (seq 0 c))
    /\ (exists uvs, sf_uvs s = pre_filled N uvs /\ length uvs = 2 * c)
    /\ sf_faceIdx s = 2 * c /\ sf_uvIdx s = 2 * c
    /\ sf_yi s = y * W /\ sf_yi2 s = (y + 1) * W).
  assert (Hlen : forall c, length (flat_map (smooth_cell_faces W) (seq 0 c)) = 2 * c).
  { induction c as [|c IH]; [done|].
    rewrite seq_S, flat_map_app, length_app, IH. simpl. lia. }
  match goal with |- context [for_range (H - 1) ?b ?s] =>
    assert (HP : I (H - 1) ((H - 1) * (W - 1)) (for_range (H - 1) b s)) end.
  { apply (for_range_ind (fun y s => I y (y * (W - 1)) s)).
    - repeat split; simpl; try lia. by exists [].
    - intros y s0 Hy HI.
      match goal with |- context [for_range (W - 1) ?b s0] =>
        assert (HQ : I y (y * (W - 1) + (W - 1)) (for_range (W - 1) b s0)) end.
      { apply (for_range_ind (fun x s => I y (y * (W - 1) + x) s)).
        - by rewrite Nat.add_0_r.
        - intros x s1 Hx (Hf & (uvs & Hu & Hul) & Hfi & Hui & Hyi & Hyi2).
          unfold smooth_face_cell. rewrite Hf, Hu, Hfi, Hui, Hyi, Hyi2.
          set (c := y * (W - 1) + x) in *.
          assert (Hc : 2 * c + 2 <= N) by (unfold c, N; nia).
          set (L := flat_map _ (seq 0 c)) in *.
          assert (HL : length L = 2 * c) by apply Hlen.
          replace (y * (W - 1) + (x + 1)) with (S c) by (unfold c; lia).
          unfold I. cbn [sf_faces sf_uvs sf_faceIdx sf_uvIdx sf_yi sf_yi2].
          split; [|split; [|lia]].
          + rewrite arr_set_pre_filled_at by lia.
            rewrite arr_set_pre_filled_at by (rewrite length_app; simpl; lia).
            rewrite seq_S, flat_map_app. cbn [flat_map Nat.add]. fold L.
            pose proof (smooth_cell_faces_at y x Hx) as Hcell. fold c in Hcell.
            rewrite Hcell, app_nil_r, <- app_assoc. reflexivity.
          + unfold FaceUvs in *. eexists. split.
            * rewrite arr_set_pre_filled_at by lia.
              rewrite arr_set_pre_filled_at by (rewrite length_app; simpl; lia).
              reflexivity.
            * rewrite !length_app. simpl. lia. }
      destruct HQ as (Hf & Hu & Hfi & Hui & Hyi & Hyi2).
      replace ((y + 1) * (W - 1)) with (y * (W - 1) + (W - 1)) by lia.
      repeat split; simpl; try done; lia. }
  destruct HP as (Hf & (uvs & Hu & Hul) & _).
  assert (HN : length (flat_map (smooth_cell_faces W)
                         (seq 0 ((H - 1) * (W - 1)))) = N)
    by (rewrite Hlen; unfold N; lia).
  split.
  - rewrite Hf. replace ((W - 1) * (H - 1)) with ((H - 1) * (W - 1)) by lia.
    rewrite <- HN at 1. apply pre_filled_full.
  - exists uvs. split; [|unfold N; lia].
    rewrite Hu. replace N with (length uvs) by (unfold N; lia).
    apply pre_filled_full.
Qed.

End SmoothGrid.

Section SmoothExact.
Variables (m : Image3D) (imgs : list ImageObj) (W H : nat).
Hypothesis Hstyle : geometryStyle_ m = GeometryStyle_Smooth.
Hypothesis Hwidth : heightmapWidth_ m = Some W.
Hypothesis Hheight : heightmapHeight_ m = Some H.
Hypothesis HW : 1 <= W.
Hypothesis HH : 1 <= H.

Let grid (d : HeightData) : JSArray Vector3 :=
  arr_of (map (smooth_vertex m d W H) (seq 0 (W * H))).
Let cells : JSArray Face3 :=
  arr_of (flat_map (smooth_cell_faces W) (seq 0 ((W - 1) * (H - 1)))).

Lemma createSmoothGeometry_exact (g : Geometry) (o : VerticesOwner)
    (d : HeightData) (createFaces : bool) :
  exists uvs,
    length uvs = 2 * ((W - 1) * (H - 1)) /\
    createSmoothGeometry_ m g o (Some d) createFaces
    = Done (let '(g', o') := set_owner_vertices (grid d) g o in
            if createFaces then (set_faces cells (arr_of uvs) g', o') else (g', o')).
Proof.
  unfold createSmoothGeometry_. rewrite Hwidth, Hheight.
  rewrite <- Nat2Z.inj_mul, new_Array_pre_filled. cbn [rbind].
  fold (inv_minus_one W) (inv_minus_one H).
  rewrite smooth_vertex_loop_exact. fold (grid d).
  destruct (set_owner_vertices (grid d) g o) as [g' o'].
  replace ((Z.of_nat W - 1) * (Z.of_nat H - 1) * 2)%Z
    with (Z.of_nat (2 * ((W - 1) * (H - 1))))
    by (rewrite !Nat2Z.inj_mul, !Nat2Z.inj_sub by lia; simpl Z.of_nat; ring).
  destruct (smooth_face_loop_exact W H (inv_minus_one W) (inv_minus_one H))
    as (Hf & uvs & Hu & Hul).
  exists uvs. split; [done|].
  destruct createFaces; [|reflexivity].
  rewrite !new_Array_pre_filled. cbn [rbind]. by rewrite Hf, Hu.
Qed.

Lemma add_morph_target_exact (i : nat) (g : Geometry) (d0 d : HeightData) :
  vertices g = grid d0 ->
  arr_get 0 (heightmapData_ m) = Some d0 ->
  target_data m i = Some d ->
  add_morph_target m imgs i g
  = Done (mkGeometry (vertices g) (faces g) (faceVertexUvs0 g)
            (morphTargets g ++ [mkMorphTarget ("target" ++ pretty i) (grid d)])).
Proof.
  intros Hv Hd0 Hd. unfold add_morph_target. unfold target_data in Hd.
  destruct (bool_decide (arr_get i (heightmaps_ m) = None) || (i =? 0)).
  - cbn [rbind mt_name]. rewrite Hv. congruence.
  - rewrite Hd, createHeightmapGeometry_smooth by done.
    destruct (createSmoothGeometry_exact g
                (OwnTarget (mkMorphTarget ("target" ++ pretty i) [])) d false)
      as (uvs & _ & ->).
    reflexivity.
Qed.

(** The whole smooth build, as a value. *)
Lemma build_geometry_smooth_exact (d0 d1 d2 d3 d0' : HeightData) :
  arr_get 0 (heightmapData_ m) = Some d0 ->
  target_data m 0 = Some d0' ->
  target_data m 1 = Some d1 ->
  target_data m 2 = Some d2 ->
  target_data m 3 = Some d3 ->
  exists uvs,
    length uvs = 2 * ((W - 1) * (H - 1)) /\
    build_geometry m imgs
    = Done (mkGeometry (grid d0) cells (arr_of uvs)
              [mkMorphTarget "target0" (grid d0');
               mkMorphTarget "target1" (grid d1);
               mkMorphTarget "target2" (grid d2);
               mkMorphTarget "target3" (grid d3)]).
Proof.
  intros Hd0 T0 T1 T2 T3. unfold build_geometry.
  rewrite Hd0, createHeightmapGeometry_smooth by done.
  destruct (createSmoothGeometry_exact new_Geometry OwnGeometry d0 true)
    as (uvs & Hul & ->).
  exists uvs. split; [done|].
  cbn [set_owner_vertices rbind]. rewrite Hstyle.
  change (negb (String.eqb GeometryStyle_Smooth GeometryStyle_Block)) with true.
  rewrite orb_true_r. cbn [rassert rbind seq foldl].
  rewrite (add_morph_target_exact 0 _ d0 d0') by done. cbn [rbind].
  rewrite (add_morph_target_exact 1 _ d0 d1) by done. cbn [rbind].
  rewrite (add_morph_target_exact 2 _ d0 d2) by done. cbn [rbind].
  rewrite (add_morph_target_exact 3 _ d0 d3) by done. cbn [rbind].
  reflexivity.
Qed.

End SmoothExact.

Lemma target_data_ready (m : Image3D) (d0 : HeightData) (i : nat) :
  arr_get 0 (heightmapData_ m) = Some d0 ->
  targets_ready m = true ->
  i < 4 ->
  exists d, target_data m i = Some d.
Proof.
  intros Hd0 Hready Hi. unfold target_data.
  destruct (bool_decide (arr_get i (heightmaps_ m) = None) || (i =? 0)) eqn:E;
    [by exists d0|].
  apply orb_false_iff in E as [E1 E2].
  apply bool_decide_eq_false in E1. apply Nat.eqb_neq in E2.
  unfold targets_ready in Hready. cbn [forallb] in Hready.
  rewrite !andb_true_iff in Hready. destruct Hready as (R1 & R2 & R3 & _).
  assert (Hb : implb (bool_decide (is_Some (arr_get i (heightmaps_ m))))
                 (bool_decide (is_Some (arr_get i (heightmapData_ m)))) = true).
  { destruct i as [|[|[|[|i]]]]; try done; lia. }
  rewrite bool_decide_eq_true_2 in Hb
    by (destruct (arr_get i (heightmaps_ m)); [by eexists|done]).
  apply bool_decide_eq_true in Hb as [d Hd]. by exists d.
Qed.




Lemma smooth_cell_faces_below (W H c : nat) :
  c < (W - 1) * (H - 1) ->
  Forall (face_below (W * H)) (smooth_cell_faces W c).
Proof.
  intros Hc. assert (HW : W - 1 <> 0) by (intros E; rewrite E in Hc; lia).
  pose proof (Nat.mod_upper_bound c (W - 1) HW) as Hx.
  assert (Hy : c / (W - 1) < H - 1)
    by (apply Nat.Div0.div_lt_upper_bound; lia).
  unfold smooth_cell_faces.
  set (x := c mod (W - 1)) in *. set (y := c / (W - 1)) in *.
  repeat apply List.Forall_cons; [| |apply List.Forall_nil];
    unfold face_below; cbn [f_a f_b f_c]; nia.
Qed.

(** X2.  The triangles of smooth geometry are those of the grid, two for
    each cell, row by row: they do not depend on the heightmap data, every
    index in them names one of the [W * H] vertices, and there is one UV
    triple for each. *)
Theorem smooth_faces_cells (m : Image3D) (imgs : list ImageObj)
    (W H : nat) (d0 : HeightData) :
  geometryStyle_ m = GeometryStyle_Smooth ->
  heightmapWidth_ m = Some W ->
  heightmapHeight_ m = Some H ->
  1 <= W -> 1 <= H ->
  arr_get 0 (heightmapData_ m) = Some d0 ->
  targets_ready m = true ->
  exists g uvs,
    build_geometry m imgs = Done g
    /\ faces g = arr_of (flat_map (smooth_cell_faces W) (seq 0 ((W - 1) * (H - 1))))
    /\ Forall (face_below (W * H))
         (flat_map (smooth_cell_faces W) (seq 0 ((W - 1) * (H - 1))))
    /\ faceVertexUvs0 g = arr_of uvs
    /\ length uvs = 2 * ((W - 1) * (H - 1)).
Proof.
  intros Hstyle Hw Hh HW HH Hd0 Hready.
  destruct (target_data_ready m d0 0 Hd0 Hready) as [t0 T0]; [lia|].
  destruct (target_data_ready m d0 1 Hd0 Hready) as [t1 T1]; [lia|].
  destruct (target_data_ready m d0 2 Hd0 Hready) as [t2 T2]; [lia|].
  destruct (target_data_ready m d0 3 Hd0 Hready) as [t3 T3]; [lia|].
  destruct (build_geometry_smooth_exact m imgs W H Hstyle Hw Hh HW HH
              d0 t1 t2 t3 t0 Hd0 T0 T1 T2 T3) as (uvs & Hul & ->).
  eexists _, uvs. split; [reflexivity|]. cbn [faces faceVertexUvs0].
  split; [reflexivity|]. split; [|by split].
  apply Forall_flat_map, Forall_forall. intros c Hc.
  apply elem_of_seq in Hc. apply smooth_cell_faces_below. lia.
Qed.

Lemma smooth_faces_cells_witness :
  exists g,
    build_geometry example_loaded [] = Done g
    /\ faces g = arr_of [F3 0 1 3; F3 0 3 2].
Proof.
  destruct (smooth_faces_cells example_loaded [] 2 2 (DPixels example_pixels))
    as (g & uvs & Hg & Hf & _);
    [reflexivity | reflexivity | reflexivity | lia | lia | reflexivity
    | reflexivity |].
  exists g. split; [exact Hg | exact Hf].
Defined.



(* ================================================================= *)
(** ** The float quads *)

Section FloatExact.
Variables (m : Image3D) (imgs : list ImageObj) (W H tw th : nat).
Hypothesis Hstyle : geometryStyle_ m = GeometryStyle_Float.
Hypothesis Hwidth : heightmapWidth_ m = Some W.
Hypothesis Hheight : heightmapHeight_ m = Some H.
Hypothesis Htex : texture_size m imgs = Some (tw, th).


Lemma length_flat_map_const {A B} (f : A -> list B) (n : nat) (l : list A) :
  (forall a, length (f a) = n) -> length (flat_map f l) = n * length l.
Proof.
  intros Hf. induction l as [|a l IH]; simpl; [lia|].
  rewrite length_app, Hf, IH. lia.
Qed.








End FloatExact.



(* ================================================================= *)
(** ** The block columns *)

Lemma face_below_mono (n n' : nat) (f : Face3) :
  n <= n' -> face_below n f -> face_below n' f.
Proof. unfold face_below. lia. Qed.

Section BlockShape.
Variables (capV capF : nat).

Lemma block_push_vertices_of (ps lv : list Vector3) (lf : list Face3)
    (lu : list FaceUvs) (v fi ui : nat) :
  length lv + length ps <= capV ->
  block_push_vertices ps
    (mkBlockState (pre_filled capV lv) (pre_filled capF lf) (pre_filled capF lu)
       v fi ui (length lv))
  = mkBlockState (pre_filled capV (lv ++ ps)) (pre_filled capF lf)
      (pre_filled capF lu) v fi ui (length (lv ++ ps)).
Proof.
  revert lv. induction ps as [|p ps IH]; intros lv Hcap.
  - by rewrite app_nil_r.
  - simpl in Hcap.
    change (block_push_vertices (p :: ps) ?s)
      with (block_push_vertices ps
              (mkBlockState (arr_set (bs_vertexIdx s) p (bs_vertices s))
                 (bs_faces s) (bs_uvs s) (bs_v s) (bs_faceIdx s) (bs_uvIdx s)
                 (bs_vertexIdx s + 1))).
    cbn [bs_vertices bs_faces bs_uvs bs_v bs_faceIdx bs_uvIdx bs_vertexIdx].
    rewrite arr_set_pre_filled by lia.
    replace (length lv + 1) with (length (lv ++ [p])) by (rewrite length_app; simpl; lia).
    rewrite IH by (rewrite length_app; simpl; lia).
    by rewrite <- app_assoc.
Qed.

Lemma block_push_faces_of (f1 f2 : Face3) (t1 t2 : FaceUvs)
    (lv : list Vector3) (lf : list Face3) (lu : list FaceUvs) (v vi : nat) :
  length lf + 2 <= capF -> length lu + 2 <= capF ->
  block_push_faces f1 f2 t1 t2
    (mkBlockState (pre_filled capV lv) (pre_filled capF lf) (pre_filled capF lu)
       v (length lf) (length lu) vi)
  = mkBlockState (pre_filled capV lv) (pre_filled capF (lf ++ [f1; f2]))
      (pre_filled capF (lu ++ [t1; t2])) v (length (lf ++ [f1; f2]))
      (length (lu ++ [t1; t2])) vi.
Proof.
  intros Hf Hu. unfold block_push_faces. cbn [bs_vertices bs_faces bs_uvs bs_v
    bs_faceIdx bs_uvIdx bs_vertexIdx]. unfold FaceUvs in *.
  rewrite (arr_set_pre_filled_at capF _ lf) by lia.
  rewrite arr_set_pre_filled_at by (rewrite ?length_app; simpl; lia).
  rewrite (arr_set_pre_filled_at capF _ lu) by lia.
  rewrite arr_set_pre_filled_at by (rewrite ?length_app; simpl; lia).
  rewrite <- !app_assoc. rewrite !length_app. simpl. reflexivity.
Qed.

(** One side of a column, on the lists: nothing, or two vertices, two faces
    and two UV triples. *)
Lemma block_side_of (depth neighbour : JSNum) (p1 p2 : Vector3)
    (mk : nat -> Face3 * Face3) (t1 t2 : FaceUvs)
    (lv : list Vector3) (lf : list Face3) (lu : list FaceUvs) :
  length lv + 2 <= capV -> length lf + 2 <= capF -> length lu + 2 <= capF ->
  block_side true depth neighbour p1 p2 mk t1 t2 (block_state_of capV capF lv lf lu)
  = if Num.gt depth neighbour
    then block_state_of capV capF (lv ++ [p1; p2])
           (lf ++ [(mk (length lv)).1; (mk (length lv)).2]) (lu ++ [t1; t2])
    else block_state_of capV capF lv lf lu.
Proof.
  intros Hv Hf Hu. unfold block_side, block_state_of.
  destruct (Num.gt depth neighbour); [|reflexivity].
  rewrite block_push_vertices_of by (simpl; lia). cbn [bs_v].
  destruct (mk (length lv)) as [f1 f2]. cbn [fst snd].
  rewrite block_push_faces_of by lia. unfold block_add_v.
  cbn [bs_vertices bs_faces bs_uvs bs_v bs_faceIdx bs_uvIdx bs_vertexIdx].
  f_equal. rewrite length_app. reflexivity.
Qed.

End BlockShape.

Section BlockColumns.
Variables (capV capF : nat).

(** A side keeps the shape, with room for two more faces. *)
Lemma block_side_shape (depth neighbour : JSNum) (p1 p2 : Vector3)
    (mk : nat -> Face3 * Face3) (t1 t2 : FaceUvs)
    (j base lo hi : nat) (s : BlockState) :
  hi + 2 <= capF -> hi + base + 2 <= capV ->
  (forall v, j <= v ->
     face_below (v + 2) (mk v).1 /\ face_below (v + 2) (mk v).2) ->
  block_shape capV capF j base lo hi s ->
  block_shape capV capF j base lo (hi + 2)
    (block_side true depth neighbour p1 p2 mk t1 t2 s).
Proof.
  intros HcF HcV Hmk (lv & lf & lu & -> & Hu & Hv & Hlo & Hhi & Hj & Hall).
  rewrite block_side_of by lia.
  destruct (Num.gt depth neighbour).
  - exists (lv ++ [p1; p2]), (lf ++ [(mk (length lv)).1; (mk (length lv)).2]),
      (lu ++ [t1; t2]).
    unfold FaceUvs in *. rewrite !length_app. simpl.
    repeat split; try lia.
    destruct (Hmk (length lv) Hj) as [H1 H2].
    apply Forall_app. split.
    + eapply Forall_impl; [exact Hall|]. intros f. apply face_below_mono. lia.
    + apply List.Forall_cons; [exact H1|].
      apply List.Forall_cons; [exact H2|]. apply List.Forall_nil.
  - exists lv, lf, lu. repeat split; try lia. exact Hall.
Qed.

(** A column adds four to twelve vertices and two fewer faces. *)
Lemma block_column_shape (depths : list (list JSNum)) (W H : nat)
    (iw ih wr hr itw ith : JSNum) (y x c : nat) (s : BlockState) :
  10 * (c + 1) <= capF -> 12 * (c + 1) <= capV ->
  block_shape capV capF 0 (2 * c) (2 * c) (10 * c) s ->
  block_shape capV capF 0 (2 * (c + 1)) (2 * (c + 1)) (10 * (c + 1))
    (block_column true depths W H iw ih wr hr itw ith y x s).
Proof.
  intros HcF HcV (lv & lf & lu & -> & Hu & Hv & Hlo & Hhi & _ & Hall).
  unfold block_column.
  set (depth := depth_read depths y x).
  set (dL := if 0 <? x then _ else _). set (dR := if x <? W - 1 then _ else _).
  set (dT := if 0 <? y then _ else _). set (dB := if y <? H - 1 then _ else _).
  cbv zeta.
  match goal with
  | |- context [block_push_faces ?f1 ?f2 ?t1 ?t2
                  (block_add_v 4 (block_push_vertices ?ps _))] =>
      assert (Hfront :
        block_shape capV capF (length lv + 4) (2 * (c + 1)) (2 * (c + 1))
          (10 * c + 2)
          (block_push_faces f1 f2 t1 t2
             (block_add_v 4
                (block_push_vertices ps (block_state_of capV capF lv lf lu)))))
  end.
  { unfold block_state_of.
    cbn [bs_vertices bs_faces bs_uvs bs_v bs_faceIdx bs_uvIdx bs_vertexIdx].
    rewrite block_push_vertices_of by (simpl; lia).
    unfold block_add_v.
    cbn [bs_vertices bs_faces bs_uvs bs_v bs_faceIdx bs_uvIdx bs_vertexIdx].
    rewrite block_push_faces_of by lia.
    eexists _, _, _. split.
    - unfold block_state_of. f_equal. rewrite length_app. reflexivity.
    - unfold FaceUvs in *. rewrite !length_app. simpl.
      repeat split; try lia.
      apply Forall_app. split.
      + eapply Forall_impl; [exact Hall|]. intros f. apply face_below_mono. lia.
      + apply List.Forall_cons; [unfold face_below; simpl; lia|].
        apply List.Forall_cons; [unfold face_below; simpl; lia|].
        apply List.Forall_nil. }
  cbn [bs_v block_state_of] in *.
  assert (Hend : forall s',
    block_shape capV capF (length lv + 4) (2 * (c + 1)) (2 * (c + 1))
      (10 * c + 2 + 2 + 2 + 2 + 2) s' ->
    block_shape capV capF 0 (2 * (c + 1)) (2 * (c + 1)) (10 * (c + 1)) s').
  { intros s' (lv' & lf' & lu' & -> & ? & ? & ? & ? & ? & ?).
    exists lv', lf', lu'. repeat split; try lia; assumption. }
  apply Hend.
  apply block_side_shape; [lia | lia | |].
  { intros v Hv'. unfold face_below. simpl. lia. }
  apply block_side_shape; [lia | lia | |].
  { intros v Hv'. unfold face_below. simpl. lia. }
  apply block_side_shape; [lia | lia | |].
  { intros v Hv'. unfold face_below. simpl. lia. }
  apply block_side_shape; [lia | lia | |].
  { intros v Hv'. unfold face_below. simpl. lia. }
  exact Hfront.
Qed.

(** The whole column loop, from empty arrays. *)
Lemma block_loop_shape (depths : list (list JSNum)) (W H : nat)
    (iw ih wr hr itw ith : JSNum) :
  capF = 10 * (W * H) -> capV = 12 * (W * H) ->
  block_shape capV capF 0 (2 * (W * H)) (2 * (W * H)) (10 * (W * H))
    (for_range H (fun y s =>
       for_range W (block_column true depths W H iw ih wr hr itw ith y) s)
       (block_state_of capV capF [] [] [])).
Proof.
  intros HcF HcV.
  pose (P := fun (c : nat) (s : BlockState) =>
    block_shape capV capF 0 (2 * c) (2 * c) (10 * c) s).
  assert (HP : forall y, y <= H -> P (W * y) (for_range y (fun y s =>
       for_range W (block_column true depths W H iw ih wr hr itw ith y) s)
       (block_state_of capV capF [] [] []))).
  { intros y0 Hy0.
    apply (for_range_ind (fun y s => y <= H -> P (W * y) s)); [| |exact Hy0].
    - intros _. unfold P. rewrite Nat.mul_0_r.
      exists [], [], []. simpl. repeat split; try lia. constructor.
    - intros y s Hy IH _.
      assert (Hs : P (W * y) s) by (apply IH; lia).
      assert (HQ : forall x, x <= W -> P (W * y + x)
        (for_range x (block_column true depths W H iw ih wr hr itw ith y) s)).
      { intros x0 Hx0.
        apply (for_range_ind (fun x s' => x <= W -> P (W * y + x) s'));
          [| |exact Hx0].
        - intros _. by rewrite Nat.add_0_r.
        - intros x s' Hx IHx _. unfold P in *.
          rewrite Nat.add_assoc. apply block_column_shape; [nia | nia |].
          apply IHx. lia. }
      replace (W * (y + 1)) with (W * y + W) by lia.
      apply HQ. lia. }
  unfold P in HP. replace (W * H) with (W * H) in * by lia.
  specialize (HP H (le_n _)). exact HP.
Qed.

End BlockColumns.

(* ================================================================= *)
(** ** Block style, texel by texel *)

Section BlockTexels.
Variables (m : Image3D) (data : HeightData) (W H : nat).
Variables (capV capF : nat).
Variables (wr hr itw ith : JSNum).

Let depths := block_depths m data W H.

Lemma texel_index (y x : nat) :
  x < W -> (y * W + x) mod W = x /\ (y * W + x) / W = y.
Proof.
  intros Hx. replace (y * W + x) with (x + y * W) by lia.
  rewrite Nat.Div0.mod_add, Nat.div_add by lia.
  rewrite Nat.mod_small, Nat.div_small by lia. done.
Qed.

(** The neighbour the code reads on each side is the texel of that
    direction. *)
Lemma neighbour_read (y x : nat) :
  y < H -> x < W ->
  depth_read depths y x = texel_depth m data W y x
  /\ (if 0 <? x then depth_read depths y (x - 1) else Num.zero)
     = neighbour_depth m data W H SideLeft y x
  /\ (if x <? W - 1 then depth_read depths y (x + 1) else Num.zero)
     = neighbour_depth m data W H SideRight y x
  /\ (if 0 <? y then depth_read depths (y - 1) x else Num.zero)
     = neighbour_depth m data W H SideTop y x
  /\ (if y <? H - 1 then depth_read depths (y + 1) x else Num.zero)
     = neighbour_depth m data W H SideBottom y x.
Proof.
  intros Hy Hx. unfold depths, neighbour_depth, texel_depth.
  split; [by apply block_depths_spec|].
  split; [destruct (Nat.ltb_spec 0 x); [apply block_depths_spec; lia|done]|].
  split; [destruct (Nat.ltb_spec x (W - 1)); [apply block_depths_spec; lia|done]|].
  split; [destruct (Nat.ltb_spec 0 y); [apply block_depths_spec; lia|done]|].
  destruct (Nat.ltb_spec y (H - 1)); [apply block_depths_spec; lia|done].
Qed.

Lemma length_side_corners (y x : nat) (s : BlockSide) :
  length (side_corners m data W H y x s) = 2.
Proof. by destruct s. Qed.

Lemma length_side_faces (j v : nat) (s : BlockSide) : length (side_faces j v s) = 2.
Proof. by destruct s. Qed.

Lemma length_sides_faces (j v : nat) (ss : list BlockSide) :
  length (sides_faces j v ss) = 2 * length ss.
Proof.
  revert v. induction ss as [|s ss IH]; intros v; simpl; [done|].
  rewrite length_app, length_side_faces, IH. lia.
Qed.

Lemma length_emitted_sides (y x : nat) : length (emitted_sides m data W H y x) <= 4.
Proof.
  unfold emitted_sides.
  etransitivity; [apply List.filter_length_le|]. done.
Qed.

Lemma length_block_texel_vertices (k : nat) :
  length (block_texel_vertices m data W H k)
  = 4 + 2 * length (emitted_sides m data W H (k / W) (k mod W)).
Proof.
  unfold block_texel_vertices. cbv zeta. rewrite length_app.
  rewrite (length_flat_map_const _ 2) by apply length_side_corners.
  simpl. lia.
Qed.

Lemma length_block_texel_faces (k : nat) :
  length (block_texel_faces m data W H k)
  = 2 + 2 * length (emitted_sides m data W H (k / W) (k mod W)).
Proof.
  unfold block_texel_faces. cbv zeta. rewrite length_app, length_sides_faces.
  simpl. lia.
Qed.

(** The front of a column, on the lists. *)
Lemma block_front_of (ps : list Vector3) (f1 f2 : Face3) (t1 t2 : FaceUvs)
    (lv : list Vector3) (lf : list Face3) (lu : list FaceUvs) :
  length ps = 4 ->
  length lv + 4 <= capV -> length lf + 2 <= capF -> length lu + 2 <= capF ->
  block_push_faces f1 f2 t1 t2
    (block_add_v 4 (block_push_vertices ps (block_state_of capV capF lv lf lu)))
  = block_state_of capV capF (lv ++ ps) (lf ++ [f1; f2]) (lu ++ [t1; t2]).
Proof.
  intros Hps HcV HcF HcU. unfold block_state_of.
  rewrite block_push_vertices_of by lia. unfold block_add_v.
  cbn [bs_vertices bs_faces bs_uvs bs_v bs_faceIdx bs_uvIdx bs_vertexIdx].
  rewrite block_push_faces_of by lia.
  f_equal. rewrite length_app. lia.
Qed.

(** The column of texel [(x, y)], on the lists. *)
Lemma block_column_exact (y x : nat) (lv : list Vector3) (lf : list Face3)
    (lu : list FaceUvs) :
  y < H -> x < W ->
  length lv + 12 <= capV -> length lf + 10 <= capF -> length lu = length lf ->
  length lv = block_offset m data W H (y * W + x) ->
  exists us,
    block_column true depths W H (inv_of W) (inv_of H) wr hr itw ith y x
      (block_state_of capV capF lv lf lu)
    = block_state_of capV capF
        (lv ++ block_texel_vertices m data W H (y * W + x))
        (lf ++ block_texel_faces m data W H (y * W + x))
        (lu ++ us)
    /\ length us = length (block_texel_faces m data W H (y * W + x)).
Proof.
  intros Hy Hx HcV HcF Hlu Hoff.
  destruct (neighbour_read y x Hy Hx) as (Hd & HL & HR & HT & HB).
  destruct (texel_index y x Hx) as [Hmod Hdiv].
  unfold block_texel_vertices, block_texel_faces, emitted_sides, block_sides,
    side_emitted.
  rewrite Hmod, Hdiv, <- Hoff. cbv zeta.
  unfold block_column. rewrite HL, HR, HT, HB, Hd. cbv zeta.
  change (bs_v (block_state_of capV capF lv lf lu)) with (length lv).
  rewrite block_front_of by (try reflexivity; lia).
  unfold FaceUvs in *.
  cbn [List.filter].
  destruct (Num.gt (texel_depth m data W y x)
              (neighbour_depth m data W H SideLeft y x)) eqn:EL,
    (Num.gt (texel_depth m data W y x)
       (neighbour_depth m data W H SideRight y x)) eqn:ER,
    (Num.gt (texel_depth m data W y x)
       (neighbour_depth m data W H SideTop y x)) eqn:ET,
    (Num.gt (texel_depth m data W y x)
       (neighbour_depth m data W H SideBottom y x)) eqn:EB;
    rewrite block_side_of, EL by (rewrite ?length_app; simpl; lia);
    rewrite block_side_of, ER by (rewrite ?length_app; simpl; lia);
    rewrite block_side_of, ET by (rewrite ?length_app; simpl; lia);
    rewrite block_side_of, EB by (rewrite ?length_app; simpl; lia);
    rewrite ?length_app;
    cbn [length fst snd flat_map sides_faces side_faces side_corners app];
    rewrite <- ?app_assoc; cbn [app];
    (eexists; split;
     [ f_equal; try reflexivity; rewrite <- ?app_assoc; cbn [app];
       repeat f_equal; lia
     | reflexivity ]).
Qed.

End BlockTexels.

Section BlockExact.
Variables (m : Image3D) (imgs : list ImageObj) (data : HeightData).
Variables (W H tw th : nat).
Hypothesis Hw : heightmapWidth_ m = Some W.
Hypothesis Hh : heightmapHeight_ m = Some H.
Hypothesis Htex : texture_size m imgs = Some (tw, th).

Let VS (c : nat) : list Vector3 :=
  flat_map (block_texel_vertices m data W H) (seq 0 c).
Let FS (c : nat) : list Face3 :=
  flat_map (block_texel_faces m data W H) (seq 0 c).

Lemma length_block_vertices_le (c : nat) : length (VS c) <= 12 * c.
Proof.
  unfold VS. induction c as [|c IH]; [done|].
  rewrite seq_S, flat_map_app, length_app. cbn [flat_map Nat.add].
  rewrite app_nil_r, length_block_texel_vertices.
  pose proof (length_emitted_sides m data W H (c / W) (c mod W)). lia.
Qed.

Lemma length_block_faces (c : nat) :
  length (FS c)
  = 2 * c + 2 * length (flat_map (fun k => emitted_sides m data W H (k / W) (k mod W))
                          (seq 0 c)).
Proof.
  unfold FS. induction c as [|c IH]; [done|].
  rewrite !seq_S, !flat_map_app, !length_app. cbn [flat_map Nat.add].
  rewrite !app_nil_r, length_block_texel_faces, IH. lia.
Qed.

Lemma length_block_faces_le (c : nat) : length (FS c) <= 10 * c.
Proof.
  unfold FS. induction c as [|c IH]; [done|].
  rewrite seq_S, flat_map_app, length_app. cbn [flat_map Nat.add].
  rewrite app_nil_r, length_block_texel_faces.
  pose proof (length_emitted_sides m data W H (c / W) (c mod W)). lia.
Qed.

(** The whole column loop, on the lists. *)
Lemma block_loop_exact (wr hr itw ith : JSNum) :
  exists lu,
    for_range H (fun y s =>
      for_range W (block_column true (block_depths m data W H) W H
                     (inv_of W) (inv_of H) wr hr itw ith y) s)
      (block_state_of (12 * (W * H)) (10 * (W * H)) [] [] [])
    = block_state_of (12 * (W * H)) (10 * (W * H)) (VS (W * H)) (FS (W * H)) lu
    /\ length lu = length (FS (W * H)).
Proof.
  set (capV := 12 * (W * H)). set (capF := 10 * (W * H)).
  pose (P := fun (c : nat) (s : BlockState) =>
    exists lu, s = block_state_of capV capF (VS c) (FS c) lu
               /\ length lu = length (FS c)).
  assert (HP : forall y, y <= H -> P (y * W) (for_range y (fun y s =>
      for_range W (block_column true (block_depths m data W H) W H
                     (inv_of W) (inv_of H) wr hr itw ith y) s)
      (block_state_of capV capF [] [] []))).
  { intros y0 Hy0.
    apply (for_range_ind (fun y s => y <= H -> P (y * W) s)); [| |exact Hy0].
    - intros _. by exists [].
    - intros y s Hy IH _.
      assert (Hs : P (y * W) s) by (apply IH; lia).
      assert (HQ : forall x, x <= W -> P (y * W + x)
        (for_range x (block_column true (block_depths m data W H) W H
                        (inv_of W) (inv_of H) wr hr itw ith y) s)).
      { intros x0 Hx0.
        apply (for_range_ind (fun x s' => x <= W -> P (y * W + x) s'));
          [| |exact Hx0].
        - intros _. by rewrite Nat.add_0_r.
        - intros x s' Hx IHx _.
          destruct (IHx ltac:(lia)) as (lu & -> & Hlu).
          set (k := y * W + x) in *.
          assert (Hk : k < W * H) by (unfold k; nia).
          pose proof (length_block_vertices_le k).
          pose proof (length_block_faces_le k).
          destruct (block_column_exact m data W H capV capF wr hr itw ith
                      y x (VS k) (FS k) lu)
            as (us & Hcol & Hus);
            [lia | lia | unfold capV; lia | unfold capF; lia | exact Hlu
            | reflexivity |].
          fold k in Hcol, Hus. rewrite Hcol.
          replace (y * W + (x + 1)) with (S k) by (unfold k; lia).
          exists (lu ++ us). unfold VS, FS.
          rewrite !seq_S, !flat_map_app. cbn [flat_map Nat.add].
          rewrite !app_nil_r. split; [reflexivity|].
          unfold FaceUvs in *. rewrite !length_app. unfold FS in Hlu. lia. }
      replace ((y + 1) * W) with (y * W + W) by lia.
      apply HQ. lia. }
  specialize (HP H (le_n _)). replace (H * W) with (W * H) in HP by lia.
  exact HP.
Qed.

(** What [createBlockGeometry_] returns when it creates faces: the columns
    of the texels, row by row. *)
Lemma createBlockGeometry_exact (g : Geometry) (o : VerticesOwner) :
  exists uvs,
    createBlockGeometry_ m imgs g o (Some data) true
    = Done (mkGeometry (arr_of (VS (W * H))) (arr_of (FS (W * H))) (arr_of uvs)
              (morphTargets g), o)
    /\ length uvs = length (FS (W * H)).
Proof.
  unfold createBlockGeometry_. rewrite Htex, Hw, Hh.
  replace (Z.of_nat W * Z.of_nat H * 10)%Z with (Z.of_nat (10 * (W * H))) by lia.
  replace (Z.of_nat W * Z.of_nat H * 12)%Z with (Z.of_nat (12 * (W * H))) by lia.
  rewrite !new_Array_pre_filled. cbn [rbind set_faces faces faceVertexUvs0].
  destruct (block_loop_exact (Num.of_nat tw / Num.of_nat W)%num
              (Num.of_nat th / Num.of_nat H)%num
              (Num.one / Num.of_nat tw)%num (Num.one / Num.of_nat th)%num)
    as (lu & Hloop & Hlu).
  unfold block_state_of at 1 in Hloop. cbn [length] in Hloop.
  unfold inv_of in Hloop. rewrite Hloop.
  unfold block_state_of.
  cbn [bs_vertices bs_faces bs_uvs bs_v bs_faceIdx bs_uvIdx bs_vertexIdx].
  rewrite !arr_set_length_pre_filled.
  exists lu. split; [reflexivity|exact Hlu].
Qed.

End BlockExact.

(** A side is among the emitted ones exactly when the neighbour of that
    direction is strictly lower. *)
Lemma emitted_sides_spec (m : Image3D) (data : HeightData) (W H y x : nat)
    (s : BlockSide) :
  In s (emitted_sides m data W H y x)
  <-> Num.gt (texel_depth m data W y x) (neighbour_depth m data W H s y x) = true.
Proof.
  unfold emitted_sides. rewrite List.filter_In. unfold side_emitted, block_sides.
  split; [by intros [_ ?]|]. intros Hgt. split; [|done].
  destruct s; simpl; tauto.
Qed.

(** The face count of a flat heightmap. *)
Lemma createBlockGeometry_flat (m : Image3D) (imgs : list ImageObj)
    (data : HeightData) (W H tw th : nat) (d : JSNum) (g : Geometry) :
  heightmapWidth_ m = Some W ->
  heightmapHeight_ m = Some H ->
  1 <= W -> 1 <= H ->
  texture_size m imgs = Some (tw, th) ->
  (forall i, i < W * H -> getDepth_ m data (4 * i) = d) ->
  exists g',
    createBlockGeometry_ m imgs g OwnGeometry (Some data) true = Done (g', OwnGeometry)
    /\ length (faces g')
       = 2 * W * H + (if Num.gt d Num.zero then 4 * (W + H) else 0).
Proof.
  intros Hw Hh HW HH Htex Hflat.
  unfold createBlockGeometry_. rewrite Htex, Hw, Hh.
  rewrite !new_Array_nonneg by lia. cbn [rbind].
  eexists. split; [reflexivity|].
  cbn [faces set_faces]. rewrite length_arr_set_length.
  rewrite (flat_loop_faceIdx m data W H d) by done.
  cbn [bs_faceIdx]. destruct (Num.gt d Num.zero); simpl; lia.
Qed.

(** C2, amended.  In block style the column of texel [(x, y)] has a side
    quad in a direction exactly when the depth of the neighbour in that
    direction is strictly less than the texel's own, where a neighbour
    outside the image counts as depth 0: the vertices of the geometry are,
    texel by texel, the four corners of the front followed by the two
    corners of every such side (on that edge of the texel, at the depth of
    that neighbour), and the faces are two triangles for the front and two
    for every such side.  Hence the geometry has two faces for every texel and
    two for every side quad; a flat W x H heightmap of common depth [d] has
    no side quad between two texels, so it has [2 * W * H] faces when [d] is
    not above 0, and the border columns add [4 * (W + H)] faces when it
    is. *)
Theorem block_culling (m : Image3D) (imgs : list ImageObj) (data : HeightData)
    (W H tw th : nat) (g : Geometry) :
  heightmapWidth_ m = Some W ->
  heightmapHeight_ m = Some H ->
  texture_size m imgs = Some (tw, th) ->
  exists g' uvs,
    createBlockGeometry_ m imgs g OwnGeometry (Some data) true = Done (g', OwnGeometry)
    /\ vertices g'
       = arr_of (flat_map (block_texel_vertices m data W H) (seq 0 (W * H)))
    /\ faces g'
       = arr_of (flat_map (block_texel_faces m data W H) (seq 0 (W * H)))
    /\ faceVertexUvs0 g' = arr_of uvs
    /\ length uvs = length (faces g')
    /\ (forall y x s,
          In s (emitted_sides m data W H y x)
          <-> Num.gt (texel_depth m data W y x)
                (neighbour_depth m data W H s y x) = true)
    /\ length (faces g') = 2 * (W * H) + 2 * side_quads m data W H
    /\ (forall d, 1 <= W -> 1 <= H ->
          (forall i, i < W * H -> getDepth_ m data (4 * i) = d) ->
          side_quads m data W H = (if Num.gt d Num.zero then 2 * (W + H) else 0)
          /\ length (faces g')
             = 2 * W * H + (if Num.gt d Num.zero then 4 * (W + H) else 0)).
Proof.
  intros Hw Hh Htex.
  destruct (createBlockGeometry_exact m imgs data W H tw th Hw Hh Htex
              g OwnGeometry) as (uvs & Hblock & Hu).
  assert (Hlen : length (flat_map (block_texel_faces m data W H) (seq 0 (W * H)))
                 = 2 * (W * H) + 2 * side_quads m data W H)
    by apply length_block_faces.
  eexists _, uvs. split; [exact Hblock|].
  cbn [vertices faces faceVertexUvs0]. rewrite length_arr_of.
  split; [reflexivity|]. split; [reflexivity|]. split; [reflexivity|].
  split; [exact Hu|]. split; [apply emitted_sides_spec|].
  split; [exact Hlen|].
  intros d HW HH Hflat.
  destruct (createBlockGeometry_flat m imgs data W H tw th d g
              Hw Hh HW HH Htex Hflat) as (g1 & Hg1 & Hcount).
  rewrite Hblock in Hg1. injection Hg1 as <-.
  cbn [faces] in Hcount. rewrite length_arr_of in Hcount.
  split; [|exact Hcount].
  rewrite Hlen in Hcount. destruct (Num.gt d Num.zero); lia.
Qed.

Lemma block_culling_witness :
  exists g',
    createBlockGeometry_ white_block_model example_images new_Geometry
      OwnGeometry (Some (DPixels white_pixels)) true = Done (g', OwnGeometry)
    /\ vertices g'
       = arr_of (flat_map (block_texel_vertices white_block_model
                             (DPixels white_pixels) 2 2) (seq 0 (2 * 2)))
    /\ faces g'
       = arr_of (flat_map (block_texel_faces white_block_model
                             (DPixels white_pixels) 2 2) (seq 0 (2 * 2)))
    /\ side_quads white_block_model (DPixels white_pixels) 2 2 = 2 * (2 + 2)
    /\ length (faces g') = 2 * 2 * 2 + 4 * (2 + 2).
Proof.
  destruct (block_culling white_block_model example_images (DPixels white_pixels)
              2 2 4 4 new_Geometry)
    as (g' & uvs & Hrun & Hv & Hf & _ & _ & _ & _ & Hflat);
    [reflexivity | reflexivity | reflexivity |].
  destruct (Hflat (Num.of_Z 200)) as [Hq Hn]; [lia | lia | |].
  { intros i Hi. do 4 (destruct i as [|i]; [num_eq|]). lia. }
  exists g'. repeat split; assumption.
Defined.

Section BlockGeometry.
Variables (m : Image3D) (imgs : list ImageObj) (W H tw th : nat).
Hypothesis Hstyle : geometryStyle_ m = GeometryStyle_Block.
Hypothesis Hw : heightmapWidth_ m = Some W.
Hypothesis Hh : heightmapHeight_ m = Some H.
Hypothesis Htex : texture_size m imgs = Some (tw, th).

Lemma createHeightmapGeometry_block (d : HeightData) (g : Geometry)
    (o : VerticesOwner) (cf : bool) :
  createHeightmapGeometry_ m imgs (Some d) g o cf
  = createBlockGeometry_ m imgs g o (Some d) cf.
Proof. unfold createHeightmapGeometry_. rewrite Hstyle. reflexivity. Qed.

(** The arrays [createBlockGeometry_] returns when it creates faces. *)
Lemma createBlockGeometry_shape (g : Geometry) (o : VerticesOwner)
    (d : HeightData) :
  exists lv lf lu,
    createBlockGeometry_ m imgs g o (Some d) true
    = Done (mkGeometry (arr_of lv) (arr_of lf) (arr_of lu) (morphTargets g), o)
    /\ length lu = length lf
    /\ length lv = length lf + 2 * (W * H)
    /\ 2 * (W * H) <= length lf /\ length lf <= 10 * (W * H)
    /\ Forall (face_below (length lv)) lf.
Proof.
  unfold createBlockGeometry_. rewrite Htex, Hw, Hh.
  replace (Z.of_nat W * Z.of_nat H * 10)%Z with (Z.of_nat (10 * (W * H))) by lia.
  replace (Z.of_nat W * Z.of_nat H * 12)%Z with (Z.of_nat (12 * (W * H))) by lia.
  rewrite !new_Array_pre_filled. cbn [rbind set_faces faces faceVertexUvs0].
  match goal with |- context [for_range H ?body ?s0] =>
    destruct (block_loop_shape (12 * (W * H)) (10 * (W * H))
                (block_depths m d W H) W H
                (Num.one / Num.of_nat W)%num (Num.one / Num.of_nat H)%num
                (Num.of_nat tw / Num.of_nat W)%num (Num.of_nat th / Num.of_nat H)%num
                (Num.one / Num.of_nat tw)%num (Num.one / Num.of_nat th)%num
                eq_refl eq_refl)
      as (lv & lf & lu & Hs & Hu & Hv & Hlo & Hhi & _ & Hall)
  end.
  unfold block_state_of at 1 in Hs. cbn [length] in Hs. rewrite Hs.
  unfold block_state_of.
  cbn [bs_vertices bs_faces bs_uvs bs_v bs_faceIdx bs_uvIdx bs_vertexIdx].
  rewrite !arr_set_length_pre_filled.
  exists lv, lf, lu. repeat split; try assumption; try lia.
Qed.

(** With no heightmap in slots 1 to 3 every morph target is the vertex array
    of the geometry itself. *)
Lemma add_morph_target_alias (i : nat) (g : Geometry) :
  (1 <= i -> arr_get i (heightmaps_ m) = None) ->
  add_morph_target m imgs i g
  = Done (mkGeometry (vertices g) (faces g) (faceVertexUvs0 g)
            (morphTargets g ++ [mkMorphTarget ("target" ++ pretty i) (vertices g)])).
Proof.
  intros Hnone. unfold add_morph_target.
  destruct i as [|i].
  - rewrite orb_true_r. reflexivity.
  - rewrite Hnone by lia. reflexivity.
Qed.

End BlockGeometry.

(** X5.  In block style, for a model with one heightmap, the geometry has
    between [2 * W * H] and [10 * W * H] faces, one UV triple per face and
    exactly [2 * W * H] more vertices than faces; the three arrays have no
    hole, every face names three vertices of the geometry, and each of the
    four morph targets is the vertex array of the geometry itself. *)
Theorem block_geometry_shape (m : Image3D) (imgs : list ImageObj)
    (W H tw th : nat) (d0 : HeightData) :
  geometryStyle_ m = GeometryStyle_Block ->
  heightmapWidth_ m = Some W -> heightmapHeight_ m = Some H ->
  texture_size m imgs = Some (tw, th) ->
  arr_get 0 (heightmapData_ m) = Some d0 ->
  (forall i, 1 <= i -> arr_get i (heightmaps_ m) = None) ->
  exists g lv lf lu,
    build_geometry m imgs = Done g
    /\ vertices g = arr_of lv /\ faces g = arr_of lf
    /\ faceVertexUvs0 g = arr_of lu
    /\ length lu = length lf
    /\ length lv = length lf + 2 * (W * H)
    /\ 2 * (W * H) <= length lf /\ length lf <= 10 * (W * H)
    /\ Forall (face_below (length lv)) lf
    /\ (forall i, i < 4 -> exists t,
          morphTargets g !! i = Some t /\ mt_vertices t = vertices g).
Proof.
  intros Hstyle Hw Hh Htex Hd0 Hnone.
  destruct (createBlockGeometry_shape m imgs W H tw th Hw Hh Htex
              new_Geometry OwnGeometry d0)
    as (lv & lf & lu & Hblock & Hu & Hv & Hlo & Hhi & Hall).
  exists (mkGeometry (arr_of lv) (arr_of lf) (arr_of lu)
            [mkMorphTarget "target0" (arr_of lv);
             mkMorphTarget "target1" (arr_of lv);
             mkMorphTarget "target2" (arr_of lv);
             mkMorphTarget "target3" (arr_of lv)]), lv, lf, lu.
  split.
  - unfold build_geometry.
    rewrite Hd0, (createHeightmapGeometry_block m imgs Hstyle), Hblock.
    cbn [rbind].
    assert (Hnum : (numValidHeightmaps m <=? 1) = true).
    { unfold numValidHeightmaps. change (seq 0 4) with [0; 1; 2; 3].
      rewrite !filter_cons, filter_nil.
      rewrite (Hnone 1), (Hnone 2), (Hnone 3) by lia.
      apply Nat.leb_le.
      repeat match goal with
             | |- context [decide (is_Some ?o)] =>
                 destruct (decide (is_Some o)) as [Hs|Hs];
                 try (exfalso; by apply is_Some_None in Hs)
             end; simpl; lia. }
    rewrite Hnum. cbn [orb rassert rbind seq foldl].
    rewrite (add_morph_target_alias m imgs 0) by (intros; apply Hnone; lia).
    cbn [rbind].
    rewrite (add_morph_target_alias m imgs 1) by (intros; apply Hnone; lia).
    cbn [rbind].
    rewrite (add_morph_target_alias m imgs 2) by (intros; apply Hnone; lia).
    cbn [rbind].
    rewrite (add_morph_target_alias m imgs 3) by (intros; apply Hnone; lia).
    reflexivity.
  - cbn [vertices faces faceVertexUvs0 morphTargets].
    repeat split; try assumption; try lia.
    intros i Hi. do 4 (destruct i as [|i]; [eexists; split; reflexivity|]). lia.
Qed.

Lemma block_geometry_shape_witness :
  exists g lv lf lu,
    build_geometry white_block_model example_images = Done g
    /\ vertices g = arr_of lv /\ faces g = arr_of lf
    /\ faceVertexUvs0 g = arr_of lu
    /\ length lu = length lf
    /\ length lv = length lf + 2 * (2 * 2)
    /\ 2 * (2 * 2) <= length lf /\ length lf <= 10 * (2 * 2)
    /\ Forall (face_below (length lv)) lf
    /\ (forall i, i < 4 -> exists t,
          morphTargets g !! i = Some t /\ mt_vertices t = vertices g).
Proof.
  apply (block_geometry_shape white_block_model example_images 2 2 4 4
           (DPixels white_pixels));
    [reflexivity | reflexivity | reflexivity | reflexivity | reflexivity |].
  intros i Hi. destruct i as [|[|i]]; [lia | reflexivity | reflexivity].
Defined.

(** X6.  Block style refuses a model with two or more heightmaps: the primary
    geometry is built first, then the assertion fails.  [createGeometry_]
    then ends with the failure, having stored the new key in [geometryKey_];
    the geometry slot, the cache and everything else are as before. *)
Theorem block_multiple_heightmaps (numToString : JSNum -> string) (w : World)
    (W H tw th : nat) (d0 : HeightData) :
  geometryStyle_ (this w) = GeometryStyle_Block ->
  heightmapWidth_ (this w) = Some W -> heightmapHeight_ (this w) = Some H ->
  texture_size (this w) (images w) = Some (tw, th) ->
  arr_get 0 (heightmapData_ (this w)) = Some d0 ->
  2 <= numValidHeightmaps (this w) ->
  cache_has (geometry_key numToString (this w)) w = false ->
  build_geometry (this w) (images w)
  = Fail (AssertFail "Block geometry does not support multiple heightmaps.")
  /\ createGeometry_ numToString w
     = Throw (AssertFail "Block geometry does not support multiple heightmaps.")
         (set_this (set_geometryKey_ (geometry_key numToString (this w)) (this w)) w).
Proof.
  intros Hstyle Hw Hh Htex Hd0 Hnum Hmiss.
  assert (Hbuild : forall m' : Image3D,
    geometryStyle_ m' = geometryStyle_ (this w) ->
    heightmapWidth_ m' = heightmapWidth_ (this w) ->
    heightmapHeight_ m' = heightmapHeight_ (this w) ->
    image_ m' = image_ (this w) ->
    heightmapData_ m' = heightmapData_ (this w) ->
    heightmaps_ m' = heightmaps_ (this w) ->
    build_geometry m' (images w)
    = Fail (AssertFail "Block geometry does not support multiple heightmaps.")).
  { intros m' E1 E2 E3 E4 E5 E6.
    assert (Htex' : texture_size m' (images w) = Some (tw, th))
      by (unfold texture_size in *; by rewrite E4).
    destruct (createBlockGeometry_shape m' (images w) W H tw th
                ltac:(congruence) ltac:(congruence) Htex'
                new_Geometry OwnGeometry d0)
      as (lv & lf & lu & Hblock & _).
    unfold build_geometry.
    rewrite E5, Hd0, (createHeightmapGeometry_block m' (images w)) by congruence.
    rewrite Hblock. cbn [rbind].
    unfold numValidHeightmaps in *. rewrite E6.
    destruct (Nat.leb_spec (length (filter (fun i => is_Some (arr_get i (heightmaps_ (this w))))
                                     (seq 0 4))) 1) as [Hle|_]; [lia|].
    rewrite E1, Hstyle. reflexivity. }
  split; [by apply Hbuild|].
  unfold createGeometry_, bind, gets, modify_this, modify, lift.
  cbn -[geometry_key build_geometry].
  set (key := geometry_key numToString (this w)) in *.
  replace (cache_has key (set_this (set_geometryKey_ key (this w)) w))
    with (cache_has key w) by (by destruct w).
  rewrite Hmiss.
  replace (images (set_this (set_geometryKey_ key (this w)) w))
    with (images w) by (by destruct w).
  replace (this (set_this (set_geometryKey_ key (this w)) w))
    with (set_geometryKey_ key (this w)) by (by destruct w).
  rewrite Hbuild; [reflexivity| | | | | |]; by destruct (this w).
Qed.

Lemma block_multiple_heightmaps_witness :
  build_geometry (this (world_of two_block_model))
    (images (set_images example_images (world_of two_block_model)))
  = Fail (AssertFail "Block geometry does not support multiple heightmaps.")
  /\ createGeometry_ print_num (set_images example_images (world_of two_block_model))
     = Throw (AssertFail "Block geometry does not support multiple heightmaps.")
         (set_this
            (set_geometryKey_
               (geometry_key print_num
                  (this (set_images example_images (world_of two_block_model))))
               (this (set_images example_images (world_of two_block_model))))
            (set_images example_images (world_of two_block_model))).
Proof.
  apply (block_multiple_heightmaps print_num
           (set_images example_images (world_of two_block_model)) 2 2 4 4
           (DPixels white_pixels));
    [reflexivity | reflexivity | reflexivity | reflexivity | reflexivity
    | vm_compute; lia | reflexivity].
Defined.

(* ================================================================= *)
(** ** Depth of a texel *)

Lemma Num_div_pos (x : Q) (p : positive) :
  Num.div (Fin (Q2Qc x)) (Num.of_Z (Zpos p)) = Fin (Q2Qc (x / inject_Z (Zpos p))).
Proof.
  unfold Num.div, Num.of_Z.
  change 0%Qc with (Q2Qc 0). rewrite Qc_compare_Q2Qc.
  change (inject_Z (Z.pos p) ?= 0)%Q with Gt.
  f_equal. apply Qc_is_canon.
  unfold Qcdiv, Qcmult, Qcinv, Q2Qc. cbn [Qcanon.this].
  rewrite !Qred_correct. reflexivity.
Qed.






(* ================================================================= *)
(** ** What a method leaves alone *)

Section Keeps.
Context {X : Type} (sel : World -> X).

Lemma keeps_ret {A} (a : A) : keeps sel (ret a).
Proof. by intros w. Qed.

Lemma keeps_throw {A} (f : Failure) : keeps sel (throw (A := A) f).
Proof. by intros w. Qed.

Lemma keeps_gets {A} (f : World -> A) : keeps sel (gets f).
Proof. by intros w. Qed.

Lemma keeps_lift {A} (r : result A) : keeps sel (lift r).
Proof. intros w. unfold lift. by destruct r. Qed.

Lemma keeps_assert (b : bool) (msg : string) : keeps sel (assert_ b msg).
Proof. intros w. unfold assert_. by destruct b. Qed.

Lemma keeps_bind {A B} (c : M A) (k : A -> M B) :
  keeps sel c -> (forall a, keeps sel (k a)) -> keeps sel (bind c k).
Proof.
  intros Hc Hk w. unfold bind. specialize (Hc w).
  destruct (c w) as [a w'|f w']; cbn in *.
  - rewrite Hk. exact Hc.
  - exact Hc.
Qed.

Lemma keeps_when (b : bool) (c : M unit) : keeps sel c -> keeps sel (when b c).
Proof. intros Hc. unfold when. destruct b; [exact Hc|apply keeps_ret]. Qed.

Lemma keeps_for_each {A} (l : list A) (c : A -> M unit) :
  (forall a, keeps sel (c a)) -> keeps sel (for_each l c).
Proof.
  intros Hc. induction l as [|a l IH]; cbn [for_each].
  - apply keeps_ret.
  - apply keeps_bind; [apply Hc|]. intros _. exact IH.
Qed.

Lemma keeps_on_views (f : WhichView -> M unit) :
  (forall which, keeps sel (f which)) -> keeps sel (on_views f).
Proof.
  intros Hf. unfold on_views. apply keeps_bind; [apply Hf|]. intros _.
  apply keeps_bind; [apply keeps_gets|]. intros st. apply keeps_when, Hf.
Qed.

Lemma keeps_modify (f : World -> World) :
  (forall w, sel (f w) = sel w) -> keeps sel (modify f).
Proof. intros Hf w. apply Hf. Qed.

Lemma keeps_modify_this (f : Image3D -> Image3D) :
  (forall w, sel (set_this (f (this w)) w) = sel w) -> keeps sel (modify_this f).
Proof. intros Hf w. apply Hf. Qed.

End Keeps.

(** A selector that reads the model object only is blind to the views, the
    cache, the images and the trace. *)
Section KeepsThis.
Context {X : Type} (sel : World -> X).
Hypothesis Hsel : reads_this sel.

Lemma keeps_this_emit (e : Effect) : keeps sel (emit e).
Proof. intros w. by apply Hsel. Qed.

Lemma keeps_this_modify_view (which : WhichView) (f : View -> View) :
  keeps sel (modify_view which f).
Proof.
  intros w. apply Hsel. unfold modify_view, modify. cbn.
  destruct (get_view which w); [|done]. by destruct which.
Qed.

Lemma keeps_this_view_field {A} (which : WhichView) (f : View -> A) :
  keeps sel (view_field which f).
Proof. intros w. unfold view_field. by destruct (get_view which w). Qed.

Lemma keeps_this_cache_get (key : string) : keeps sel (cache_get key).
Proof. intros w. unfold cache_get. by destruct (cache w !! key). Qed.

Lemma keeps_this_cache_set (key : string) (p : Payload) :
  keeps sel (cache_set key p).
Proof.
  intros w. unfold cache_set. destruct (cache w !! key); [done|]. by apply Hsel.
Qed.

Lemma keeps_this_cache_addRef (key : string) : keeps sel (cache_addRef key).
Proof.
  intros w. unfold cache_addRef. destruct (cache w !! key); [|done]. by apply Hsel.
Qed.

Lemma keeps_this_cache_release (key : string) : keeps sel (cache_release key).
Proof.
  intros w. unfold cache_release.
  destruct (cache w !! key) as [[p [|[|n]]]|]; try done.
  - destruct p; by apply Hsel.
  - by apply Hsel.
Qed.

Lemma keeps_this_set_images (f : World -> list ImageObj) :
  keeps sel (modify (fun w => set_images (f w) w)).
Proof. intros w. by apply Hsel. Qed.

Lemma keeps_this_cache_update (key : string) (f : HeightmapEntry -> HeightmapEntry) :
  keeps sel (modify (cache_update_heightmap key f)).
Proof.
  intros w. unfold modify, cache_update_heightmap. cbn.
  destruct (cache w !! key) as [[[e|g] n]|]; try done. by apply Hsel.
Qed.

End KeepsThis.

Create HintDb selectors.
#[local] Hint Unfold settings animator settings_animator weights max_height
  : selectors.

(** The selector reads the model object only. *)
Ltac selector_reads_this :=
  let H := fresh in
  intros ? ? H; autounfold with selectors; rewrite H; reflexivity.

(** One step of a proof that a computation keeps a part of the model
    object. *)
Ltac keeps_step :=
  lazymatch goal with
  | |- keeps _ (bind _ _) => apply keeps_bind; [|intros ?]
  | |- keeps _ (ret _) => apply keeps_ret
  | |- keeps _ (throw _) => apply keeps_throw
  | |- keeps _ (gets _) => apply keeps_gets
  | |- keeps _ (lift _) => apply keeps_lift
  | |- keeps _ (assert_ _ _) => apply keeps_assert
  | |- keeps _ (when _ _) => apply keeps_when
  | |- keeps _ (for_each _ _) => apply keeps_for_each; intros ?
  | |- keeps _ (on_views _) => apply keeps_on_views; intros ?
  | |- keeps _ (emit _) => apply keeps_this_emit; selector_reads_this
  | |- keeps _ (dispatch _) => apply keeps_this_emit; selector_reads_this
  | |- keeps _ (modify_view _ _) => apply keeps_this_modify_view; selector_reads_this
  | |- keeps _ (view_field _ _) => apply keeps_this_view_field
  | |- keeps _ (cache_get _) => apply keeps_this_cache_get
  | |- keeps _ (cache_set _ _) => apply keeps_this_cache_set; selector_reads_this
  | |- keeps _ (cache_addRef _) => apply keeps_this_cache_addRef; selector_reads_this
  | |- keeps _ (cache_release _) => apply keeps_this_cache_release; selector_reads_this
  | |- keeps _ (modify (cache_update_heightmap _ _)) =>
      apply keeps_this_cache_update; selector_reads_this
  | |- keeps _ (modify_this (lerp_targets _)) => fail "the interpolation loop"
  | |- keeps _ (modify_this _) => apply keeps_modify_this; intros ?; reflexivity
  | |- keeps _ (modify _) => apply keeps_modify; intros ?; reflexivity
  | |- keeps _ (if ?b then _ else _) => destruct b
  | |- keeps _ (match ?x with _ => _ end) => destruct x
  end.

Section SettingsAnimator.
Variables (getAbsoluteUrl_ : string -> string) (numToString : JSNum -> string).

Lemma keeps_destroyGeometry_ : keeps settings_animator destroyGeometry_.
Proof. unfold destroyGeometry_. repeat keeps_step. Qed.

Lemma keeps_createGeometry_ : keeps settings_animator (createGeometry_ numToString).
Proof. unfold createGeometry_. repeat keeps_step. Qed.

Lemma keeps_view_rebuildMesh_ (which : WhichView) :
  keeps settings_animator (view_rebuildMesh_ which).
Proof.
  unfold view_rebuildMesh_, view_destroyMesh_, view_createMesh_,
    view_createGeometry_.
  repeat keeps_step.
Qed.

Lemma keeps_rebuildGeometry_ :
  keeps settings_animator (rebuildGeometry_ numToString).
Proof.
  unfold rebuildGeometry_. repeat keeps_step.
  - apply keeps_destroyGeometry_.
  - apply keeps_createGeometry_.
  - apply keeps_view_rebuildMesh_.
Qed.

Lemma keeps_freeHeightmap_ (index : nat) :
  keeps settings_animator (freeHeightmap_ index).
Proof. unfold freeHeightmap_. repeat keeps_step. Qed.

Lemma keeps_setImageSrc (imageSrc : string) :
  keeps settings_animator (setImageSrc getAbsoluteUrl_ imageSrc).
Proof. unfold setImageSrc. repeat keeps_step. Qed.

Lemma keeps_run_callback (callback : Callback) :
  keeps settings_animator (run_callback getAbsoluteUrl_ numToString callback).
Proof.
  unfold run_callback, loadHeightmaps_onLoad, heightmap_size, run_completion.
  repeat keeps_step; first [apply keeps_setImageSrc | apply keeps_rebuildGeometry_].
Qed.

Lemma keeps_run_notifier (data : list Byte.byte) (n : Notifier) :
  keeps settings_animator (run_notifier getAbsoluteUrl_ numToString data n).
Proof. unfold run_notifier. repeat keeps_step. apply keeps_run_callback. Qed.

Lemma keeps_loadHeightmap_onLoad (index : nat) (key : string) (cb : Callback) :
  keeps settings_animator
    (loadHeightmap_onLoad getAbsoluteUrl_ numToString index key cb).
Proof.
  unfold loadHeightmap_onLoad.
  repeat keeps_step; first [apply keeps_run_notifier | apply keeps_run_callback].
Qed.

Lemma keeps_loadHeightmap_ (src : string) (index : nat) (cb : Callback) :
  keeps settings_animator (loadHeightmap_ getAbsoluteUrl_ numToString src index cb).
Proof.
  unfold loadHeightmap_.
  repeat keeps_step; first [apply keeps_freeHeightmap_ | apply keeps_run_callback].
Qed.

Lemma keeps_loadHeightmaps_ (k : Completion) :
  keeps settings_animator (loadHeightmaps_ getAbsoluteUrl_ numToString k).
Proof. unfold loadHeightmaps_. repeat keeps_step. apply keeps_loadHeightmap_. Qed.

Lemma keeps_image_loaded (id width height : nat) (pixels : list Byte.byte) :
  keeps settings_animator
    (image_loaded getAbsoluteUrl_ numToString id width height pixels).
Proof.
  unfold image_loaded, run_listener, setImageSrc_onLoad, view_setImage_.
  repeat keeps_step;
    first [apply keeps_loadHeightmap_onLoad | apply keeps_rebuildGeometry_
          | apply keeps_view_rebuildMesh_].
Qed.

End SettingsAnimator.

Lemma keeps_weaken {A X Y} (sel : World -> X) (sel' : World -> Y) (c : M A) :
  (forall w w', sel w' = sel w -> sel' w' = sel' w) ->
  keeps sel c -> keeps sel' c.
Proof. intros Hw Hc w. apply Hw, Hc. Qed.

(** The interpolation loop writes the current weights only. *)
Lemma lerp_targets_frame (time : JSNum) (m : Image3D) :
  exists c, lerp_targets time m = set_currentMorphTargets_ c m.
Proof.
  unfold lerp_targets.
  apply (for_range_ind (fun _ m' => exists c, m' = set_currentMorphTargets_ c m)).
  - exists (currentMorphTargets_ m). by destruct m.
  - intros i m' _ [c ->]. by eexists.
Qed.

Section AnimatorFrame.
Variables (getAbsoluteUrl_ : string -> string) (numToString : JSNum -> string).

Lemma keeps_push_targets (influences : JSArray JSNum) :
  keeps settings (push_targets influences).
Proof.
  unfold push_targets, view_setMorphTargetInfluences_. repeat keeps_step.
Qed.

Lemma keeps_morph (now : Z) (index seconds : JSNum) :
  keeps settings (morph now index seconds).
Proof. unfold morph. repeat keeps_step; apply keeps_push_targets. Qed.

Lemma keeps_setMorphing (now : Z) (b : bool) : keeps settings (setMorphing now b).
Proof. unfold setMorphing. repeat keeps_step. Qed.

Lemma keeps_update_morph (now : Z) : keeps settings (update_morph now).
Proof.
  unfold update_morph. repeat keeps_step; try apply keeps_push_targets.
  apply keeps_modify_this. intros w.
  match goal with |- context [lerp_targets ?t (this w)] =>
    destruct (lerp_targets_frame t (this w)) as [c ->]
  end.
  reflexivity.
Qed.

Lemma settings_of_both (w w' : World) :
  settings_animator w' = settings_animator w -> settings w' = settings w.
Proof. unfold settings_animator. congruence. Qed.

Lemma animator_of_both (w w' : World) :
  settings_animator w' = settings_animator w -> animator w' = animator w.
Proof. unfold settings_animator. congruence. Qed.

Lemma keeps_update (now : Z) : keeps settings (update getAbsoluteUrl_ now).
Proof.
  unfold update, sync_image. repeat keeps_step.
  - apply (keeps_weaken settings_animator); [apply settings_of_both|].
    apply keeps_setImageSrc.
  - apply keeps_update_morph.
Qed.

(** Every call that is no setter keeps the settings. *)
Lemma invoke_keeps_settings (c : Call) :
  sets_setting c = false ->
  keeps settings (invoke getAbsoluteUrl_ numToString c).
Proof.
  assert (Hboth : forall A (c : M A), keeps settings_animator c -> keeps settings c).
  { intros A c0. apply keeps_weaken, settings_of_both. }
  intros Hc. destruct c; try discriminate Hc; cbn [invoke].
  - unfold setUpViews. apply Hboth, keeps_loadHeightmaps_.
  - unfold tearDownViews. apply Hboth, keeps_destroyGeometry_.
  - unfold cleanUp. repeat keeps_step; apply Hboth, keeps_freeHeightmap_.
  - apply keeps_update.
  - apply keeps_morph.
  - apply keeps_setMorphing.
  - apply Hboth, keeps_setImageSrc.
  - apply Hboth, keeps_image_loaded.
Qed.

(** Every call that does not drive the animator keeps its state. *)
Lemma invoke_keeps_animator (c : Call) :
  drives_animator c = false ->
  keeps animator (invoke getAbsoluteUrl_ numToString c).
Proof.
  assert (Hboth : forall A (c : M A), keeps settings_animator c -> keeps animator c).
  { intros A c0. apply keeps_weaken, animator_of_both. }
  intros Hc. destruct c; try discriminate Hc; cbn [invoke].
  - unfold setUpViews. apply Hboth, keeps_loadHeightmaps_.
  - unfold tearDownViews. apply Hboth, keeps_destroyGeometry_.
  - unfold cleanUp. repeat keeps_step; apply Hboth, keeps_freeHeightmap_.
  - apply Hboth, keeps_setImageSrc.
  - unfold setHeightmap. repeat keeps_step. apply Hboth, keeps_loadHeightmap_.
  - unfold setMaxHeight. repeat keeps_step. apply Hboth, keeps_rebuildGeometry_.
  - unfold setGeometryStyle. repeat keeps_step. apply Hboth, keeps_rebuildGeometry_.
  - unfold setTransparent, view_setTransparent_. repeat keeps_step.
  - apply Hboth, keeps_image_loaded.
Qed.

End AnimatorFrame.

(* ================================================================= *)
(** ** Invariants of the model *)







Section Invariants.
Variables (getAbsoluteUrl_ : string -> string) (numToString : JSNum -> string).







Lemma max_height_of_settings (w w' : World) :
  settings w' = settings w -> max_height w' = max_height w.
Proof. unfold settings, max_height. congruence. Qed.

Lemma max_height_of_both (w w' : World) :
  settings_animator w' = settings_animator w -> max_height w' = max_height w.
Proof. intros H. by apply max_height_of_settings, settings_of_both. Qed.

(** Every call leaves a maximum height that is at least 0. *)
Lemma invoke_max_height (c : Call) (w : World) :
  Num.ge (max_height w) Num.zero = true ->
  Num.ge (max_height (world_after (invoke getAbsoluteUrl_ numToString c w)))
    Num.zero = true.
Proof.
  intros Hge.
  assert (Hboth : forall A (c : M A), keeps settings_animator c -> keeps max_height c).
  { intros A c0. apply keeps_weaken, max_height_of_both. }
  assert (Hkeep : forall c0 : M unit, keeps max_height c0 ->
    Num.ge (max_height (world_after (c0 w))) Num.zero = true).
  { intros c0 Hk. by rewrite Hk. }
  destruct (sets_setting c) eqn:Hc.
  - destruct c; try discriminate Hc; cbn [invoke].
    + apply Hkeep. unfold setHeightmap. repeat keeps_step.
      apply Hboth, keeps_loadHeightmap_.
    + unfold setMaxHeight, bind, assert_.
      destruct (Num.ge maxHeight Num.zero) eqn:Hnew; [|done].
      cbn [ret gets]. unfold when.
      destruct (negb _); [|done].
      unfold modify_this, modify, dispatch, emit. cbn -[rebuildGeometry_].
      match goal with |- context [rebuildGeometry_ ?n ?w1] =>
        pose proof (Hboth _ _ (keeps_rebuildGeometry_ n) w1) as Hk
      end.
      destruct (rebuildGeometry_ _ _); cbn in *; by rewrite Hk.
    + apply Hkeep. unfold setGeometryStyle. repeat keeps_step.
      apply Hboth, keeps_rebuildGeometry_.
    + apply Hkeep. unfold setTransparent, view_setTransparent_. repeat keeps_step.
  - apply Hkeep. apply (keeps_weaken settings); [apply max_height_of_settings|].
    by apply invoke_keeps_settings.
Qed.

(** What [initialize] establishes. *)
Lemma initialize_shape (options : Options) (m : Image3D) :
  initialize getAbsoluteUrl_ options = Done m ->
  weights_shape m /\ Num.ge (maxHeight_ m) Num.zero = true.
Proof.
  unfold initialize, rassert, rbind.
  destruct (bool_decide _); [|discriminate].
  destruct (opt_maxHeight options) as [h|].
  - destruct (Num.ge h Num.zero) eqn:Hh; [|discriminate].
    intros [= <-]. split; [|exact Hh].
    split; [|split]; apply (full_array_arr_of [Num.one; Num.zero; Num.zero; Num.zero]).
  - intros [= <-]. split; [|reflexivity].
    split; [|split]; apply (full_array_arr_of [Num.one; Num.zero; Num.zero; Num.zero]).
Qed.

Lemma run_calls_inv (P : World -> Prop) (calls : list Call) (w : World) :
  (forall c w, P w -> P (world_after (invoke getAbsoluteUrl_ numToString c w))) ->
  P w -> P (run_calls getAbsoluteUrl_ numToString calls w).
Proof.
  intros Hstep. unfold run_calls. revert w.
  induction calls as [|c calls IH]; intros w HP; [done|].
  cbn [foldl]. apply IH. by apply Hstep.
Qed.

End Invariants.

(** X8.  Only [update], [morph] and [setMorphing] change the state of the
    animator (the flag, the times and the three weight vectors), and only
    the four setters change a setting (the heightmap sources, the maximum
    height, the geometry style, the transparency): every other call, with
    all the loading and rebuilding it causes, leaves them as they were,
    whether it returns or throws. *)
Theorem calls_leave_alone (getAbsoluteUrl_ : string -> string)
    (numToString : JSNum -> string) (c : Call) (w : World) :
  (drives_animator c = false ->
   animator (world_after (invoke getAbsoluteUrl_ numToString c w)) = animator w)
  /\ (sets_setting c = false ->
      settings (world_after (invoke getAbsoluteUrl_ numToString c w)) = settings w).
Proof.
  split; intros Hc.
  - by apply invoke_keeps_animator.
  - by apply invoke_keeps_settings.
Qed.

Lemma calls_leave_alone_witness :
  animator (world_after (invoke absolute print_num (CallSetMaxHeight (Num.of_Z 50))
                           morphing_mesh_world))
  = animator morphing_mesh_world
  /\ settings (world_after (invoke absolute print_num
                              (CallMorph 1000 (Num.of_Z 2) (Num.of_Z 2))
                              morphing_mesh_world))
     = settings morphing_mesh_world.
Proof.
  split.
  - apply (calls_leave_alone absolute print_num (CallSetMaxHeight (Num.of_Z 50))
             morphing_mesh_world). reflexivity.
  - apply (calls_leave_alone absolute print_num
             (CallMorph 1000 (Num.of_Z 2) (Num.of_Z 2)) morphing_mesh_world).
    reflexivity.
Defined.



(** X10.  Whatever is called on a model, its maximum height is a number
    that is at least 0: [initialize] and [setMaxHeight] refuse a negative
    number and [NaN], and nothing else writes it. *)
Theorem max_height_never_negative (getAbsoluteUrl_ : string -> string)
    (numToString : JSNum -> string) (options : Options) (m : Image3D)
    (calls : list Call) (w : World) :
  initialize getAbsoluteUrl_ options = Done m ->
  this w = m ->
  Num.ge (maxHeight_ (this (run_calls getAbsoluteUrl_ numToString calls w)))
    Num.zero = true.
Proof.
  intros Hinit Hw.
  apply (run_calls_inv getAbsoluteUrl_ numToString
           (fun w => Num.ge (max_height w) Num.zero = true)).
  - intros c w0. apply invoke_max_height.
  - unfold max_height. rewrite Hw.
    by destruct (initialize_shape getAbsoluteUrl_ options m Hinit).
Qed.

Lemma max_height_never_negative_witness :
  Num.ge (maxHeight_ (this (run_calls absolute print_num example_calls
                              (world_of example_model))))
    Num.zero = true.
Proof.
  apply (max_height_never_negative absolute print_num example_options
           example_model example_calls (world_of example_model)); reflexivity.
Defined.

(* ================================================================= *)
(** ** A geometry style the builder does not know *)

Section UnknownStyle.
Variables (m : Image3D) (imgs : list ImageObj).
Hypothesis Hsmooth : String.eqb (geometryStyle_ m) GeometryStyle_Smooth = false.
Hypothesis Hblock : String.eqb (geometryStyle_ m) GeometryStyle_Block = false.
Hypothesis Hfloat : String.eqb (geometryStyle_ m) GeometryStyle_Float = false.

Lemma createHeightmapGeometry_unknown (d : HeightData) (g : Geometry)
    (o : VerticesOwner) (cf : bool) :
  createHeightmapGeometry_ m imgs (Some d) g o cf = Done (g, o).
Proof.
  unfold createHeightmapGeometry_. rewrite Hsmooth, Hblock, Hfloat. reflexivity.
Qed.

Lemma add_morph_target_unknown (i : nat) (g : Geometry) :
  vertices g = [] ->
  (is_Some (arr_get i (heightmaps_ m)) -> is_Some (arr_get i (heightmapData_ m))) ->
  add_morph_target m imgs i g
  = Done (mkGeometry (vertices g) (faces g) (faceVertexUvs0 g)
            (morphTargets g ++ [mkMorphTarget ("target" ++ pretty i) []])).
Proof.
  intros Hv Hready. unfold add_morph_target.
  destruct (bool_decide (arr_get i (heightmaps_ m) = None) || (i =? 0)) eqn:E.
  - cbn [rbind mt_name]. by rewrite Hv.
  - apply orb_false_iff in E as [E _]. apply bool_decide_eq_false in E.
    destruct (arr_get i (heightmaps_ m)) as [r|] eqn:Er; [|done].
    destruct Hready as [d Hd]; [by eexists|]. rewrite Hd.
    rewrite createHeightmapGeometry_unknown. reflexivity.
Qed.

End UnknownStyle.

Lemma targets_ready_spec (m : Image3D) (i : nat) :
  targets_ready m = true -> 1 <= i < 4 ->
  is_Some (arr_get i (heightmaps_ m)) -> is_Some (arr_get i (heightmapData_ m)).
Proof.
  unfold targets_ready. cbn [forallb]. rewrite !andb_true_iff.
  intros (H1 & H2 & H3 & _) Hi Hsome.
  assert (Hi' : i = 1 \/ i = 2 \/ i = 3) by lia.
  destruct Hi' as [-> | [-> | ->]].
  - rewrite bool_decide_eq_true_2 in H1 by done. by apply bool_decide_eq_true in H1.
  - rewrite bool_decide_eq_true_2 in H2 by done. by apply bool_decide_eq_true in H2.
  - rewrite bool_decide_eq_true_2 in H3 by done. by apply bool_decide_eq_true in H3.
Qed.

(** X11.  The geometry style is checked by [setGeometryStyle] only:
    [initialize] takes any non-empty string from the options.  For a style
    that is none of smooth, block and float, [setGeometryStyle] fails and
    changes nothing, while the builder, whose switch has no default case,
    returns a geometry without vertices and faces whose four morph targets
    are empty. *)
Theorem unknown_style_builds_nothing (getAbsoluteUrl_ : string -> string)
    (numToString : JSNum -> string) (options : Options) (style : string)
    (m : Image3D) (imgs : list ImageObj) (d0 : HeightData) (w : World) :
  String.eqb style GeometryStyle_Smooth = false ->
  String.eqb style GeometryStyle_Block = false ->
  String.eqb style GeometryStyle_Float = false ->
  String.eqb style EmptyString = false ->
  (opt_geometryStyle options = Some style ->
   forall m0, initialize getAbsoluteUrl_ options = Done m0 ->
     geometryStyle_ m0 = style)
  /\ setGeometryStyle numToString style w
     = Throw (AssertFail "geometryStyle must be valid.") w
  /\ (geometryStyle_ m = style ->
      arr_get 0 (heightmapData_ m) = Some d0 ->
      targets_ready m = true ->
      build_geometry m imgs
      = Done (mkGeometry [] [] []
                [mkMorphTarget "target0" []; mkMorphTarget "target1" [];
                 mkMorphTarget "target2" []; mkMorphTarget "target3" []])).
Proof.
  intros Hs Hb Hf He. split; [|split].
  - intros Hopt m0. unfold initialize, rassert, rbind. rewrite Hopt, He.
    destruct (bool_decide _); [|discriminate].
    destruct (opt_maxHeight options) as [h|].
    + destruct (Num.ge h Num.zero); [|discriminate]. by intros [= <-].
    + by intros [= <-].
  - unfold setGeometryStyle, bind, assert_.
    change "smooth" with GeometryStyle_Smooth.
    change "block" with GeometryStyle_Block.
    change "float" with GeometryStyle_Float.
    by rewrite Hs, Hb, Hf.
  - intros <- Hd0 Hready. unfold build_geometry.
    rewrite Hd0, createHeightmapGeometry_unknown by done. cbn [rbind].
    rewrite Hb. rewrite orb_true_r. cbn [rassert rbind seq foldl].
    rewrite (add_morph_target_unknown m imgs Hs Hb Hf 0); [|done|].
    2: { intros Hsome. by rewrite Hd0. }
    cbn [rbind vertices faces faceVertexUvs0 morphTargets].
    rewrite (add_morph_target_unknown m imgs Hs Hb Hf 1);
      [|done|apply targets_ready_spec; [done|lia]].
    cbn [rbind vertices faces faceVertexUvs0 morphTargets].
    rewrite (add_morph_target_unknown m imgs Hs Hb Hf 2);
      [|done|apply targets_ready_spec; [done|lia]].
    cbn [rbind vertices faces faceVertexUvs0 morphTargets].
    rewrite (add_morph_target_unknown m imgs Hs Hb Hf 3);
      [|done|apply targets_ready_spec; [done|lia]].
    reflexivity.
Qed.

Lemma unknown_style_builds_nothing_witness :
  exists m0,
    initialize absolute odd_style_options = Done m0
    /\ geometryStyle_ m0 = "wire"
    /\ setGeometryStyle print_num "wire" (world_of example_loaded)
       = Throw (AssertFail "geometryStyle must be valid.") (world_of example_loaded)
    /\ build_geometry (set_geometryStyle_ "wire" example_loaded) example_images
       = Done (mkGeometry [] [] []
                 [mkMorphTarget "target0" []; mkMorphTarget "target1" [];
                  mkMorphTarget "target2" []; mkMorphTarget "target3" []]).
Proof.
  destruct (unknown_style_builds_nothing absolute print_num odd_style_options
              "wire" (set_geometryStyle_ "wire" example_loaded) example_images
              (DPixels example_pixels) (world_of example_loaded))
    as (Hinit & Hset & Hbuild); [reflexivity | reflexivity | reflexivity
                                | reflexivity |].
  eexists. split; [reflexivity|]. split; [by apply Hinit|].
  split; [exact Hset|]. by apply Hbuild.
Defined.

(* ================================================================= *)
(** ** A heightmap number beyond the fourth *)

Lemma arr_get_arr_set_beyond {A} (i : nat) (v : A) (a : JSArray A) :
  length a <= i -> arr_get i (arr_set i v a) = Some v.
Proof.
  intros Hi. unfold arr_get, arr_set.
  destruct (Nat.ltb_spec i (length a)); [lia|].
  rewrite lookup_app_r by lia. rewrite lookup_app_r by (rewrite length_replicate; lia).
  rewrite length_replicate. by replace (i - length a - (i - length a)) with 0 by lia.
Qed.

Lemma arr_get_beyond {A} (i : nat) (a : JSArray A) :
  length a <= i -> arr_get i a = None.
Proof. intros Hi. unfold arr_get. by rewrite lookup_ge_None_2. Qed.

(** X12.  [setHeightmap] checks the heightmap number only after it has
    stored the source: with a number of 5 or more, on a model with four
    sources, the call fails in [loadHeightmap_] with the sources array
    extended to that number and the change event dispatched, and the same
    call made again finds the value in place and returns normally without
    doing anything. *)
Theorem setHeightmap_beyond_fourth (getAbsoluteUrl_ : string -> string)
    (numToString : JSNum -> string) (heightmap : string) (number : positive)
    (w : World) :
  String.eqb heightmap EmptyString = false ->
  5 <= Pos.to_nat number ->
  length (heightSources_ (this w)) = 4 ->
  let index := Pos.to_nat number - 1 in
  let w' :=
    set_trace (trace w ++
                 [EDispatch ("changeHeightmap" ++ numToString (Num.of_nat (index + 1)))])
      (set_this (set_heightSources_
                   (arr_set index (getAbsoluteUrl_ heightmap) (heightSources_ (this w)))
                   (this w)) w) in
  setHeightmap getAbsoluteUrl_ numToString heightmap (Some number) w
  = Throw (AssertFail "index must be between 0 and 3.") w'
  /\ length (heightSources_ (this w')) = Pos.to_nat number
  /\ setHeightmap getAbsoluteUrl_ numToString heightmap (Some number) w' = Ok tt w'.
Proof.
  intros Hne Hnum Hlen index w'.
  assert (Hidx : 4 <= index) by (unfold index; lia).
  split; [|split].
  - unfold setHeightmap, bind, assert_, gets. rewrite Hne. cbn [negb ret].
    fold index. rewrite arr_get_beyond by lia.
    rewrite bool_decide_eq_false_2 by done.
    destruct (Nat.eqb_spec index 0) as [E|_]; [lia|].
    unfold modify_this, modify, dispatch, emit, loadHeightmap_, bind, assert_.
    destruct (Nat.ltb_spec index 4) as [E|_]; [lia|].
    reflexivity.
  - unfold w'. cbn [this set_trace set_this heightSources_ set_heightSources_].
    unfold arr_set. destruct (Nat.ltb_spec index (length (heightSources_ (this w))));
      [lia|].
    rewrite !length_app, length_replicate. simpl. unfold index in *. lia.
  - unfold setHeightmap, bind, assert_, gets. rewrite Hne. cbn [negb ret].
    fold index.
    replace (arr_get index (heightSources_ (this w')))
      with (Some (getAbsoluteUrl_ heightmap)).
    + by rewrite bool_decide_eq_true_2.
    + unfold w'. cbn [this set_trace set_this heightSources_ set_heightSources_].
      symmetry. apply arr_get_arr_set_beyond. lia.
Qed.

Lemma setHeightmap_beyond_fourth_witness :
  setHeightmap absolute print_num "c.png" (Some 6%positive) (world_of example_model)
  = Throw (AssertFail "index must be between 0 and 3.")
      (set_trace (trace (world_of example_model) ++
                    [EDispatch ("changeHeightmap" ++ print_num (Num.of_nat (5 + 1)))])
         (set_this (set_heightSources_
                      (arr_set 5 (absolute "c.png")
                         (heightSources_ (this (world_of example_model))))
                      (this (world_of example_model)))
            (world_of example_model))).
Proof.
  apply (setHeightmap_beyond_fourth absolute print_num "c.png" 6%positive
           (world_of example_model)); [reflexivity | vm_compute; lia | reflexivity].
Defined.

(* ================================================================= *)
(** ** A timed morph from start to end *)

Lemma Num_of_Z_mul (a b : Z) : Num.mul (Num.of_Z a) (Num.of_Z b) = Num.of_Z (a * b).
Proof.
  unfold Num.of_Z. simpl. f_equal. apply Qc_is_canon. simpl.
  rewrite !Qred_correct. by rewrite inject_Z_mult.
Qed.

Lemma Num_gt_pos (p : positive) : Num.gt (Num.of_Z (Zpos p)) Num.zero = true.
Proof. unfold Num.gt, Num.zero, Num.of_Z. by rewrite Qc_compare_Q2Qc. Qed.

(** The fraction of a morph of [secs] seconds that has passed [e]
    milliseconds after its start. *)
Lemma morph_time (now e : Z) (secs : positive) :
  ((Num.of_Z (now + e) - Num.of_Z now)
   / (Num.of_Z (Zpos secs) * Num.of_Z 1000))%num
  = Fin (Q2Qc (inject_Z e / inject_Z (Zpos (secs * 1000)))).
Proof.
  rewrite Num_of_Z_sub, Num_of_Z_mul.
  replace (now + e - now)%Z with e by lia.
  change (Z.pos secs * 1000)%Z with (Zpos (secs * 1000)).
  unfold Num.of_Z at 1. apply Num_div_pos.
Qed.

Lemma mix_at_start (s e : Qc) :
  (Fin s * (Num.one - Fin (Q2Qc 0)) + Fin e * Fin (Q2Qc 0))%num = Fin s.
Proof.
  unfold Num.sub, Num.neg, Num.add, Num.mul, Num.one, Num.of_Z. f_equal.
  change (Q2Qc (inject_Z 1)) with 1%Qc. change (Q2Qc 0) with 0%Qc. ring.
Qed.

Lemma mix_at_end (s e : Qc) :
  (Fin s * (Num.one - Fin (Q2Qc 1)) + Fin e * Fin (Q2Qc 1))%num = Fin e.
Proof.
  unfold Num.sub, Num.neg, Num.add, Num.mul, Num.one, Num.of_Z. f_equal.
  change (Q2Qc (inject_Z 1)) with 1%Qc. change (Q2Qc 1) with 1%Qc. ring.
Qed.

Lemma morph_time_start (secs : positive) :
  Q2Qc (inject_Z 0 / inject_Z (Zpos (secs * 1000))) = Q2Qc 0.
Proof. apply Q2Qc_eq_iff. reflexivity. Qed.

Lemma morph_time_end (secs : positive) :
  Q2Qc (inject_Z (1000 * Zpos secs) / inject_Z (Zpos (secs * 1000))) = Q2Qc 1.
Proof.
  apply Q2Qc_eq_iff. unfold Qeq, Qdiv, Qmult, Qinv. simpl. lia.
Qed.

Lemma morph_time_after (e : Z) (secs : positive) :
  (1000 * Zpos secs < e)%Z ->
  Num.gt (Fin (Q2Qc (inject_Z e / inject_Z (Zpos (secs * 1000))))) Num.one = true.
Proof.
  intros He. unfold Num.gt, Num.one, Num.of_Z. rewrite Qc_compare_Q2Qc.
  assert (Hlt : (inject_Z 1 < inject_Z e / inject_Z (Zpos (secs * 1000)))%Q).
  { unfold Qlt, Qdiv, Qmult, Qinv. simpl. lia. }
  apply Qgt_alt in Hlt. by rewrite Hlt.
Qed.

Lemma morph_time_not_after (q : Q) :
  q == 0 \/ q == 1 -> Num.gt (Fin (Q2Qc q)) Num.one = false.
Proof.
  intros Hq. unfold Num.gt, Num.one, Num.of_Z. rewrite Qc_compare_Q2Qc.
  destruct (q ?= inject_Z 1)%Q eqn:E; try reflexivity.
  apply Qgt_alt in E. destruct Hq as [Hq|Hq]; rewrite Hq in E; discriminate E.
Qed.

(** The end vector [morph] makes for the indices 1, 2 and 3. *)
Lemma morph_end_vector (idx : nat) :
  1 <= idx <= 3 ->
  arr_set_num (Num.of_nat idx - Num.one)%num Num.one zeros4 = one_hot (idx - 1)
  /\ Num.ge (Num.of_nat idx) Num.zero && Num.lt (Num.of_nat idx) (Num.of_Z 4) = true.
Proof.
  intros Hidx. assert (H : idx = 1 \/ idx = 2 \/ idx = 3) by lia.
  destruct H as [-> | [-> | ->]]; split; reflexivity.
Qed.

(** X13.  A morph of a whole number of seconds, started on an animator whose
    current weights are numbers, begins without a jump and ends one tick
    late: [morph] dispatches [morphBegin] and leaves the current weights and
    the views as they are; a tick at the time of the call leaves the current
    weights where they were; a tick exactly at the end of the duration puts
    the end vector on the meshes but neither stops the morph nor dispatches
    [morphEnd]; any later tick does both. *)
Theorem timed_morph_boundaries (getAbsoluteUrl_ : string -> string) (now : Z)
    (idx : nat) (secs : positive) (w : World) (c0 c1 c2 c3 : Qc) :
  1 <= idx <= 3 ->
  loaded (this w) = true ->
  element_synced (this w) = true ->
  currentMorphTargets_ (this w) = arr_of [Fin c0; Fin c1; Fin c2; Fin c3] ->
  exists w1,
    morph now (Num.of_nat idx) (Num.of_Z (Zpos secs)) w = Ok tt w1
    /\ trace w1 = trace w ++ [EDispatch "morphBegin"]
    /\ currentMorphTargets_ (this w1) = currentMorphTargets_ (this w)
    /\ endMorphTargets_ (this w1) = one_hot (idx - 1)
    /\ view w1 = view w /\ stencilView w1 = stencilView w
    /\ (exists w2,
          update getAbsoluteUrl_ now w1 = Ok tt w2
          /\ currentMorphTargets_ (this w2) = currentMorphTargets_ (this w)
          /\ morphing_ (this w2) = true)
    /\ (exists w2,
          update getAbsoluteUrl_ (now + 1000 * Zpos secs) w1 = Ok tt w2
          /\ currentMorphTargets_ (this w2) = one_hot (idx - 1)
          /\ pushed_to_views w w2 (one_hot (idx - 1))
          /\ morphing_ (this w2) = true
          /\ trace w2 = trace w1 ++ dirty_marks w)
    /\ (forall e, (1000 * Zpos secs < e)%Z ->
          exists w2,
            update getAbsoluteUrl_ (now + e) w1 = Ok tt w2
            /\ currentMorphTargets_ (this w2) = one_hot (idx - 1)
            /\ pushed_to_views w w2 (one_hot (idx - 1))
            /\ morphing_ (this w2) = false
            /\ trace w2 = trace w1 ++ dirty_marks w ++ [EDispatch "morphEnd"]).
Proof.
  intros Hidx Hl Hsync Hc.
  destruct (morph_end_vector idx Hidx) as [Hend Hok].
  set (w1 := set_trace (trace w ++ [EDispatch "morphBegin"])
    (set_this
       (set_morphing_ true
          (set_morphElapsed_ Num.zero
             (set_morphStartTime_ (Num.of_Z now)
                (set_morphDuration_ (Num.of_Z (Zpos secs) * Num.of_Z 1000)%num
                   (set_endMorphTargets_ (one_hot (idx - 1))
                      (set_startMorphTargets_ (currentMorphTargets_ (this w))
                         (this w))))))) w)).
  assert (Hmorph : morph now (Num.of_nat idx) (Num.of_Z (Zpos secs)) w = Ok tt w1).
  { unfold morph, bind, assert_. rewrite Hok. cbn [ret]. rewrite Hend.
    rewrite Num_gt_pos.
    unfold modify_this, modify, dispatch, emit, arr_slice0. reflexivity. }
  assert (Hl1 : loaded (this w1) = true) by (destruct w as [[]]; exact Hl).
  assert (Hs1 : element_synced (this w1) = true) by (destruct w as [[]]; exact Hsync).
  assert (Hupd : forall t, update getAbsoluteUrl_ t w1 = update_morph t w1).
  { intros t. unfold update, bind, gets. rewrite Hl1. cbn [negb].
    by rewrite sync_image_synced. }
  assert (Hone : exists e0 e1 e2 e3 : Qc,
    one_hot (idx - 1) = arr_of [Fin e0; Fin e1; Fin e2; Fin e3]).
  { assert (H : idx = 1 \/ idx = 2 \/ idx = 3) by lia.
    destruct H as [-> | [-> | ->]]; by eexists _, _, _, _. }
  destruct Hone as (e0 & e1 & e2 & e3 & Hone).
  assert (Htick : forall e : Z,
    let t := Fin (Q2Qc (inject_Z e / inject_Z (Zpos (secs * 1000)))) in
    let mix s e := (s * (Num.one - t) + e * t)%num in
    exists w2,
      update_morph (now + e) w1 = Ok tt w2
      /\ if Num.gt t Num.one then
           currentMorphTargets_ (this w2) = one_hot (idx - 1)
           /\ morphing_ (this w2) = false
           /\ pushed_to_views w w2 (one_hot (idx - 1))
           /\ trace w2 = trace w1 ++ dirty_marks w ++ [EDispatch "morphEnd"]
         else
           currentMorphTargets_ (this w2)
             = arr_of [mix (Fin c0) (Fin e0); mix (Fin c1) (Fin e1);
                       mix (Fin c2) (Fin e2); mix (Fin c3) (Fin e3)]
           /\ morphing_ (this w2) = true
           /\ pushed_to_views w w2 (currentMorphTargets_ (this w2))
           /\ trace w2 = trace w1 ++ dirty_marks w).
  { intros e t mix.
    destruct (update_morph_tick_exact (now + e) w1
                (Fin c0) (Fin c1) (Fin c2) (Fin c3) (Fin e0) (Fin e1) (Fin e2) (Fin e3))
      as (w2 & Hrun & _ & _ & _ & Hcases).
    - by destruct w as [[]].
    - destruct w as [[]]; exact Hc.
    - destruct w as [[]]; exact Hone.
    - destruct w as [[]]; cbn in Hc |- *. by rewrite Hc.
    - replace (morphStartTime_ (this w1)) with (Num.of_Z now) in Hcases
        by (by destruct w as [[]]).
      replace (morphDuration_ (this w1))
        with (Num.of_Z (Zpos secs) * Num.of_Z 1000)%num in Hcases
        by (by destruct w as [[]]).
      rewrite morph_time in Hcases. fold t in Hcases.
      replace (endMorphTargets_ (this w1)) with (one_hot (idx - 1)) in Hcases
        by (by destruct w as [[]]).
      replace (dirty_marks w1) with (dirty_marks w) in Hcases
        by (by destruct w as [[]]).
      assert (Hp : forall i, pushed_to_views w1 w2 i -> pushed_to_views w w2 i)
        by (by destruct w as [[]]).
      exists w2. split; [exact Hrun|].
      destruct (Num.gt t Num.one).
      + destruct Hcases as (C1 & _ & C3 & C4 & C5). by auto.
      + destruct Hcases as (C1 & _ & C3 & C4 & C5). by auto. }
  exists w1. split; [exact Hmorph|].
  split; [by destruct w|]. split; [by destruct w as [[]]|].
  split; [by destruct w as [[]]|]. split; [by destruct w|]. split; [by destruct w|].
  split; [|split].
  - destruct (Htick 0%Z) as (w2 & Hrun & Hcases).
    rewrite morph_time_start in Hcases.
    rewrite (morph_time_not_after 0) in Hcases by (by left).
    destruct Hcases as (C1 & C3 & _).
    exists w2. rewrite Hupd. replace (now + 0)%Z with now in Hrun by lia.
    split; [exact Hrun|]. split; [|exact C3].
    rewrite C1, Hc, !mix_at_start. reflexivity.
  - destruct (Htick (1000 * Zpos secs)%Z) as (w2 & Hrun & Hcases).
    rewrite morph_time_end in Hcases.
    rewrite (morph_time_not_after 1) in Hcases by (by right).
    destruct Hcases as (C1 & C3 & C4 & C5).
    rewrite !mix_at_end in C1.
    exists w2. rewrite Hupd. split; [exact Hrun|].
    rewrite <- Hone in C1. rewrite C1 in C4. by auto.
  - intros e He. destruct (Htick e) as (w2 & Hrun & Hcases).
    rewrite morph_time_after in Hcases by done.
    exists w2. rewrite Hupd. split; [exact Hrun|].
    destruct Hcases as (C1 & C3 & C4 & C5). by auto.
Qed.

Lemma timed_morph_boundaries_witness :
  exists w1,
    morph 1000 (Num.of_nat 2) (Num.of_Z 2)
      (set_this (set_loaded true example_model) morphing_mesh_world) = Ok tt w1
    /\ (exists w2,
          update absolute (1000 + 1000 * 2) w1 = Ok tt w2
          /\ currentMorphTargets_ (this w2) = one_hot (2 - 1)
          /\ morphing_ (this w2) = true)
    /\ (exists w2,
          update absolute (1000 + 2001) w1 = Ok tt w2
          /\ currentMorphTargets_ (this w2) = one_hot (2 - 1)
          /\ morphing_ (this w2) = false).
Proof.
  destruct (timed_morph_boundaries absolute 1000 2 2%positive
              (set_this (set_loaded true example_model) morphing_mesh_world)
              (Q2Qc 1) (Q2Qc 0) (Q2Qc 0) (Q2Qc 0))
    as (w1 & Hm & _ & _ & _ & _ & _ & _ & Hend & Hafter);
    [lia | reflexivity | reflexivity | reflexivity |].
  exists w1. split; [exact Hm|]. split.
  - destruct Hend as (w2 & H1 & H2 & _ & H3 & _). by exists w2.
  - destruct (Hafter 2001%Z) as (w2 & H1 & H2 & _ & H3 & _); [lia|]. by exists w2.
Defined.

(* ================================================================= *)
(** ** References on the cache *)

(** Brings a world written with setters to a record. *)
Ltac world_norm :=
  cbv beta iota delta [set_this set_cache set_trace set_images set_view
                       set_stencilView this view stencilView cache images trace].

Lemma build_geometry_key (key : string) (m : Image3D) (imgs : list ImageObj) :
  build_geometry (set_geometryKey_ key m) imgs = build_geometry m imgs.
Proof. by destruct m. Qed.

(** X14.  [createGeometry_] takes exactly one reference on the key of the
    model's configuration and [tearDownViews] gives it back: if the key is
    not in the cache and the geometry can be built, it is cached with one
    reference and removed again (and disposed of); if the key is in the
    cache, the count goes up by one and down again.  Either way the cache
    ends as it began, with no geometry and no key left on the model. *)
Theorem geometry_reference_round_trip (numToString : JSNum -> string) (w : World) :
  let key := geometry_key numToString (this w) in
  match cache w !! key with
  | Some e => 1 <= refcount e
  | None => exists g, build_geometry (this w) (images w) = Done g
  end ->
  exists w1 w2 p,
    createGeometry_ numToString w = Ok tt w1
    /\ geometry_ (this w1) = Some p
    /\ geometryKey_ (this w1) = key
    /\ cache w1 !! key
       = Some (mkCacheEntry p (S (from_option refcount 0 (cache w !! key))))
    /\ tearDownViews w1 = Ok tt w2
    /\ cache w2 = cache w
    /\ geometry_ (this w2) = None
    /\ geometryKey_ (this w2) = EmptyString.
Proof.
  intros key Hpre.
  destruct w as [m v sv c imgs tr].
  cbn [cache this images] in *.
  unfold createGeometry_, bind, gets, modify_this, modify, cache_has.
  world_norm. fold key.
  destruct (c !! key) as [e|] eqn:Ecache.
  - rewrite bool_decide_eq_true_2 by (by eexists).
    unfold cache_addRef, cache_get. world_norm.
    rewrite Ecache. world_norm. rewrite lookup_insert_eq. world_norm.
    destruct e as [p [|n]]; [cbn in Hpre; lia|].
    cbn [payload refcount from_option].
    eexists _, _, p. split; [reflexivity|]. world_norm.
    cbn [geometry_ set_geometry_ geometryKey_ set_geometryKey_].
    split; [reflexivity|]. split; [reflexivity|].
    split; [apply lookup_insert_eq|].
    unfold tearDownViews, destroyGeometry_, bind, gets, when, modify_this, modify,
      emit, cache_release, ret.
    world_norm. cbn [geometry_ set_geometry_ geometryKey_ set_geometryKey_].
    rewrite bool_decide_eq_true_2 by (by eexists).
    rewrite lookup_insert_eq. cbn [refcount payload]. world_norm.
    split; [reflexivity|]. world_norm.
    cbn [geometry_ set_geometry_ geometryKey_ set_geometryKey_].
    split; [|split; reflexivity].
    rewrite insert_insert_eq. by apply insert_id.
  - rewrite bool_decide_eq_false_2 by (by intros [? ?]).
    destruct Hpre as [g Hg]. unfold lift. world_norm.
    rewrite build_geometry_key, Hg. unfold cache_set. world_norm.
    rewrite Ecache.
    eexists _, _, (PGeometry g). split; [reflexivity|]. world_norm.
    cbn [geometry_ set_geometry_ geometryKey_ set_geometryKey_ from_option].
    split; [reflexivity|]. split; [reflexivity|].
    split; [apply lookup_insert_eq|].
    unfold tearDownViews, destroyGeometry_, bind, gets, when, modify_this, modify,
      emit, cache_release, ret.
    world_norm. cbn [geometry_ set_geometry_ geometryKey_ set_geometryKey_].
    rewrite bool_decide_eq_true_2 by (by eexists).
    rewrite lookup_insert_eq. cbn [refcount payload]. unfold emit, modify.
    world_norm.
    split; [reflexivity|]. world_norm.
    cbn [geometry_ set_geometry_ geometryKey_ set_geometryKey_].
    split; [|split; reflexivity].
    rewrite delete_insert_eq. by apply delete_id.
Qed.

Lemma geometry_reference_round_trip_witness :
  exists w1 w2 p,
    createGeometry_ print_num (set_images example_images (world_of float_model))
    = Ok tt w1
    /\ geometry_ (this w1) = Some p
    /\ cache w1 !! geometry_key print_num float_model = Some (mkCacheEntry p 1)
    /\ tearDownViews w1 = Ok tt w2
    /\ cache w2 = ∅
    /\ geometry_ (this w2) = None.
Proof.
  destruct (geometry_reference_round_trip print_num
              (set_images example_images (world_of float_model)))
    as (w1 & w2 & p & H1 & H2 & _ & H4 & H5 & H6 & H7 & _).
  { vm_compute. eexists. reflexivity. }
  exists w1, w2, p. repeat split; assumption.
Defined.

Lemma arr_get_arr_set {A} (i : nat) (v : A) (a : JSArray A) :
  arr_get i (arr_set i v a) = Some v.
Proof.
  destruct (Nat.lt_ge_cases i (length a)) as [Hi|Hi].
  - unfold arr_get. by rewrite lookup_arr_set_eq.
  - by apply arr_get_arr_set_beyond.
Qed.

(** X15.  A heightmap that another model is still decoding is shared: the
    load takes a reference on the cache entry and leaves a notifier on it.
    It does not record the key in [heightmapKeys_], so [cleanUp] has nothing
    to release: on a model whose keys are all empty it changes nothing, and
    the reference and the notifier stay in the cache. *)
Theorem pending_reference_never_released (getAbsoluteUrl_ : string -> string)
    (numToString : JSNum -> string) (src : string) (index : nat) (cb : Callback)
    (w : World) (img : nat) (notifiers : list Notifier) (n : nat) :
  index < 4 ->
  String.eqb src EmptyString = false ->
  cache w !! src
  = Some (mkCacheEntry (PHeightmap (mkHeightmapEntry img None notifiers)) n) ->
  (forall i, i < 4 -> arr_get i (heightmapKeys_ (this w)) = Some EmptyString) ->
  exists w1,
    loadHeightmap_ getAbsoluteUrl_ numToString src index cb w = Ok tt w1
    /\ cache w1
       = <[src := mkCacheEntry
                    (PHeightmap (mkHeightmapEntry img None
                                   (notifiers ++ [NThis index cb]))) (S n)]>
           (cache w)
    /\ heightmapKeys_ (this w1) = heightmapKeys_ (this w)
    /\ arr_get index (heightmaps_ (this w1)) = Some (HImage img)
    /\ cleanUp w1 = Ok tt w1.
Proof.
  intros Hidx Hsrc Hcache Hkeys.
  assert (Hfree : forall i w0, i < 4 ->
    heightmapKeys_ (this w0) = heightmapKeys_ (this w) ->
    freeHeightmap_ i w0 = Ok tt w0).
  { intros i w0 Hi Hk. unfold freeHeightmap_, bind, assert_, gets, when.
    destruct (Nat.ltb_spec i 4) as [_|E]; [|lia].
    cbn [ret]. by rewrite Hk, Hkeys. }
  unfold loadHeightmap_, bind, assert_.
  destruct (Nat.ltb_spec index 4) as [_|E]; [|lia].
  cbn [ret]. rewrite Hsrc. rewrite Hfree by done.
  unfold gets, cache_has. rewrite Hcache.
  rewrite bool_decide_eq_true_2 by (by eexists).
  unfold cache_addRef, cache_get, modify_this, modify, cache_update_heightmap.
  destruct w as [m v sv c imgs tr]. world_norm. cbn [this cache] in *.
  rewrite Hcache. world_norm. rewrite lookup_insert_eq.
  cbn [payload refcount he_heightmap he_heightmapData he_notifiers]. world_norm.
  rewrite lookup_insert_eq.
  cbn [payload refcount he_heightmap he_heightmapData he_notifiers].
  eexists. split; [reflexivity|]. world_norm.
  split; [by rewrite insert_insert_eq|].
  split; [reflexivity|].
  split; [cbn [heightmaps_ set_heightmaps_]; apply arr_get_arr_set|].
  unfold cleanUp, bind.
  rewrite !Hfree by (first [lia | reflexivity]). reflexivity.
Qed.

Lemma pending_reference_never_released_witness :
  exists w1,
    loadHeightmap_ absolute print_num "http://h/a.png" 1 CbRebuildGeometry
      (set_this example_model pending_world) = Ok tt w1
    /\ (refcount <$> cache w1 !! "http://h/a.png") = Some 2
    /\ cleanUp w1 = Ok tt w1.
Proof.
  destruct (pending_reference_never_released absolute print_num "http://h/a.png"
              1 CbRebuildGeometry (set_this example_model pending_world) 0 [] 1)
    as (w1 & Hrun & Hc & _ & _ & Hclean);
    [lia | reflexivity | vm_compute; reflexivity | |].
  { intros i Hi. do 4 (destruct i as [|i]; [reflexivity|]). lia. }
  exists w1. split; [exact Hrun|]. split; [|exact Hclean].
  rewrite Hc, lookup_insert_eq. reflexivity.
Defined.
